(** * Launch on Please: window acquisition, placement and drift correction

    A shallow embedding of [launch_on_please.py] (the headless core: window
    helpers, candidate scanner, acquisition loop, placement engine, drift
    watchdog, command-line entry) and the properties proved about it.

    Conventions.
    - Python integers are [Z]; window, monitor and process handles are [Z].
    - Python sets ([pid_set], the pre-launch snapshot) are [gset Z]; an
      optional argument is an [option], and Python truthiness ([if s and ...])
      is written out: [None] and the empty set / empty string are falsy.
    - Win32 calls that raise [win32gui.error] are modelled by queries
      returning [None], or by the [Raise] outcome of the effect monad.
    - The wall clock is counted in integer milliseconds; [time.sleep]
      advances it by the requested amount and lets the environment act.
      The stability counter of [wait_for_stable_window] is a binary64 float
      as in the source. *)

From Stdlib Require Import ZArith List String Ascii Bool Lia Floats.
From stdpp Require Import base decidable gmap.
Import ListNotations.
Local Open Scope Z_scope.

(** ** Settings (module-level constants of the source) *)

Definition POLL_INTERVAL_MS : Z := 50.
Definition RECT_TOL : Z := 3.
Definition WAIT_TIMEOUT_SEC : Z := 45.
Definition STABLE_MS_BEFORE_MOVE : Z := 400.
Definition EARLY_MOVE_ON_DETECT : bool := true.

(** ** win32con constants used by the source *)

Module win32con.
Definition WS_OVERLAPPED : Z := 0x00000000.
Definition WS_CAPTION : Z := 0x00C00000.
Definition WS_SYSMENU : Z := 0x00080000.
Definition WS_THICKFRAME : Z := 0x00040000.
Definition WS_MINIMIZEBOX : Z := 0x00020000.
Definition WS_MAXIMIZEBOX : Z := 0x00010000.
Definition WS_EX_TOOLWINDOW : Z := 0x00000080.
Definition SW_SHOWNORMAL : Z := 1.
Definition SW_SHOWMINIMIZED : Z := 2.
Definition SW_SHOWMAXIMIZED : Z := 3.
Definition SW_MAXIMIZE : Z := 3.
Definition SW_RESTORE : Z := 9.
Definition SWP_NOZORDER : Z := 0x0004.
Definition SWP_NOACTIVATE : Z := 0x0010.
Definition SWP_FRAMECHANGED : Z := 0x0020.
End win32con.

(** ** Rectangles *)

Record Rect := mkRect { left : Z; top : Z; right : Z; bottom : Z }.

Definition width (r : Rect) : Z := right r - left r.
Definition height (r : Rect) : Z := bottom r - top r.

(** [a] lies inside [b] (edges may touch). *)
Definition inside (a b : Rect) : Prop :=
  left b <= left a /\ top b <= top a /\ right a <= right b /\ bottom a <= bottom b.

(** Some edge differs by more than [tol]. *)
Definition edges_differ (tol : Z) (a b : Rect) : bool :=
  (tol <? Z.abs (left a - left b)) || (tol <? Z.abs (top a - top b)) ||
  (tol <? Z.abs (right a - right b)) || (tol <? Z.abs (bottom a - bottom b)).

(** [rect_changed(a, b, tol=RECT_TOL)]: a missing rectangle counts as a
    change. *)
Definition rect_changed (a b : option Rect) : bool :=
  match a, b with
  | Some ra, Some rb => edges_differ RECT_TOL ra rb
  | _, _ => true
  end.

(** ** Top-level windows as the program observes them *)

Record Window := mkWindow {
  hwnd : Z;
  visible : bool;                (* IsWindowVisible *)
  styles : option (Z * Z);       (* GetWindowLong GWL_STYLE, GWL_EXSTYLE; None: raises *)
  wrect : option Rect;           (* GetWindowRect; None: raises *)
  owner_pid : option Z;          (* GetWindowThreadProcessId; None: raises *)
  proc_name : option string;     (* psutil.Process(pid).name(); None: raises *)
  showcmd : Z;                   (* GetWindowPlacement(hwnd)[1] *)
  normal_rect : Rect             (* restored position kept by the window manager *)
}.

(** ** Window helpers *)

Definition WS_OVERLAPPEDWINDOW : Z :=
  Z.lor win32con.WS_OVERLAPPED
    (Z.lor win32con.WS_CAPTION
      (Z.lor win32con.WS_SYSMENU
        (Z.lor win32con.WS_THICKFRAME
          (Z.lor win32con.WS_MINIMIZEBOX win32con.WS_MAXIMIZEBOX)))).

(** [is_main_style]: the Python value [(style & MASK) and not is_tool] is
    used for its truthiness only. *)
Definition is_main_style (w : Window) : bool :=
  match styles w with
  | None => false
  | Some (style, ex) =>
      let is_tool := negb (Z.land ex win32con.WS_EX_TOOLWINDOW =? 0) in
      negb (Z.land style WS_OVERLAPPEDWINDOW =? 0) && negb is_tool
  end.

Definition hwnd_pid (w : Window) : option Z := owner_pid w.

(** [str.lower()] on text held as bytes: the letters A to Z are mapped to
    a to z, every other byte is kept.  The case mapping of characters
    outside ASCII is not modelled; statements about lower-casing are made
    for the ASCII letters. *)
Definition lower_ascii (c : ascii) : ascii :=
  let n := nat_of_ascii c in
  if ((65 <=? n) && (n <=? 90))%nat then ascii_of_nat (n + 32) else c.

Fixpoint lower (s : string) : string :=
  match s with
  | EmptyString => EmptyString
  | String c s' => String (lower_ascii c) (lower s')
  end.

Definition hwnd_exe_name (w : Window) : string :=
  match hwnd_pid w with
  | None => EmptyString
  | Some pid =>
      if pid =? 0 then EmptyString
      else match proc_name w with
           | Some n => lower n
           | None => EmptyString
           end
  end.

(** ** Window Candidate Scanner *)

(** Python truthiness of an optional set and of an optional string. *)
Definition set_truthy (s : option (gset Z)) : bool :=
  match s with
  | None => false
  | Some s => bool_decide (s ≠ ∅)
  end.

Definition str_truthy (s : option string) : bool :=
  match s with
  | None => false
  | Some s => negb (String.eqb s EmptyString)
  end.

Definition pid_in (pid : option Z) (s : option (gset Z)) : bool :=
  match pid, s with
  | Some p, Some s => bool_decide (p ∈ s)
  | _, _ => false
  end.

Definition hwnd_in (h : Z) (s : option (gset Z)) : bool :=
  match s with
  | Some s => bool_decide (h ∈ s)
  | None => false
  end.

Definition name_is (name : string) (exe_base : option string) : bool :=
  match exe_base with
  | Some e => String.eqb name e
  | None => false
  end.

(** The three filters of [_enum]: visible, main style, readable rectangle
    of at least 200 x 150. *)
Definition passes_filters (w : Window) : bool :=
  visible w && is_main_style w &&
  match wrect w with
  | None => false
  | Some r => negb ((width r <? 200) || (height r <? 150))
  end.

Definition area (w : Window) : Z :=
  match wrect w with
  | Some r => width r * height r
  | None => 0
  end.

Definition score (pid_set : option (gset Z)) (exe_base : option string)
    (since_handles : option (gset Z)) (w : Window) : Z :=
  let pid := hwnd_pid w in
  let name := hwnd_exe_name w in
  let score := 0 in
  let score := if set_truthy pid_set && pid_in pid pid_set
               then score + 1000 else score in
  let score := if str_truthy exe_base && name_is name exe_base
               then score + 500 else score in
  let score := if set_truthy since_handles && negb (hwnd_in (hwnd w) since_handles)
               then score + 200 else score in
  score.

(** A candidate is the tuple [(score, w*h, hwnd)]. *)
Definition Candidate : Type := Z * Z * Z.

Definition cscore (c : Candidate) : Z := fst (fst c).
Definition carea (c : Candidate) : Z := snd (fst c).
Definition chwnd (c : Candidate) : Z := snd c.

Fixpoint candidates (pid_set : option (gset Z)) (exe_base : option string)
    (since_handles : option (gset Z)) (wins : list Window) : list Candidate :=
  match wins with
  | [] => []
  | w :: rest =>
      let tl := candidates pid_set exe_base since_handles rest in
      if passes_filters w then
        let s := score pid_set exe_base since_handles w in
        if 0 <? s then (s, area w, hwnd w) :: tl else tl
      else tl
  end.

(** Sort key [(x[0], x[1])], compared as Python compares tuples. *)
Definition key_lt (a b : Candidate) : bool :=
  (cscore a <? cscore b) || ((cscore a =? cscore b) && (carea a <? carea b)).

(** [list.sort(key=..., reverse=True)]: a stable sort in descending key
    order; elements with equal keys keep their enumeration order. *)
Fixpoint insert_desc (x : Candidate) (l : list Candidate) : list Candidate :=
  match l with
  | [] => [x]
  | y :: r => if key_lt x y then y :: insert_desc x r else x :: y :: r
  end.

Fixpoint sort_desc (l : list Candidate) : list Candidate :=
  match l with
  | [] => []
  | x :: r => insert_desc x (sort_desc r)
  end.

Definition pick_best_window_by (pid_set : option (gset Z)) (exe_base : option string)
    (since_handles : option (gset Z)) (wins : list Window) : option Z :=
  match sort_desc (candidates pid_set exe_base since_handles wins) with
  | [] => None
  | c :: _ => Some (chwnd c)
  end.

(** ** The system state, the environment and the effect monad *)

(** Calls with an effect outside the program, in the order issued. *)
Inductive Call :=
| CPopen (exe : string)
| CShowWindow (h cmd : Z)
| CSetWindowPos (h x y cx cy flags : Z).

Record World := mkWorld {
  now : Z;                 (* time.time(), in milliseconds *)
  wins : list Window;      (* top-level windows in Z order, topmost first *)
  foreground : Z;          (* handle of the active window *)
  log : list Call          (* calls issued so far, oldest first *)
}.

Record Monitor := mkMonitor {
  hmon : Z;
  mrect : Rect;            (* lprcMonitor handed to the enumeration callback *)
  mwork : option Rect      (* rcWork of GetMonitorInfoW; None: the call fails *)
}.

(** What the program does not control: the display configuration, the
    file system and process table it queries, and what other processes do
    to the desktop while the program sleeps. *)
Record Env := mkEnv {
  monitors : list Monitor;             (* EnumDisplayMonitors order *)
  spi_workarea : option Rect;          (* SystemParametersInfoW(SPI_GETWORKAREA) *)
  screen_metrics : Z * Z;              (* GetSystemMetrics(0), GetSystemMetrics(1) *)
  nearest : option Rect -> Z;          (* monitor chosen by MONITOR_DEFAULTTONEAREST *)
  abspath : string -> string;          (* os.path.abspath *)
  isfile : string -> bool;             (* os.path.isfile *)
  popen : string -> option Z;          (* pid of the spawned process; None: Popen raises *)
  psutil_ok : Z -> bool;               (* psutil.Process(pid) succeeds *)
  children : Z -> Z -> option (list Z);(* parent.children(recursive=True) at a time; None: raises *)
  evolve : World -> World              (* other processes acting during a sleep *)
}.

Inductive Exn :=
| win32gui_error
| OSError
| NoMonitorsDetected                       (* RuntimeError("No monitors detected.") *)
| MonitorIndexOutOfRange (index found : Z) (* RuntimeError("Monitor index ... out of range ...") *)
| FailedToInspect                          (* RuntimeError("Failed to inspect launched process ...") *)
| NoStableMainWindow.                      (* RuntimeError("Could not find a stable main window ...") *)

Inductive Outcome (A : Type) :=
| Ok (a : A)
| Raise (e : Exn)
| OutOfFuel.
Arguments Ok {A} a.
Arguments Raise {A} e.
Arguments OutOfFuel {A}.

Definition M (A : Type) : Type := World -> Outcome A * World.

Definition ret {A} (a : A) : M A := fun st => (Ok a, st).

Definition bind {A B} (m : M A) (k : A -> M B) : M B :=
  fun st =>
    match m st with
    | (Ok a, st') => k a st'
    | (Raise e, st') => (Raise e, st')
    | (OutOfFuel, st') => (OutOfFuel, st')
    end.

Definition raise {A} (e : Exn) : M A := fun st => (Raise e, st).
Definition out_of_fuel {A} : M A := fun st => (OutOfFuel, st).
Definition get : M World := fun st => (Ok st, st).

Declare Scope m_scope.
Delimit Scope m_scope with m.
Notation "'let*' x ':=' c 'in' k" := (bind c (fun x => k))
  (at level 10, x name, c at level 100, k at level 200) : m_scope.
Notation "'do' c 'then' k" := (bind c (fun _ => k))
  (at level 10, c at level 100, k at level 200) : m_scope.
Local Open Scope m_scope.

(** ** Window-manager calls

    The effect on the desktop of the Win32 calls the program issues is
    the documented one: [SetWindowPos] moves and resizes to the requested
    rectangle, changes the Z order only without [SWP_NOZORDER] and
    activates only without [SWP_NOACTIVATE]; [ShowWindow] with
    [SW_SHOWNORMAL], [SW_RESTORE] or [SW_MAXIMIZE] activates and displays
    the window, restoring it to its normal position or maximizing it on
    the monitor it is on. *)

Definition find_window (h : Z) (ws : list Window) : option Window :=
  List.find (fun w => hwnd w =? h) ws.

Definition update_window (h : Z) (f : Window -> Window) (ws : list Window) : list Window :=
  List.map (fun w => if hwnd w =? h then f w else w) ws.

Definition bring_to_top (h : Z) (ws : list Window) : list Window :=
  List.filter (fun w => hwnd w =? h) ws ++ List.filter (fun w => negb (hwnd w =? h)) ws.

Definition set_wins (ws : list Window) (st : World) : World :=
  mkWorld (now st) ws (foreground st) (log st).

Definition set_foreground (h : Z) (st : World) : World :=
  mkWorld (now st) (wins st) h (log st).

Definition add_log (c : Call) (st : World) : World :=
  mkWorld (now st) (wins st) (foreground st) (log st ++ [c]).

Definition activate (h : Z) (st : World) : World :=
  set_foreground h (set_wins (bring_to_top h (wins st)) st).

Definition flag_set (flags f : Z) : bool := negb (Z.land flags f =? 0).

(** [GetWindowRect] of the window with handle [h], when there is one. *)
Definition rect_of (h : Z) (st : World) : option Rect :=
  match find_window h (wins st) with
  | Some w => wrect w
  | None => None
  end.

(** [rect(hwnd)]: [GetWindowRect], [None] on [win32gui.error]. *)
Definition rect (h : Z) : M (option Rect) :=
  fun st => (Ok (rect_of h st), st).

Definition IsWindow (h : Z) : M bool :=
  fun st => (Ok (match find_window h (wins st) with Some _ => true | None => false end), st).

Definition IsWindowVisible (h : Z) : M bool :=
  fun st => (Ok (match find_window h (wins st) with Some w => visible w | None => false end), st).

(** [GetWindowPlacement(hwnd)[1]]; raises on an invalid handle. *)
Definition GetWindowPlacement_showCmd (h : Z) : M Z :=
  fun st =>
    match find_window h (wins st) with
    | Some w => (Ok (showcmd w), st)
    | None => (Raise win32gui_error, st)
    end.

Section WithEnv.
Variable env : Env.

(** ** Monitor helpers *)

Definition mon_key_le (a b : Monitor) : bool :=
  (left (mrect a) <? left (mrect b)) ||
  ((left (mrect a) =? left (mrect b)) && (top (mrect a) <=? top (mrect b))).

Fixpoint insert_mon (m : Monitor) (l : list Monitor) : list Monitor :=
  match l with
  | [] => [m]
  | y :: r => if mon_key_le m y then m :: y :: r else y :: insert_mon m r
  end.

(** [enum_monitors_sorted]: stable sort on (left, top). *)
Definition enum_monitors_sorted : list Monitor :=
  List.fold_right insert_mon [] (monitors env).

Definition workarea_for_hmon (hm : Z) : Rect :=
  match List.find (fun m => hmon m =? hm) (monitors env) with
  | Some {| mwork := Some rw |} => rw
  | _ =>
      match spi_workarea env with
      | Some r => r
      | None => let '(sw, sh) := screen_metrics env in mkRect 0 0 sw sh
      end
  end.

Definition MonitorFromWindow (h : Z) : M Z :=
  fun st => (Ok (nearest env (rect_of h st)), st).

(** [time.sleep]: the clock advances and the environment acts; it
    touches neither the clock nor the call log.  The clock advances by the
    requested time, the least a real sleep lasts, and the calls between two
    sleeps take no time: elapsed times in this model are lower bounds on
    those of a run. *)
Definition sleep (ms : Z) : M unit :=
  fun st =>
    let st' := evolve env st in
    (Ok tt, mkWorld (now st + ms) (wins st') (foreground st') (log st)).

Definition maximized_rect (r : option Rect) : Rect :=
  workarea_for_hmon (nearest env r).

Definition show_normal (w : Window) : Window :=
  mkWindow (hwnd w) true (styles w)
    (if (showcmd w =? win32con.SW_SHOWMINIMIZED) || (showcmd w =? win32con.SW_SHOWMAXIMIZED)
     then Some (normal_rect w) else wrect w)
    (owner_pid w) (proc_name w) win32con.SW_SHOWNORMAL (normal_rect w).

Definition show_maximized (w : Window) : Window :=
  mkWindow (hwnd w) true (styles w)
    (Some (maximized_rect (wrect w)))
    (owner_pid w) (proc_name w) win32con.SW_SHOWMAXIMIZED
    (if showcmd w =? win32con.SW_SHOWNORMAL
     then match wrect w with Some r => r | None => normal_rect w end
     else normal_rect w).

(** [win32gui.ShowWindow]; never raises. *)
Definition ShowWindow (h cmd : Z) : M unit :=
  fun st =>
    let st := add_log (CShowWindow h cmd) st in
    match find_window h (wins st) with
    | None => (Ok tt, st)
    | Some _ =>
        if (cmd =? win32con.SW_SHOWNORMAL) || (cmd =? win32con.SW_RESTORE) then
          (Ok tt, activate h (set_wins (update_window h show_normal (wins st)) st))
        else if cmd =? win32con.SW_MAXIMIZE then
          (Ok tt, activate h (set_wins (update_window h show_maximized (wins st)) st))
        else (Ok tt, st)
    end.

Definition move_to (x y cx cy : Z) (w : Window) : Window :=
  mkWindow (hwnd w) (visible w) (styles w) (Some (mkRect x y (x + cx) (y + cy)))
    (owner_pid w) (proc_name w) (showcmd w) (normal_rect w).

(** [win32gui.SetWindowPos(hwnd, None, x, y, cx, cy, flags)]; raises on
    an invalid handle. *)
Definition SetWindowPos (h x y cx cy flags : Z) : M unit :=
  fun st =>
    let st := add_log (CSetWindowPos h x y cx cy flags) st in
    match find_window h (wins st) with
    | None => (Raise win32gui_error, st)
    | Some _ =>
        let st := set_wins (update_window h (move_to x y cx cy) (wins st)) st in
        let st := if flag_set flags win32con.SWP_NOZORDER then st
                  else set_wins (bring_to_top h (wins st)) st in
        let st := if flag_set flags win32con.SWP_NOACTIVATE then st
                  else set_foreground h st in
        (Ok tt, st)
    end.

(** ** Window Acquisition Protocol *)

(** Python truthiness of a selected handle: [None] and [0] are falsy. *)
Definition truthy (cand : option Z) : bool :=
  match cand with
  | Some h => negb (h =? 0)
  | None => false
  end.

(** [POLL_INTERVAL = 0.05] as the binary64 value Python uses. *)
Definition POLL_INTERVAL : float := 0x1.999999999999ap-5%float.

(** [stable_needed = STABLE_MS_BEFORE_MOVE / 1000.0]. *)
Definition stable_needed : float :=
  (PrimFloat.of_uint63 (Uint63.of_Z STABLE_MS_BEFORE_MOVE) / 1000)%float.

(** Enough iterations to pass [deadline]: every iteration of the polling
    loops sleeps [POLL_INTERVAL]. *)
Definition polls_until (deadline : Z) (st : World) : nat :=
  S (Z.to_nat ((deadline - now st + POLL_INTERVAL_MS) / POLL_INTERVAL_MS)).

(** The loop of the early-detect branch. *)
Fixpoint early_loop (fuel : nat) (select_fn : World -> option Z) (deadline : Z)
    : M (option Z) :=
  match fuel with
  | O => out_of_fuel
  | S fuel' =>
      let* st := get in
      if now st <? deadline then
        let cand := select_fn st in
        if truthy cand then ret cand
        else
          do sleep POLL_INTERVAL_MS then
          early_loop fuel' select_fn deadline
      else ret None
  end.

(** Local variables of the "stable" wait path. *)
Record AcqState := mkAcq {
  last_rect : option Rect;
  stable_time : float;
  tracked : option Z         (* the local [hwnd] *)
}.

Definition acq_init : AcqState := mkAcq None 0%float None.

(** The [if ... else ...] that updates the locals for a truthy [cand]. *)
Definition stable_update (a : AcqState) (cand : Z) (cur : option Rect) : AcqState :=
  if match last_rect a with None => true | Some _ => false end
     || negb (match tracked a with Some h => cand =? h | None => false end)
     || rect_changed cur (last_rect a)
  then mkAcq cur 0%float (Some cand)
  else mkAcq (last_rect a) (stable_time a + POLL_INTERVAL)%float (tracked a).

Definition is_stable (a : AcqState) : bool :=
  PrimFloat.leb stable_needed (stable_time a).

(** The loop of the "stable" wait path. *)
Fixpoint stable_loop (fuel : nat) (select_fn : World -> option Z) (deadline : Z)
    (a : AcqState) : M (option Z) :=
  match fuel with
  | O => out_of_fuel
  | S fuel' =>
      let* st := get in
      if now st <? deadline then
        let cand := select_fn st in
        if negb (truthy cand) then
          do sleep POLL_INTERVAL_MS then
          stable_loop fuel' select_fn deadline a
        else
          let c := match cand with Some c => c | None => 0 end in
          let* cur := rect c in
          let a' := stable_update a c cur in
          if is_stable a' then ret (tracked a')
          else
            do sleep POLL_INTERVAL_MS then
            stable_loop fuel' select_fn deadline a'
      else ret None
  end.

(** [wait_for_stable_window(select_fn, timeout)], with the module
    constant [EARLY_MOVE_ON_DETECT] as the parameter [early]. *)
Definition wait_for_stable_window (early : bool) (select_fn : World -> option Z)
    (timeout : Z) : M (option Z) :=
  let* st := get in
  let deadline := now st + timeout * 1000 in
  if early then early_loop (polls_until deadline st) select_fn deadline
  else stable_loop (polls_until deadline st) select_fn deadline acq_init.

(** The polls of the "stable" wait path as a trajectory: the world one
    poll interval later, the locals after the poll made in a world, and the
    locals and world of the [k]-th poll after a given one. *)
Definition tick (st : World) : World := snd (sleep POLL_INTERVAL_MS st).

Definition observe (select_fn : World -> option Z) (a : AcqState) (st : World) : AcqState :=
  match select_fn st with
  | Some c => if c =? 0 then a else stable_update a c (rect_of c st)
  | None => a
  end.

Fixpoint poll_from (select_fn : World -> option Z) (k : nat) (a : AcqState) (st : World)
    : AcqState * World :=
  match k with
  | O => (observe select_fn a st, st)
  | S k' => poll_from select_fn k' (observe select_fn a st) (tick st)
  end.

(** The [k]-th poll happens before the deadline, selects a window and
    leaves the counter at or above the threshold. *)
Definition reaches_threshold (select_fn : World -> option Z) (deadline : Z)
    (a : AcqState) (st : World) (k : nat) : Prop :=
  now (snd (poll_from select_fn k a st)) < deadline /\
  truthy (select_fn (snd (poll_from select_fn k a st))) = true /\
  is_stable (fst (poll_from select_fn k a st)) = true.

(** ** Placement Engine *)

Definition SWP_FLAGS : Z :=
  Z.lor win32con.SWP_NOZORDER (Z.lor win32con.SWP_NOACTIVATE win32con.SWP_FRAMECHANGED).

(** The park rectangle [(park_x, park_y, park_w, park_h)] of
    [move_and_set], as left/top/right/bottom. *)
Definition park_w (wa : Rect) : Z := Z.min 1200 (Z.max 800 (width wa - 200)).
Definition park_h (wa : Rect) : Z := Z.min 900 (Z.max 600 (height wa - 200)).
Definition park_x (wa : Rect) : Z := left wa + Z.max 20 ((width wa - park_w wa) / 2).
Definition park_y (wa : Rect) : Z := top wa + Z.max 20 ((height wa - park_h wa) / 3).

Definition park_rect (wa : Rect) : Rect :=
  mkRect (park_x wa) (park_y wa) (park_x wa + park_w wa) (park_y wa + park_h wa).

Definition move_and_set (h hm : Z) (mode : string) : M unit :=
  let* placement := GetWindowPlacement_showCmd h in
  let was_maximized := placement =? win32con.SW_SHOWMAXIMIZED in
  do (if was_maximized
      then (do ShowWindow h win32con.SW_RESTORE then sleep 50)
      else ShowWindow h win32con.SW_SHOWNORMAL) then
  let wa := workarea_for_hmon hm in
  let wa_w := width wa in
  let wa_h := height wa in
  if String.eqb mode "normal" then
    let* cur := rect h in
    let '(cur_w, cur_h) :=
      match cur with
      | None => (1000, 700)
      | Some c => (Z.max 300 (Z.min (right c - left c) (wa_w - 40)),
                   Z.max 200 (Z.min (bottom c - top c) (wa_h - 40)))
      end in
    let target_x := left wa + 20 in
    let target_y := top wa + 20 in
    SetWindowPos h target_x target_y cur_w cur_h SWP_FLAGS
  else
    do SetWindowPos h (park_x wa) (park_y wa) (park_w wa) (park_h wa) SWP_FLAGS then
    do sleep 20 then
    if String.eqb mode "maximize" then ShowWindow h win32con.SW_MAXIMIZE
    else SetWindowPos h (left wa) (top wa) wa_w wa_h SWP_FLAGS.

(** ** Drift Watchdog *)

(** One iteration of the loop of [ensure_on_target], up to the sleep:
    [None] when the function returns (window gone or hidden), else the
    new value of [last]. *)
Definition watch_poll (h hmon_target : Z) (mode : string) (last : option Rect)
    : M (option (option Rect)) :=
  let* ok := IsWindow h in
  let* vis := IsWindowVisible h in
  if negb (negb (h =? 0) && ok && vis) then ret None
  else
    let* cur_hmon := MonitorFromWindow h in
    let* cur_rect := rect h in
    if negb (cur_hmon =? hmon_target) || rect_changed cur_rect last then
      do move_and_set h hmon_target mode then
      let* cur_rect := rect h in
      ret (Some cur_rect)
    else ret (Some cur_rect).

Fixpoint watch_loop (fuel : nat) (h hmon_target : Z) (mode : string) (until : Z)
    (last : option Rect) : M unit :=
  match fuel with
  | O => out_of_fuel
  | S fuel' =>
      let* st := get in
      if now st <? until then
        let* r := watch_poll h hmon_target mode last in
        match r with
        | None => ret tt
        | Some last' =>
            do sleep POLL_INTERVAL_MS then
            watch_loop fuel' h hmon_target mode until last'
        end
      else ret tt
  end.

Definition ensure_on_target (h hmon_target : Z) (mode : string) (seconds : Z) : M unit :=
  let* st := get in
  let until := now st + Z.max 0 seconds * 1000 in
  let* last := rect h in
  watch_loop (polls_until until st) h hmon_target mode until last.

(** ** Headless core *)

(** [set(out)] of the visible top-level windows. *)
Definition list_top_windows : M (gset Z) :=
  fun st => (Ok (list_to_set (List.map hwnd (List.filter visible (wins st)))), st).

Definition is_sep (c : ascii) : bool :=
  Ascii.eqb c "/"%char || Ascii.eqb c "\"%char.

Fixpoint basename_from (s acc : string) : string :=
  match s with
  | EmptyString => acc
  | String c s' =>
      if is_sep c then basename_from s' EmptyString
      else basename_from s' (acc ++ String c EmptyString)%string
  end.

(** [ntpath.splitdrive(p)[1]] for a drive letter: a path whose second
    character is a colon loses its first two characters.  The other drive
    form, the [\\host\share] of a UNC path, is not split off: in a path that
    names a file it is followed by a separator, so it does not change the
    base name. *)
Definition strip_drive (s : string) : string :=
  match s with
  | String _ (String ":"%char rest) => rest
  | _ => s
  end.

(** [os.path.basename]: what follows the last separator of the path
    without its drive letter. *)
Definition basename (s : string) : string := basename_from (strip_drive s) EmptyString.

(** The child discovery loop [for _ in range(15)]. *)
Fixpoint discover_children (n : nat) (parent : Z) (pid_set : gset Z) : M (gset Z) :=
  match n with
  | O => ret pid_set
  | S n' =>
      let* st := get in
      let pid_set :=
        match children env parent (now st) with
        | Some cs => pid_set ∪ list_to_set cs
        | None => pid_set
        end in
      do sleep 50 then
      discover_children n' parent pid_set
  end.

(** What [run_headless] holds when acquisition starts. *)
Record Launched := mkLaunched {
  hmon_target : Z;
  before : gset Z;
  pid_set : gset Z;
  exe_base : string
}.

(** [run_headless] up to and including child discovery. *)
Definition launch (exe_path : string) (monitor_index : Z) : M Launched :=
  let mons := enum_monitors_sorted in
  match mons with
  | [] => raise NoMonitorsDetected
  | _ :: _ =>
      if (monitor_index <? 0) || (Z.of_nat (length mons) <=? monitor_index) then
        raise (MonitorIndexOutOfRange monitor_index (Z.of_nat (length mons)))
      else
        let hmon_target :=
          match nth_error mons (Z.to_nat monitor_index) with
          | Some m => hmon m
          | None => 0
          end in
        let* before := list_top_windows in
        let* proc_pid :=
          (fun st =>
             let st := add_log (CPopen exe_path) st in
             match popen env exe_path with
             | Some pid => (Ok pid, st)
             | None => (Raise OSError, st)
             end) in
        if negb (psutil_ok env proc_pid) then raise FailedToInspect
        else
          let exe_base := lower (basename exe_path) in
          let* pid_set := discover_children 15 proc_pid {[ proc_pid ]} in
          ret (mkLaunched hmon_target before pid_set exe_base)
  end.

(** The closures [select] and [select_new_only]. *)
Definition select (l : Launched) : World -> option Z :=
  fun st => pick_best_window_by (Some (pid_set l)) (Some (exe_base l)) (Some (before l)) (wins st).

Definition select_new_only (l : Launched) : World -> option Z :=
  fun st => pick_best_window_by None None (Some (before l)) (wins st).

(** [run_headless] from the first acquisition attempt on. *)
Definition acquire (early : bool) (l : Launched) : M Z :=
  let* h := wait_for_stable_window early (select l) WAIT_TIMEOUT_SEC in
  let* h := (if negb (truthy h)
             then wait_for_stable_window early (select_new_only l) 10
             else ret h) in
  if negb (truthy h) then raise NoStableMainWindow
  else ret (match h with Some h => h | None => 0 end).

(** [run_headless(exe_path, monitor_index, mode, observe_seconds)], with
    the module constant [EARLY_MOVE_ON_DETECT] as the parameter [early]. *)
Definition run_headless (early : bool) (exe_path : string) (monitor_index : Z)
    (mode : string) (observe_seconds : Z) : M unit :=
  let* l := launch exe_path monitor_index in
  let* h := acquire early l in
  do move_and_set h (hmon_target l) mode then
  ensure_on_target h (hmon_target l) mode observe_seconds.

(** ** Command line *)

Record Args := mkArgs {
  arg_exe : option string;
  arg_monitor : option Z;
  arg_mode : string;
  arg_observe : Z
}.

(** What [parse_args()] does with the command line.  [argparse] ends the
    program by itself when it prints the help (code 0) or rejects an
    argument (code 2: an unknown option, a [--monitor] or [--observe] that is
    not an integer, a [--mode] outside the three choices); otherwise it hands
    over the parsed arguments. *)
Inductive Parsed :=
| ArgparseExit (code : Z)
| ParsedArgs (args : Args).

Inductive Exit :=
| ExitCode (n : Z)       (* sys.exit(n) *)
| RunGui                 (* sys.exit(app.exec()): the code is the Qt event loop's *)
| NoExit.                (* the model ran out of fuel *)

(** [main()], from the outcome of its first statement [args = parse_args()]. *)
Definition main (parsed : Parsed) (st : World) : Exit * World :=
  match parsed with
  | ArgparseExit code => (ExitCode code, st)
  | ParsedArgs args =>
      if str_truthy (arg_exe args) then
        let exe := abspath env (match arg_exe args with Some e => e | None => EmptyString end) in
        if negb (isfile env exe) then (ExitCode 2, st)
        else
          match arg_monitor args with
          | None => (ExitCode 2, st)
          | Some monitor =>
              match run_headless EARLY_MOVE_ON_DETECT exe monitor
                      (arg_mode args) (arg_observe args) st with
              | (Ok _, st') => (ExitCode 0, st')
              | (Raise _, st') => (ExitCode 1, st')
              | (OutOfFuel, st') => (NoExit, st')
              end
          end
      else (RunGui, st)
  end.

End WithEnv.

(** ** Concrete displays and desktops used in the examples *)

Definition mon0 : Monitor := mkMonitor 10 (mkRect 0 0 1920 1080) (Some (mkRect 0 0 1920 1040)).
Definition mon1 : Monitor := mkMonitor 11 (mkRect 1920 0 3840 1080) (Some (mkRect 1920 0 3840 1040)).

(** The monitor whose rectangle holds the centre of the window; the first
    monitor when there is none. *)
Definition nearest_by_centre (mons : list Monitor) (r : option Rect) : Z :=
  match r with
  | None => match mons with m :: _ => hmon m | [] => 0 end
  | Some r =>
      let cx := (left r + right r) / 2 in
      let cy := (top r + bottom r) / 2 in
      match List.find (fun m => (left (mrect m) <=? cx) && (cx <? right (mrect m)) &&
                                (top (mrect m) <=? cy) && (cy <? bottom (mrect m))) mons with
      | Some m => hmon m
      | None => match mons with m :: _ => hmon m | [] => 0 end
      end
  end.

(** Two monitors side by side; nothing else happens on the desktop. *)
Definition quiet_env : Env :=
  mkEnv [mon0; mon1] None (1920, 1080) (nearest_by_centre [mon0; mon1])
    (fun p => p) (fun _ => true) (fun _ => Some 4242) (fun _ => true)
    (fun _ _ => Some []) (fun st => st).

Definition main_style : Z := WS_OVERLAPPEDWINDOW.

Definition explorer : Window :=
  mkWindow 100 true (Some (main_style, 0)) (Some (mkRect 0 0 1000 700))
    (Some 900) (Some "explorer.exe"%string) 1 (mkRect 0 0 1000 700).

Definition notepad : Window :=
  mkWindow 200 true (Some (main_style, 0)) (Some (mkRect 100 100 900 700))
    (Some 4242) (Some "Notepad.exe"%string) 1 (mkRect 100 100 900 700).

Definition desk0 : World := mkWorld 0 [explorer; notepad] 100 [].

(** * Properties *)

(** ** Style filter *)

Lemma lor_zero_iff (a b : Z) : Z.lor a b = 0 <-> a = 0 /\ b = 0.
Proof. apply Z.lor_eq_0_iff. Qed.

Lemma land_mask_zero (style : Z) :
  Z.land style WS_OVERLAPPEDWINDOW = 0 <->
  Z.land style win32con.WS_CAPTION = 0 /\
  Z.land style win32con.WS_SYSMENU = 0 /\
  Z.land style win32con.WS_THICKFRAME = 0 /\
  Z.land style win32con.WS_MINIMIZEBOX = 0 /\
  Z.land style win32con.WS_MAXIMIZEBOX = 0.
Proof.
  unfold WS_OVERLAPPEDWINDOW.
  replace win32con.WS_OVERLAPPED with 0 by reflexivity.
  rewrite Z.lor_0_l.
  rewrite !Z.land_lor_distr_r, !lor_zero_iff. tauto.
Qed.

(** A window whose only style bit is the system menu. *)
Definition sysmenu_only : Window :=
  mkWindow 300 true (Some (win32con.WS_SYSMENU, 0)) (Some (mkRect 0 0 640 480))
    (Some 77) (Some "tool.exe"%string) 1 (mkRect 0 0 640 480).

(** C2, as stated, fails: a window that has the system-menu bit and none
    of the caption, thick-frame, minimize-box and maximize-box bits passes
    the style filter. *)
Lemma is_main_style_all_bits_cex :
  ~ (forall w, is_main_style w = true ->
       exists style ex, styles w = Some (style, ex) /\
         Z.land style WS_OVERLAPPEDWINDOW = WS_OVERLAPPEDWINDOW /\
         Z.land ex win32con.WS_EX_TOOLWINDOW = 0).
Proof.
  intros H. destruct (H sysmenu_only) as (style & ex & Hs & Hall & _).
  - reflexivity.
  - inversion Hs; subst. vm_compute in Hall. discriminate.
Qed.

(** C2 (amended): a window passes the style filter exactly when its style
    words can be read, its style word has at least one of the caption,
    system-menu, thick-frame, minimize-box and maximize-box bits (the
    overlapped style is the zero word), and its extended style word does not
    contain the tool-window bit. *)
Theorem is_main_style_any_bit (w : Window) :
  is_main_style w = true <->
  exists style ex, styles w = Some (style, ex) /\
    (Z.land style win32con.WS_CAPTION <> 0 \/
     Z.land style win32con.WS_SYSMENU <> 0 \/
     Z.land style win32con.WS_THICKFRAME <> 0 \/
     Z.land style win32con.WS_MINIMIZEBOX <> 0 \/
     Z.land style win32con.WS_MAXIMIZEBOX <> 0) /\
    Z.land ex win32con.WS_EX_TOOLWINDOW = 0.
Proof.
  unfold is_main_style. destruct (styles w) as [[style ex]|].
  - rewrite andb_true_iff, !negb_true_iff, negb_false_iff, Z.eqb_neq, Z.eqb_eq.
    rewrite land_mask_zero. split.
    + intros [Hany Htool]. exists style, ex. split; [reflexivity|]. split; [lia|exact Htool].
    + intros (s & e & Heq & Hany & Htool). inversion Heq; subst. split; [lia|exact Htool].
  - split; [discriminate|]. intros (s & e & Heq & _). discriminate.
Qed.

(** ** Park rectangle *)

(** The park rectangle does not lie inside every work area: on an
    800 x 600 work area it is 800 x 600 at an inset of 20 and sticks out on
    the right and bottom. *)
Lemma park_rect_inside_cex :
  ~ (forall wa, inside (park_rect wa) wa).
Proof.
  intros H. specialize (H (mkRect 0 0 800 600)).
  unfold inside in H. vm_compute in H. destruct H as (_ & _ & H & _). apply H. reflexivity.
Qed.

(** The park rectangle is 800 to 1200 wide and 600 to 900 high for every
    work area, and it lies inside the work area exactly when the work area
    is at least 820 wide and 620 high. *)
Lemma park_rect_bounds (wa : Rect) :
  800 <= width (park_rect wa) <= 1200 /\
  600 <= height (park_rect wa) <= 900 /\
  (inside (park_rect wa) wa <-> 820 <= width wa /\ 620 <= height wa).
Proof.
  unfold inside, park_rect, park_x, park_y, park_w, park_h, width, height; simpl.
  destruct wa as [l t r b]; simpl.
  pose proof (Z.div_mod (r - l - Z.min 1200 (Z.max 800 (r - l - 200))) 2 ltac:(lia)).
  pose proof (Z.mod_pos_bound (r - l - Z.min 1200 (Z.max 800 (r - l - 200))) 2 ltac:(lia)).
  pose proof (Z.div_mod (b - t - Z.min 900 (Z.max 600 (b - t - 200))) 3 ltac:(lia)).
  pose proof (Z.mod_pos_bound (b - t - Z.min 900 (Z.max 600 (b - t - 200))) 3 ltac:(lia)).
  lia.
Qed.

(** ** Candidate scanner *)

Section Scanner.
Variables (pid_set since_handles : option (gset Z)).

(** No candidate orders strictly above [c]. *)
Definition is_best (c : Candidate) (l : list Candidate) : Prop :=
  forall c', In c' l -> key_lt c c' = false.

Lemma key_lt_asym (a b : Candidate) : key_lt a b = true -> key_lt b a = false.
Proof.
  unfold key_lt. rewrite orb_true_iff, orb_false_iff, !andb_true_iff, andb_false_iff.
  rewrite !Z.ltb_lt, !Z.ltb_ge, !Z.eqb_eq, Z.eqb_neq. lia.
Qed.

Lemma key_ge_trans (a b c : Candidate) :
  key_lt a b = false -> key_lt b c = false -> key_lt a c = false.
Proof.
  unfold key_lt. rewrite !orb_false_iff, !andb_false_iff.
  rewrite !Z.ltb_ge, !Z.eqb_neq. lia.
Qed.

Lemma key_lt_irrefl (a : Candidate) : key_lt a a = false.
Proof.
  unfold key_lt. rewrite orb_false_iff, andb_false_iff, !Z.ltb_ge. lia.
Qed.

Lemma insert_desc_In (x c : Candidate) (l : list Candidate) :
  In c (insert_desc x l) <-> c = x \/ In c l.
Proof.
  induction l as [|y r IH]; simpl.
  - intuition congruence.
  - destruct (key_lt x y); simpl; rewrite ?IH; intuition congruence.
Qed.

Lemma sort_desc_In (c : Candidate) (l : list Candidate) :
  In c (sort_desc l) <-> In c l.
Proof.
  induction l as [|x r IH]; simpl; [tauto|].
  rewrite insert_desc_In, IH. intuition congruence.
Qed.

Lemma sort_desc_nil (l : list Candidate) : sort_desc l = [] -> l = [].
Proof.
  destruct l as [|x r]; [reflexivity|]. intros H.
  assert (In x (sort_desc (x :: r))) by (apply sort_desc_In; left; reflexivity).
  rewrite H in *. contradiction.
Qed.

(** The head of the sorted list is a best candidate. *)
Lemma sort_desc_head (l : list Candidate) (c : Candidate) (r : list Candidate) :
  sort_desc l = c :: r -> In c l /\ is_best c l.
Proof.
  revert c r. induction l as [|x l' IH]; intros c r; simpl; [discriminate|].
  destruct (sort_desc l') as [|y r'] eqn:Hs.
  - apply sort_desc_nil in Hs. subst l'. simpl. intros H; inversion H; subst.
    split; [left; reflexivity|]. intros c' [<-|[]]. apply key_lt_irrefl.
  - destruct (IH y r' eq_refl) as [Hin Hbest]. simpl.
    destruct (key_lt x y) eqn:Hxy; intros H; inversion H; subst.
    + split; [right; exact Hin|]. intros c' [<-|Hc'].
      * now apply key_lt_asym.
      * now apply Hbest.
    + split; [left; reflexivity|]. intros c' [<-|Hc'].
      * apply key_lt_irrefl.
      * eapply key_ge_trans; [exact Hxy|]. now apply Hbest.
Qed.

Lemma candidates_In (exe : option string) (c : Candidate) (ws : list Window) :
  In c (candidates pid_set exe since_handles ws) <->
  exists w, In w ws /\ passes_filters w = true /\
            0 < score pid_set exe since_handles w /\
            c = (score pid_set exe since_handles w, area w, hwnd w).
Proof.
  induction ws as [|w ws IH]; simpl.
  - split; [contradiction|]. intros (w & [] & _).
  - destruct (passes_filters w) eqn:Hp.
    + destruct (0 <? score pid_set exe since_handles w) eqn:Hs.
      * simpl. rewrite IH. apply Z.ltb_lt in Hs. split.
        -- intros [<-|(w' & Hin & H)]; [exists w; auto|exists w'; tauto].
        -- intros (w' & [<-|Hin] & Hp' & Hs' & ->); [left; reflexivity|].
           right. exists w'. auto.
      * rewrite IH. apply Z.ltb_ge in Hs. split.
        -- intros (w' & Hin & H). exists w'. tauto.
        -- intros (w' & [<-|Hin] & Hp' & Hs' & ->); [lia|]. exists w'. auto.
    + rewrite IH. split.
      * intros (w' & Hin & H). exists w'. tauto.
      * intros (w' & [<-|Hin] & Hp' & Hs' & ->); [congruence|]. exists w'. auto.
Qed.
End Scanner.

(** The three signals, as the scanner evaluates them. *)
Definition owned (pid_set : option (gset Z)) (w : Window) : Prop :=
  exists s p, pid_set = Some s /\ owner_pid w = Some p /\ p ∈ s.

Definition name_matches (exe_base : option string) (w : Window) : Prop :=
  exists e, exe_base = Some e /\ e <> EmptyString /\ hwnd_exe_name w = e.

Definition novel (since_handles : option (gset Z)) (w : Window) : Prop :=
  exists s, since_handles = Some s /\ s ≠ ∅ /\ hwnd w ∉ s.

(** The score in the words of the specification: novelty is credited to
    every handle absent from the snapshot. *)
Definition spec_novel (since_handles : option (gset Z)) (w : Window) : Prop :=
  exists s, since_handles = Some s /\ hwnd w ∉ s.

Lemma owned_reflect (ps : option (gset Z)) (w : Window) :
  set_truthy ps && pid_in (hwnd_pid w) ps = true <-> owned ps w.
Proof.
  unfold owned, set_truthy, pid_in, hwnd_pid. split.
  - destruct ps as [s|]; [|discriminate]. destruct (owner_pid w) as [p|].
    + rewrite andb_true_iff, !bool_decide_eq_true. intros [_ H]. eauto.
    + rewrite andb_false_r. discriminate.
  - intros (s & p & -> & -> & Hin). rewrite andb_true_iff, !bool_decide_eq_true.
    split; [|exact Hin]. intros ->. now apply not_elem_of_empty in Hin.
Qed.

Lemma name_matches_reflect (eb : option string) (w : Window) :
  str_truthy eb && name_is (hwnd_exe_name w) eb = true <-> name_matches eb w.
Proof.
  unfold name_matches, str_truthy, name_is. split.
  - destruct eb as [e|]; [|discriminate].
    rewrite andb_true_iff, negb_true_iff, String.eqb_neq, String.eqb_eq.
    intros [Hne Heq]. eauto.
  - intros (e & -> & Hne & Heq).
    rewrite andb_true_iff, negb_true_iff, String.eqb_neq, String.eqb_eq. auto.
Qed.

Lemma novel_reflect (sh : option (gset Z)) (w : Window) :
  set_truthy sh && negb (hwnd_in (hwnd w) sh) = true <-> novel sh w.
Proof.
  unfold novel, set_truthy, hwnd_in. split.
  - destruct sh as [s|]; [|discriminate].
    rewrite andb_true_iff, negb_true_iff, bool_decide_eq_true, bool_decide_eq_false.
    intros [Hne Hnot]. eauto.
  - intros (s & -> & Hne & Hnot).
    rewrite andb_true_iff, negb_true_iff, bool_decide_eq_true, bool_decide_eq_false. auto.
Qed.

Lemma score_nonneg ps eb sh w : 0 <= score ps eb sh w.
Proof.
  unfold score.
  destruct (set_truthy ps && _), (str_truthy eb && _), (set_truthy sh && _); lia.
Qed.

(** With the expected name lower-cased, as [run_headless] passes it, the
    name signal is equality up to letter case. *)
Lemma name_matches_lowered (w : Window) (p : Z) (n e : string) :
  owner_pid w = Some p -> p <> 0 -> proc_name w = Some n -> lower e <> EmptyString ->
  (name_matches (Some (lower e)) w <-> lower n = lower e).
Proof.
  intros Hp Hp0 Hn He. unfold name_matches, hwnd_exe_name, hwnd_pid.
  rewrite Hp, Hn. apply Z.eqb_neq in Hp0. rewrite Hp0. split.
  - intros (e' & Heq & _ & Hname). congruence.
  - intros Heq. exists (lower e). auto.
Qed.

(** A lone, genuine main window on a desktop that had no visible window
    when the snapshot was taken. *)
Definition lone_window : Window :=
  mkWindow 500 true (Some (WS_OVERLAPPEDWINDOW, 0)) (Some (mkRect 0 0 1024 768))
    (Some 4242) (Some "app.exe"%string) 1 (mkRect 0 0 1024 768).

(** C1, as stated, fails: with an empty pre-launch snapshot a filtered
    window whose handle is absent from the snapshot is not credited the
    novelty score, so the scan returns none although the candidate scores
    200 by the stated rule. *)
Lemma pick_best_empty_snapshot_cex :
  ~ (forall since_handles ws w,
       In w ws -> passes_filters w = true -> spec_novel since_handles w ->
       pick_best_window_by None None since_handles ws <> None).
Proof.
  intros H. apply (H (Some ∅) [lone_window] lone_window).
  - left. reflexivity.
  - reflexivity.
  - exists ∅. split; [reflexivity|]. apply not_elem_of_empty.
  - reflexivity.
Qed.

Lemma score_signals (pid_set : option (gset Z)) (exe_base : option string)
    (since_handles : option (gset Z)) (w : Window) :
  exists b1 b2 b3 : bool,
    (b1 = true <-> owned pid_set w) /\
    (b2 = true <-> name_matches exe_base w) /\
    (b3 = true <-> novel since_handles w) /\
    score pid_set exe_base since_handles w =
      (if b1 then 1000 else 0) + (if b2 then 500 else 0) + (if b3 then 200 else 0).
Proof.
  exists (set_truthy pid_set && pid_in (hwnd_pid w) pid_set),
         (str_truthy exe_base && name_is (hwnd_exe_name w) exe_base),
         (set_truthy since_handles && negb (hwnd_in (hwnd w) since_handles)).
  rewrite owned_reflect, name_matches_reflect, novel_reflect.
  repeat split; try tauto.
  unfold score.
  destruct (set_truthy pid_set && _), (str_truthy exe_base && _),
    (set_truthy since_handles && _); reflexivity.
Qed.

Lemma pick_best_none (pid_set : option (gset Z)) (exe_base : option string)
    (since_handles : option (gset Z)) (ws : list Window) :
  pick_best_window_by pid_set exe_base since_handles ws = None <->
  forall w, In w ws -> passes_filters w = true ->
            score pid_set exe_base since_handles w = 0.
Proof.
  unfold pick_best_window_by.
  destruct (sort_desc (candidates pid_set exe_base since_handles ws)) as [|c r] eqn:Hs.
  - split; [|reflexivity]. intros _ w Hin Hp.
    apply sort_desc_nil in Hs.
    pose proof (score_nonneg pid_set exe_base since_handles w) as Hge.
    destruct (Z.eq_dec (score pid_set exe_base since_handles w) 0) as [|Hne]; [assumption|].
    assert (Hc : In (score pid_set exe_base since_handles w, area w, hwnd w)
                    (candidates pid_set exe_base since_handles ws)).
    { apply candidates_In. exists w. repeat split; auto. lia. }
    rewrite Hs in Hc. contradiction.
  - split; [discriminate|]. intros Hall. exfalso.
    apply sort_desc_head in Hs. destruct Hs as [Hin _].
    apply candidates_In in Hin. destruct Hin as (w & Hin & Hp & Hpos & _).
    specialize (Hall w Hin Hp). lia.
Qed.

Lemma pick_best_some (pid_set : option (gset Z)) (exe_base : option string)
    (since_handles : option (gset Z)) (ws : list Window) (h : Z) :
  pick_best_window_by pid_set exe_base since_handles ws = Some h ->
  exists w, In w ws /\ hwnd w = h /\ passes_filters w = true /\
    0 < score pid_set exe_base since_handles w /\
    forall w', In w' ws -> passes_filters w' = true ->
      0 < score pid_set exe_base since_handles w' ->
      score pid_set exe_base since_handles w' < score pid_set exe_base since_handles w \/
      (score pid_set exe_base since_handles w' = score pid_set exe_base since_handles w /\
       area w' <= area w).
Proof.
  unfold pick_best_window_by.
  destruct (sort_desc (candidates pid_set exe_base since_handles ws)) as [|c r] eqn:Hs;
    [discriminate|].
  intros Heq. inversion Heq; subst h. clear Heq.
  apply sort_desc_head in Hs. destruct Hs as [Hin Hbest].
  apply candidates_In in Hin. destruct Hin as (w & Hin & Hp & Hpos & ->).
  exists w. repeat split; auto.
  intros w' Hin' Hp' Hpos'.
  specialize (Hbest (score pid_set exe_base since_handles w', area w', hwnd w')).
  assert (Hc : In (score pid_set exe_base since_handles w', area w', hwnd w')
                  (candidates pid_set exe_base since_handles ws)).
  { apply candidates_In. exists w'. auto. }
  specialize (Hbest Hc). unfold key_lt, cscore, carea in Hbest. simpl in Hbest.
  rewrite orb_false_iff, andb_false_iff, !Z.ltb_ge, Z.eqb_neq in Hbest. lia.
Qed.

(** C1 (amended): the score of a window is +1000 if its owning process ID
    is in the owned-process-ID set, +500 if the expected name is non-empty
    and equals the lower-cased executable name of the owning process, and
    +200 if the pre-launch snapshot is non-empty and does not contain its
    handle; the scan returns none exactly when no filtered window scores
    above zero, and otherwise returns a filtered window of positive score
    that no other one beats on score, nor on area at equal score. *)
Theorem pick_best_window_by_spec (pid_set : option (gset Z)) (exe_base : option string)
    (since_handles : option (gset Z)) (ws : list Window) :
  (forall w, exists b1 b2 b3 : bool,
      (b1 = true <-> owned pid_set w) /\
      (b2 = true <-> name_matches exe_base w) /\
      (b3 = true <-> novel since_handles w) /\
      score pid_set exe_base since_handles w =
        (if b1 then 1000 else 0) + (if b2 then 500 else 0) + (if b3 then 200 else 0)) /\
  (pick_best_window_by pid_set exe_base since_handles ws = None <->
     forall w, In w ws -> passes_filters w = true ->
               score pid_set exe_base since_handles w = 0) /\
  (forall h, pick_best_window_by pid_set exe_base since_handles ws = Some h ->
     exists w, In w ws /\ hwnd w = h /\ passes_filters w = true /\
       0 < score pid_set exe_base since_handles w /\
       forall w', In w' ws -> passes_filters w' = true ->
         0 < score pid_set exe_base since_handles w' ->
         score pid_set exe_base since_handles w' < score pid_set exe_base since_handles w \/
         (score pid_set exe_base since_handles w' = score pid_set exe_base since_handles w /\
          area w' <= area w)).
Proof.
  split; [|split].
  - intros w. apply score_signals.
  - apply pick_best_none.
  - intros h. apply pick_best_some.
Qed.

(** ** Polling loops *)

Ltac munfold :=
  unfold bind, ret, get, raise, out_of_fuel, sleep, rect in *; simpl in *.

(** Iterations left before [deadline], at one sleep of [POLL_INTERVAL]
    each. *)
Definition polls_left (deadline : Z) (st : World) : nat :=
  Z.to_nat ((deadline - now st + POLL_INTERVAL_MS) / POLL_INTERVAL_MS).

Lemma polls_left_sleep (deadline : Z) (st st' : World) :
  now st < deadline -> now st' = now st + POLL_INTERVAL_MS ->
  polls_left deadline st = S (polls_left deadline st').
Proof.
  unfold polls_left, POLL_INTERVAL_MS. intros Hlt ->.
  replace (deadline - now st + 50) with ((deadline - (now st + 50) + 50) + 1 * 50) by lia.
  rewrite Z.div_add by lia.
  assert (0 <= (deadline - (now st + 50) + 50) / 50) by (apply Z.div_pos; lia).
  lia.
Qed.

Lemma polls_left_later (deadline : Z) (st st' : World) :
  now st <= now st' -> (polls_left deadline st' <= polls_left deadline st)%nat.
Proof.
  unfold polls_left, POLL_INTERVAL_MS. intros H.
  assert ((deadline - now st' + 50) / 50 <= (deadline - now st + 50) / 50)
    by (apply Z.div_le_mono; lia).
  lia.
Qed.

Section Loops.
Variable env : Env.
Variable select_fn : World -> option Z.
Variable deadline : Z.

(** The early-detect loop returns: a handle only before the deadline, and
    it is the handle selected at that poll; none only once the deadline
    has passed. *)
Lemma early_loop_spec (fuel : nat) (st : World) :
  (polls_left deadline st < fuel)%nat ->
  exists r st', early_loop env fuel select_fn deadline st = (Ok r, st') /\
    log st' = log st /\ now st <= now st' /\
    match r with
    | None => deadline <= now st'
    | Some h => now st' < deadline /\ select_fn st' = Some h /\ h <> 0
    end.
Proof.
  revert st. induction fuel as [|fuel IH]; intros st Hfuel; [lia|].
  simpl. munfold.
  destruct (now st <? deadline) eqn:Hnow.
  - apply Z.ltb_lt in Hnow.
    destruct (truthy (select_fn st)) eqn:Ht.
    + exists (select_fn st), st. repeat split; try lia.
      unfold truthy in Ht. destruct (select_fn st) as [h|]; [|discriminate].
      apply negb_true_iff, Z.eqb_neq in Ht. auto.
    + set (st1 := mkWorld (now st + POLL_INTERVAL_MS) (wins (evolve env st))
                    (foreground (evolve env st)) (log st)).
      destruct (IH st1) as (r & st' & Heq & Hlog & Hle & Hr).
      { pose proof (polls_left_sleep deadline st st1 Hnow eq_refl). lia. }
      exists r, st'. rewrite Heq. repeat split; auto.
      simpl in Hle. unfold POLL_INTERVAL_MS in Hle. lia.
  - apply Z.ltb_ge in Hnow. exists None, st. repeat split; auto; lia.
Qed.

Lemma stable_update_tracked (a : AcqState) (cand : Z) (cur : option Rect) :
  is_stable (stable_update a cand cur) = true ->
  tracked (stable_update a cand cur) = Some cand.
Proof.
  unfold stable_update.
  destruct (last_rect a) as [lr|]; simpl; [|intros H; vm_compute in H; discriminate].
  destruct (tracked a) as [h|] eqn:Htr; simpl; [|intros H; vm_compute in H; discriminate].
  destruct (cand =? h) eqn:Hc; simpl; [|intros H; vm_compute in H; discriminate].
  destruct (rect_changed cur (Some lr)); simpl; [intros H; vm_compute in H; discriminate|].
  intros _. apply Z.eqb_eq in Hc. congruence.
Qed.

(** The stability loop returns: a handle only before the deadline, and it
    is the handle selected at that poll; none only once the deadline has
    passed. *)
Lemma stable_loop_spec (fuel : nat) (a : AcqState) (st : World) :
  (polls_left deadline st < fuel)%nat ->
  exists r st', stable_loop env fuel select_fn deadline a st = (Ok r, st') /\
    log st' = log st /\ now st <= now st' /\
    match r with
    | None => deadline <= now st'
    | Some h => now st' < deadline /\ select_fn st' = Some h /\ h <> 0
    end.
Proof.
  revert a st. induction fuel as [|fuel IH]; intros a st Hfuel; [lia|].
  simpl. munfold.
  destruct (now st <? deadline) eqn:Hnow.
  - apply Z.ltb_lt in Hnow.
    set (st1 := mkWorld (now st + POLL_INTERVAL_MS) (wins (evolve env st))
                  (foreground (evolve env st)) (log st)).
    assert (Hst1 : (polls_left deadline st1 < fuel)%nat).
    { pose proof (polls_left_sleep deadline st st1 Hnow eq_refl). lia. }
    destruct (truthy (select_fn st)) eqn:Ht; simpl.
    + unfold truthy in Ht. destruct (select_fn st) as [c|] eqn:Hsel; [|discriminate].
      apply negb_true_iff, Z.eqb_neq in Ht.
      match goal with |- context [stable_update a c ?cur] =>
        set (a' := stable_update a c cur) end.
      destruct (is_stable a') eqn:Hstab.
      * exists (tracked a'), st. subst a'. rewrite stable_update_tracked by exact Hstab.
        repeat split; auto; lia.
      * destruct (IH a' st1 Hst1) as (r & st' & Heq & Hlog & Hle & Hr).
        exists r, st'. split; [exact Heq|]. repeat split; auto.
        simpl in Hle. unfold POLL_INTERVAL_MS in Hle. lia.
    + destruct (IH a st1 Hst1) as (r & st' & Heq & Hlog & Hle & Hr).
      exists r, st'. split; [exact Heq|]. repeat split; auto.
      simpl in Hle. unfold POLL_INTERVAL_MS in Hle. lia.
  - apply Z.ltb_ge in Hnow. exists None, st. repeat split; auto; lia.
Qed.

(** [wait_for_stable_window] always returns, issues no call, returns a
    handle only before its deadline (the handle selected at that poll) and
    none only once the timeout has elapsed. *)
Lemma wait_for_stable_window_returns (early : bool) (timeout : Z) (st : World) :
  deadline = now st + timeout * 1000 ->
  exists r st', wait_for_stable_window env early select_fn timeout st = (Ok r, st') /\
    log st' = log st /\ now st <= now st' /\
    match r with
    | None => deadline <= now st'
    | Some h => now st' < deadline /\ select_fn st' = Some h /\ h <> 0
    end.
Proof.
  intros Hd. unfold wait_for_stable_window, bind, get. cbv beta iota. rewrite <- Hd.
  destruct early.
  - apply early_loop_spec. unfold polls_until, polls_left. lia.
  - apply stable_loop_spec. unfold polls_until, polls_left. lia.
Qed.
End Loops.

Lemma wait_returns (env : Env) (early : bool) (select_fn : World -> option Z)
    (timeout : Z) (st : World) :
  exists r st', wait_for_stable_window env early select_fn timeout st = (Ok r, st') /\
    log st' = log st /\ now st <= now st' /\
    match r with
    | None => now st + timeout * 1000 <= now st'
    | Some h => now st' < now st + timeout * 1000 /\ select_fn st' = Some h /\ h <> 0
    end.
Proof. now apply wait_for_stable_window_returns. Qed.

Lemma pick_best_no_signal (ws : list Window) :
  pick_best_window_by None None (Some ∅) ws = None.
Proof. apply pick_best_none. intros w _ _. reflexivity. Qed.

Lemma relaxed_wait_none (env : Env) (early : bool) (l : Launched) (st : World) :
  before l = ∅ ->
  exists st', wait_for_stable_window env early (select_new_only l) 10 st = (Ok None, st').
Proof.
  intros Hb.
  destruct (wait_returns env early (select_new_only l) 10 st) as (r & st' & Heq & _ & _ & Hr).
  exists st'. rewrite Heq. destruct r as [h|]; [|reflexivity].
  destruct Hr as (_ & Hsel & _). unfold select_new_only in Hsel.
  rewrite Hb, pick_best_no_signal in Hsel. discriminate.
Qed.

(** ** Stability policy *)

Lemma poll_from_now (env : Env) (sel : World -> option Z) (k : nat) (a : AcqState) (st : World) :
  now (snd (poll_from env sel k a st)) = now st + POLL_INTERVAL_MS * Z.of_nat k.
Proof.
  revert a st. induction k as [|k IH]; intros a st; simpl; [lia|].
  rewrite IH. unfold tick, sleep. simpl. lia.
Qed.

Lemma reaches_threshold_S (env : Env) (sel : World -> option Z) (deadline : Z)
    (a : AcqState) (st : World) (k : nat) :
  reaches_threshold env sel deadline a st (S k) <->
  reaches_threshold env sel deadline (observe sel a st) (tick env st) k.
Proof. unfold reaches_threshold. simpl. tauto. Qed.

(** What the stability loop returns, as the first poll of the trajectory
    that reaches the threshold before the deadline. *)
Definition first_hit (env : Env) (sel : World -> option Z) (deadline : Z)
    (a : AcqState) (st : World) (r : option Z) (st' : World) : Prop :=
  match r with
  | Some h =>
      exists k, reaches_threshold env sel deadline a st k /\
        (forall j, (j < k)%nat -> ~ reaches_threshold env sel deadline a st j) /\
        st' = snd (poll_from env sel k a st) /\ sel st' = Some h
  | None =>
      deadline <= now st' /\ forall k, ~ reaches_threshold env sel deadline a st k
  end.

Lemma first_hit_later (env : Env) (sel : World -> option Z) (deadline : Z)
    (a : AcqState) (st : World) (r : option Z) (st' : World) :
  ~ reaches_threshold env sel deadline a st 0 ->
  first_hit env sel deadline (observe sel a st) (tick env st) r st' ->
  first_hit env sel deadline a st r st'.
Proof.
  intros H0. destruct r as [h|]; simpl.
  - intros (k & Hk & Hfirst & Hst & Hsel). exists (S k).
    split; [now apply reaches_threshold_S|]. split; [|split; [exact Hst|exact Hsel]].
    intros [|j] Hj; [exact H0|]. rewrite reaches_threshold_S. apply Hfirst. lia.
  - intros [Hd Hall]. split; [exact Hd|].
    intros [|k]; [exact H0|]. rewrite reaches_threshold_S. apply Hall.
Qed.

Lemma stable_loop_first_hit (env : Env) (sel : World -> option Z) (deadline : Z)
    (fuel : nat) (a : AcqState) (st : World) :
  (polls_left deadline st < fuel)%nat ->
  exists r st', stable_loop env fuel sel deadline a st = (Ok r, st') /\
                first_hit env sel deadline a st r st'.
Proof.
  revert a st. induction fuel as [|fuel IH]; intros a st Hfuel; [lia|].
  simpl. unfold bind, get. cbv beta iota.
  destruct (now st <? deadline) eqn:Hnow.
  - apply Z.ltb_lt in Hnow.
    assert (Hst1 : (polls_left deadline (tick env st) < fuel)%nat).
    { pose proof (polls_left_sleep deadline st (tick env st) Hnow eq_refl). lia. }
    destruct (truthy (sel st)) eqn:Ht; cbn [negb].
    + pose proof Ht as Ht'. unfold truthy in Ht'.
      destruct (sel st) as [c|] eqn:Hsel; [|discriminate].
      apply negb_true_iff in Ht'.
      assert (Hobs : observe sel a st = stable_update a c (rect_of c st)).
      { unfold observe. now rewrite Hsel, Ht'. }
      unfold rect at 1. cbv beta iota.
      destruct (is_stable (stable_update a c (rect_of c st))) eqn:Hstab.
      * exists (tracked (stable_update a c (rect_of c st))), st. split; [reflexivity|].
        rewrite stable_update_tracked by exact Hstab. simpl.
        exists 0%nat. unfold reaches_threshold. simpl. rewrite Hobs, Hsel.
        repeat split; auto. intros j Hj. lia.
      * destruct (IH (stable_update a c (rect_of c st)) (tick env st) Hst1)
          as (r & st' & Heq & Hr).
        exists r, st'. split; [exact Heq|].
        apply first_hit_later; [|now rewrite Hobs].
        unfold reaches_threshold. simpl. rewrite Hobs, Hstab. intros (_ & _ & H). discriminate.
    + destruct (IH a (tick env st) Hst1) as (r & st' & Heq & Hr).
      exists r, st'. split; [exact Heq|].
      assert (Hobs : observe sel a st = a).
      { unfold observe, truthy in *. destruct (sel st) as [c|]; [|reflexivity].
        apply negb_false_iff in Ht. now rewrite Ht. }
      apply first_hit_later; [|now rewrite Hobs].
      unfold reaches_threshold. simpl. rewrite Ht. intros (_ & H & _). discriminate.
  - apply Z.ltb_ge in Hnow. exists None, st. split; [reflexivity|]. simpl.
    split; [exact Hnow|]. intros k (Hk & _).
    rewrite poll_from_now in Hk. unfold POLL_INTERVAL_MS in Hk. lia.
Qed.

Lemma stable_update_cases (a : AcqState) (cand : Z) (cur : option Rect) :
  (last_rect a = None \/ tracked a <> Some cand \/ rect_changed cur (last_rect a) = true ->
   stable_update a cand cur = mkAcq cur 0%float (Some cand)) /\
  (last_rect a <> None -> tracked a = Some cand -> rect_changed cur (last_rect a) = false ->
   stable_update a cand cur =
     mkAcq (last_rect a) (stable_time a + POLL_INTERVAL)%float (tracked a)).
Proof.
  unfold stable_update. split.
  - intros [Hl|[Ht|Hc]].
    + now rewrite Hl.
    + destruct (last_rect a); [|reflexivity]. simpl.
      destruct (tracked a) as [h|]; [|reflexivity].
      destruct (cand =? h) eqn:E; [|reflexivity].
      apply Z.eqb_eq in E. congruence.
    + rewrite Hc. now rewrite orb_true_r.
  - intros Hl Ht Hc. destruct (last_rect a); [|congruence].
    rewrite Ht, Hc, Z.eqb_refl. reflexivity.
Qed.

(** A window that swings 3 pixels to either side of where it was first
    seen, once per poll interval. *)
Definition swing_rect (t : Z) : Rect :=
  if t <? 50 then mkRect 100 100 900 700
  else if Z.even (t / 50) then mkRect 97 100 897 700
  else mkRect 103 100 903 700.

Definition swing_window (t : Z) : Window :=
  mkWindow 200 true (Some (WS_OVERLAPPEDWINDOW, 0)) (Some (swing_rect t))
    (Some 4242) (Some "notepad.exe"%string) 1 (mkRect 100 100 900 700).

Definition swing_env : Env :=
  mkEnv [mon0; mon1] None (1920, 1080) (nearest_by_centre [mon0; mon1])
    (fun p => p) (fun _ => true) (fun _ => Some 4242) (fun _ => true)
    (fun _ _ => Some [])
    (fun st => mkWorld (now st) [swing_window (now st + 50)] (foreground st) (log st)).

Definition swing_desk : World := mkWorld 0 [swing_window 0] 200 [].

Definition swing_select : World -> option Z :=
  select (mkLaunched 11 ∅ {[ 4242 ]} "notepad.exe").

(** C3, as stated, fails: at the third poll the selected handle is the
    same and its rectangle has moved 6 pixels since the previous poll, yet
    the counter is not reset; the window swings like this at every poll and
    is still returned as stable. *)
Lemma stable_reset_previous_poll_cex :
  let p1 := poll_from swing_env swing_select 1 acq_init swing_desk in
  let p2 := poll_from swing_env swing_select 2 acq_init swing_desk in
  swing_select (snd p1) = Some 200 /\ swing_select (snd p2) = Some 200 /\
  rect_changed (rect_of 200 (snd p2)) (rect_of 200 (snd p1)) = true /\
  PrimFloat.ltb 0 (stable_time (fst p2)) = true /\
  fst (wait_for_stable_window swing_env false swing_select 45 swing_desk) = Ok (Some 200).
Proof. vm_compute. repeat split; reflexivity. Qed.

(** The counter after [n] polls without a reset. *)
Fixpoint accumulated (n : nat) : float :=
  match n with
  | O => 0%float
  | S n' => (accumulated n' + POLL_INTERVAL)%float
  end.

(** In binary64 eight increments of the poll interval stay below the
    threshold; the ninth reaches it. *)
Example threshold_polls :
  PrimFloat.leb stable_needed (accumulated 8) = false /\
  PrimFloat.leb stable_needed (accumulated 9) = true.
Proof. split; reflexivity. Qed.

(** C3 (amended): under the stability policy the counter is reset to zero
    (and the handle and its rectangle recorded) whenever no rectangle is
    recorded, the selected handle differs from the recorded one, or the
    selected window's rectangle differs by more than 3 pixels on some edge
    from the rectangle recorded at the last reset; otherwise it grows by the
    poll interval. [wait_for_stable_window] returns the selected handle at
    the first poll before the deadline at which the counter has reached the
    threshold, and none, with the timeout elapsed, when there is no such
    poll. *)
Theorem wait_for_stable_window_stability (env : Env) (select_fn : World -> option Z)
    (timeout : Z) (st : World) :
  (forall a cand cur,
     (last_rect a = None \/ tracked a <> Some cand \/ rect_changed cur (last_rect a) = true ->
      stable_update a cand cur = mkAcq cur 0%float (Some cand)) /\
     (last_rect a <> None -> tracked a = Some cand -> rect_changed cur (last_rect a) = false ->
      stable_update a cand cur =
        mkAcq (last_rect a) (stable_time a + POLL_INTERVAL)%float (tracked a))) /\
  exists r st',
    wait_for_stable_window env false select_fn timeout st = (Ok r, st') /\
    match r with
    | Some h =>
        exists k,
          reaches_threshold env select_fn (now st + timeout * 1000) acq_init st k /\
          (forall j, (j < k)%nat ->
             ~ reaches_threshold env select_fn (now st + timeout * 1000) acq_init st j) /\
          st' = snd (poll_from env select_fn k acq_init st) /\ select_fn st' = Some h
    | None =>
        now st + timeout * 1000 <= now st' /\
        forall k, ~ reaches_threshold env select_fn (now st + timeout * 1000) acq_init st k
    end.
Proof.
  split; [apply stable_update_cases|].
  unfold wait_for_stable_window, bind, get. cbv beta iota.
  destruct (stable_loop_first_hit env select_fn (now st + timeout * 1000)
              (polls_until (now st + timeout * 1000) st) acq_init st)
    as (r & st' & Heq & Hr).
  { unfold polls_until, polls_left. lia. }
  exists r, st'. split; [exact Heq|]. exact Hr.
Qed.

(** ** Headless entry point *)

Lemma insert_mon_length (m : Monitor) (l : list Monitor) :
  length (insert_mon m l) = S (length l).
Proof.
  induction l as [|y r IH]; simpl; [reflexivity|].
  destruct (mon_key_le m y); simpl; [reflexivity|]. now rewrite IH.
Qed.

Lemma enum_monitors_sorted_length (env : Env) :
  length (enum_monitors_sorted env) = length (monitors env).
Proof.
  unfold enum_monitors_sorted. induction (monitors env) as [|m l IH]; simpl; [reflexivity|].
  now rewrite insert_mon_length, IH.
Qed.

(** An out-of-range monitor index makes [launch] raise at once, the world
    untouched. *)
Lemma launch_out_of_range (env : Env) (exe : string) (idx : Z) (st : World) :
  idx < 0 \/ Z.of_nat (length (monitors env)) <= idx ->
  exists e, launch env exe idx st = (Raise e, st) /\
    (e = NoMonitorsDetected \/
     e = MonitorIndexOutOfRange idx (Z.of_nat (length (monitors env)))).
Proof.
  intros Hidx. unfold launch. rewrite <- enum_monitors_sorted_length in *.
  destruct (enum_monitors_sorted env) as [|m ms] eqn:Hm.
  - exists NoMonitorsDetected. split; [reflexivity|]. left; reflexivity.
  - destruct ((idx <? 0) || (Z.of_nat (length (m :: ms)) <=? idx)) eqn:Hc.
    + eexists. split; [reflexivity|]. right; reflexivity.
    + apply orb_false_iff in Hc. destruct Hc as [H1 H2].
      apply Z.ltb_ge in H1. apply Z.leb_gt in H2. lia.
Qed.




(** ** Placement engine: what a placement touches *)

(** A call the placement engine may issue on window [h]: a show command,
    or a move that leaves Z order and activation alone. *)
Definition placement_call (h : Z) (c : Call) : Prop :=
  match c with
  | CShowWindow h' _ => h' = h
  | CSetWindowPos h' _ _ _ _ flags =>
      h' = h /\ flag_set flags win32con.SWP_NOZORDER = true /\
      flag_set flags win32con.SWP_NOACTIVATE = true
  | CPopen _ => False
  end.

(** The windows other than [h], in Z order. *)
Definition others (h : Z) (ws : list Window) : list Window :=
  List.filter (fun w => negb (hwnd w =? h)) ws.

Definition quiescent (env : Env) : Prop := forall st, evolve env st = st.

(** From [st] to [st']: time does not go back, only placement calls on [h]
    were issued, and in a quiescent environment every other window is as it
    was. *)
Definition placed (env : Env) (h : Z) (st st' : World) : Prop :=
  now st <= now st' /\
  (exists calls, log st' = log st ++ calls /\ Forall (placement_call h) calls) /\
  (quiescent env -> others h (wins st') = others h (wins st)).

(** An outcome of the placement engine: a result or [win32gui.error]. *)
Definition benign {A} (o : Outcome A) : Prop :=
  match o with
  | Ok _ => True
  | Raise e => e = win32gui_error
  | OutOfFuel => False
  end.

Definition placing (env : Env) (h : Z) {A} (m : M A) : Prop :=
  forall st, placed env h st (snd (m st)) /\ benign (fst (m st)).

Lemma placed_refl env h st : placed env h st st.
Proof.
  split; [lia|]. split; [|reflexivity].
  exists []. split; [now rewrite app_nil_r|constructor].
Qed.

Lemma placed_trans env h st1 st2 st3 :
  placed env h st1 st2 -> placed env h st2 st3 -> placed env h st1 st3.
Proof.
  intros (Hn1 & (c1 & Hl1 & Hc1) & Ho1) (Hn2 & (c2 & Hl2 & Hc2) & Ho2).
  split; [lia|]. split.
  - exists (c1 ++ c2). split; [now rewrite Hl2, Hl1, app_assoc|].
    apply Forall_app. auto.
  - intros Hq. now rewrite Ho2, Ho1.
Qed.

Lemma placing_ret env h {A} (a : A) : placing env h (ret a).
Proof. intros st. split; [apply placed_refl|exact I]. Qed.

Lemma placing_bind env h {A B} (m : M A) (k : A -> M B) :
  placing env h m -> (forall a, placing env h (k a)) -> placing env h (bind m k).
Proof.
  intros Hm Hk st. unfold bind. specialize (Hm st).
  destruct (m st) as [[a|e|] st1]; simpl in *.
  - destruct Hm as [Hp _]. destruct (Hk a st1) as [Hp' Hb].
    split; [eapply placed_trans; eauto|exact Hb].
  - exact Hm.
  - exact Hm.
Qed.

Lemma others_update (h : Z) (f : Window -> Window) (ws : list Window) :
  (forall w, hwnd (f w) = hwnd w) -> others h (update_window h f ws) = others h ws.
Proof.
  intros Hf. unfold others, update_window. induction ws as [|w ws IH]; simpl; [reflexivity|].
  destruct (hwnd w =? h) eqn:E; simpl.
  - rewrite Hf, E. simpl. exact IH.
  - rewrite E. simpl. now rewrite IH.
Qed.

Lemma others_of_matching (h : Z) (ws : list Window) :
  others h (List.filter (fun w => hwnd w =? h) ws) = [].
Proof.
  unfold others. induction ws as [|w ws IH]; simpl; [reflexivity|].
  destruct (hwnd w =? h) eqn:E; simpl; [now rewrite E|exact IH].
Qed.

Lemma others_idem (h : Z) (ws : list Window) : others h (others h ws) = others h ws.
Proof.
  unfold others. induction ws as [|w ws IH]; simpl; [reflexivity|].
  destruct (hwnd w =? h) eqn:E; simpl; [exact IH|]. rewrite E. simpl. now rewrite IH.
Qed.

Lemma others_bring_to_top (h : Z) (ws : list Window) :
  others h (bring_to_top h ws) = others h ws.
Proof.
  unfold bring_to_top. unfold others at 1. rewrite List.filter_app.
  fold (others h (List.filter (fun w => hwnd w =? h) ws)).
  fold (others h ws). fold (others h (others h ws)).
  now rewrite others_of_matching, others_idem.
Qed.

Ltac wsimpl :=
  unfold activate, set_wins, set_foreground, add_log in *;
  cbn [now wins foreground log fst snd] in *.

Lemma placing_rect env h h' : placing env h (rect h').
Proof. intros st. split; [apply placed_refl|exact I]. Qed.

Lemma placing_sleep env h ms : 0 <= ms -> placing env h (sleep env ms).
Proof.
  intros Hms st. split; [|exact I]. unfold sleep, placed. simpl.
  split; [lia|]. split.
  - exists []. split; [now rewrite app_nil_r|constructor].
  - intros Hq. now rewrite Hq.
Qed.

Lemma placing_GetWindowPlacement env h : placing env h (GetWindowPlacement_showCmd h).
Proof.
  intros st. unfold GetWindowPlacement_showCmd.
  destruct (find_window h (wins st)); simpl; (split; [apply placed_refl|]); simpl; auto.
Qed.

Lemma placing_ShowWindow env h cmd : placing env h (ShowWindow env h cmd).
Proof.
  intros st. unfold ShowWindow.
  assert (Hlog : forall ws fg,
             placed env h st (mkWorld (now st) ws fg (log st ++ [CShowWindow h cmd])) <->
             (quiescent env -> others h ws = others h (wins st))).
  { intros ws fg. unfold placed. simpl. split; [tauto|]. intros H.
    split; [lia|]. split; [|exact H].
    exists [CShowWindow h cmd]. split; [reflexivity|]. repeat constructor. }
  simpl. destruct (find_window h (wins st)); simpl.
  - destruct ((cmd =? win32con.SW_SHOWNORMAL) || (cmd =? win32con.SW_RESTORE)); simpl.
    + split; [|exact I]. apply Hlog. intros _. wsimpl.
      rewrite others_bring_to_top. now apply others_update.
    + destruct (cmd =? win32con.SW_MAXIMIZE); simpl.
      * split; [|exact I]. apply Hlog. intros _. wsimpl.
        rewrite others_bring_to_top. now apply others_update.
      * split; [|exact I]. apply Hlog. reflexivity.
  - split; [|exact I]. apply Hlog. reflexivity.
Qed.

Lemma placing_SetWindowPos env h x y cx cy :
  placing env h (SetWindowPos h x y cx cy SWP_FLAGS).
Proof.
  intros st. unfold SetWindowPos.
  assert (Hlog : forall ws,
             placed env h st (mkWorld (now st) ws (foreground st)
                                (log st ++ [CSetWindowPos h x y cx cy SWP_FLAGS])) <->
             (quiescent env -> others h ws = others h (wins st))).
  { intros ws. unfold placed. simpl. split; [tauto|]. intros H.
    split; [lia|]. split; [|exact H].
    exists [CSetWindowPos h x y cx cy SWP_FLAGS]. split; [reflexivity|].
    repeat constructor. }
  simpl. destruct (find_window h (wins st)); simpl.
  - split; [|exact I]. apply Hlog. intros _. now apply others_update.
  - split; [|reflexivity]. apply Hlog. reflexivity.
Qed.

Create HintDb placing.
#[local] Hint Resolve placing_ret placing_rect placing_GetWindowPlacement
  placing_ShowWindow placing_SetWindowPos : placing.

(** Every step of [move_and_set] is a placement step on [h]. *)
Lemma placing_move_and_set env h hm mode : placing env h (move_and_set env h hm mode).
Proof.
  unfold move_and_set.
  apply placing_bind; [auto with placing|]. intros p.
  apply placing_bind.
  { destruct (p =? win32con.SW_SHOWMAXIMIZED); [|auto with placing].
    apply placing_bind; [auto with placing|]. intros _. apply placing_sleep. lia. }
  intros _. destruct (String.eqb mode "normal").
  - apply placing_bind; [auto with placing|]. intros [c|]; auto with placing.
  - apply placing_bind; [auto with placing|]. intros _.
    apply placing_bind; [apply placing_sleep; lia|]. intros _.
    destruct (String.eqb mode "maximize"); auto with placing.
Qed.

(** ** Placement engine: what happens to the placed window *)

Lemma find_update (h : Z) (f : Window -> Window) (ws : list Window) :
  (forall w, hwnd (f w) = hwnd w) ->
  find_window h (update_window h f ws) = option_map f (find_window h ws).
Proof.
  intros Hf. unfold find_window, update_window.
  induction ws as [|w ws IH]; simpl; [reflexivity|].
  destruct (hwnd w =? h) eqn:E; simpl.
  - now rewrite Hf, E.
  - now rewrite E.
Qed.

Lemma find_bring_to_top (h : Z) (ws : list Window) :
  find_window h (bring_to_top h ws) = find_window h ws.
Proof.
  unfold find_window, bring_to_top.
  induction ws as [|w ws IH]; simpl; [reflexivity|].
  destruct (hwnd w =? h) eqn:E; simpl.
  - now rewrite E.
  - rewrite <- IH. clear IH.
    induction (List.filter (fun w0 => hwnd w0 =? h) ws) as [|x l IHl]; simpl.
    + now rewrite E.
    + destruct (hwnd x =? h); [reflexivity|exact IHl].
Qed.

Lemma ShowWindow_normal (env : Env) (h cmd : Z) (st : World) (w : Window) :
  find_window h (wins st) = Some w ->
  cmd = win32con.SW_SHOWNORMAL \/ cmd = win32con.SW_RESTORE ->
  exists st', ShowWindow env h cmd st = (Ok tt, st') /\
    find_window h (wins st') = Some (show_normal w) /\
    log st' = log st ++ [CShowWindow h cmd] /\ now st' = now st /\
    foreground st' = h.
Proof.
  intros Hw Hcmd. unfold ShowWindow. wsimpl. rewrite Hw.
  assert (Hc : (cmd =? win32con.SW_SHOWNORMAL) || (cmd =? win32con.SW_RESTORE) = true)
    by (destruct Hcmd; subst; reflexivity).
  rewrite Hc. eexists. split; [reflexivity|]. wsimpl.
  rewrite find_bring_to_top, find_update, Hw by reflexivity. auto.
Qed.

Lemma ShowWindow_maximize (env : Env) (h : Z) (st : World) (w : Window) :
  find_window h (wins st) = Some w ->
  exists st', ShowWindow env h win32con.SW_MAXIMIZE st = (Ok tt, st') /\
    find_window h (wins st') = Some (show_maximized env w) /\
    log st' = log st ++ [CShowWindow h win32con.SW_MAXIMIZE] /\ now st' = now st /\
    foreground st' = h.
Proof.
  intros Hw. unfold ShowWindow. wsimpl. rewrite Hw. simpl.
  eexists. split; [reflexivity|]. wsimpl.
  rewrite find_bring_to_top, find_update, Hw by reflexivity. auto.
Qed.

Lemma SetWindowPos_moves (h x y cx cy : Z) (st : World) (w : Window) :
  find_window h (wins st) = Some w ->
  exists st', SetWindowPos h x y cx cy SWP_FLAGS st = (Ok tt, st') /\
    find_window h (wins st') = Some (move_to x y cx cy w) /\
    log st' = log st ++ [CSetWindowPos h x y cx cy SWP_FLAGS] /\ now st' = now st /\
    foreground st' = foreground st.
Proof.
  intros Hw. unfold SetWindowPos. wsimpl. rewrite Hw. simpl.
  eexists. split; [reflexivity|]. wsimpl.
  rewrite find_update, Hw by reflexivity. auto.
Qed.

Lemma sleep_quiescent (env : Env) (ms : Z) (st : World) :
  quiescent env ->
  sleep env ms st = (Ok tt, mkWorld (now st + ms) (wins st) (foreground st) (log st)).
Proof. intros Hq. unfold sleep. now rewrite Hq. Qed.

(** The placed window after [move_and_set], from the window before it. *)
Definition placed_window (env : Env) (hm : Z) (mode : string) (w : Window) : Window :=
  let w1 := show_normal w in
  let wa := workarea_for_hmon env hm in
  if String.eqb mode "normal" then
    match wrect w1 with
    | None => move_to (left wa + 20) (top wa + 20) 1000 700 w1
    | Some c =>
        move_to (left wa + 20) (top wa + 20)
          (Z.max 300 (Z.min (right c - left c) (width wa - 40)))
          (Z.max 200 (Z.min (bottom c - top c) (height wa - 40))) w1
    end
  else
    let w2 := move_to (park_x wa) (park_y wa) (park_w wa) (park_h wa) w1 in
    if String.eqb mode "maximize" then show_maximized env w2
    else move_to (left wa) (top wa) (width wa) (height wa) w2.

Ltac bind_step H :=
  unfold bind at 1; rewrite H; cbv beta iota.

(** In a quiescent environment [move_and_set] on an existing window
    succeeds, leaves it as [placed_window] says, and leaves it active. *)
Lemma move_and_set_window (env : Env) (h hm : Z) (mode : string) (st : World) (w : Window) :
  quiescent env -> find_window h (wins st) = Some w ->
  exists st', move_and_set env h hm mode st = (Ok tt, st') /\
    find_window h (wins st') = Some (placed_window env hm mode w) /\
    foreground st' = h.
Proof.
  intros Hq Hw. unfold move_and_set.
  assert (Hgp : GetWindowPlacement_showCmd h st = (Ok (showcmd w), st))
    by (unfold GetWindowPlacement_showCmd; now rewrite Hw).
  bind_step Hgp.
  assert (Hshow : exists st1,
     (if showcmd w =? win32con.SW_SHOWMAXIMIZED
      then bind (ShowWindow env h win32con.SW_RESTORE) (fun _ => sleep env 50)
      else ShowWindow env h win32con.SW_SHOWNORMAL) st = (Ok tt, st1) /\
     find_window h (wins st1) = Some (show_normal w) /\ foreground st1 = h).
  { destruct (showcmd w =? win32con.SW_SHOWMAXIMIZED).
    - destruct (ShowWindow_normal env h win32con.SW_RESTORE st w Hw (or_intror eq_refl))
        as (st1 & Heq & Hf & _ & _ & Hfg).
      eexists. split; [unfold bind; rewrite Heq; apply sleep_quiescent, Hq|].
      simpl. eauto.
    - destruct (ShowWindow_normal env h win32con.SW_SHOWNORMAL st w Hw (or_introl eq_refl))
        as (st1 & Heq & Hf & _ & _ & Hfg).
      eauto. }
  destruct Hshow as (st1 & Heq1 & Hf1 & Hfg1).
  bind_step Heq1. unfold placed_window.
  destruct (String.eqb mode "normal").
  - unfold rect at 1, bind at 1. cbv beta iota. unfold rect_of. rewrite Hf1.
    destruct (wrect (show_normal w)) as [r|];
      match goal with |- context [SetWindowPos h ?x ?y ?cx ?cy SWP_FLAGS st1] =>
        destruct (SetWindowPos_moves h x y cx cy st1 _ Hf1)
          as (st2 & Heq2 & Hf2 & _ & _ & Hfg2)
      end;
      (exists st2; split; [exact Heq2|]; split; [exact Hf2|congruence]).
  - match goal with |- context [SetWindowPos h ?x ?y ?cx ?cy SWP_FLAGS] =>
      destruct (SetWindowPos_moves h x y cx cy st1 _ Hf1)
        as (st2 & Heq2 & Hf2 & _ & _ & Hfg2)
    end.
    bind_step Heq2. bind_step (sleep_quiescent env 20 st2 Hq).
    set (st3 := mkWorld (now st2 + 20) (wins st2) (foreground st2) (log st2)).
    assert (Hf3 : find_window h (wins st3) = Some
              (move_to (park_x (workarea_for_hmon env hm)) (park_y (workarea_for_hmon env hm))
                 (park_w (workarea_for_hmon env hm)) (park_h (workarea_for_hmon env hm))
                 (show_normal w))) by exact Hf2.
    destruct (String.eqb mode "maximize").
    + destruct (ShowWindow_maximize env h st3 _ Hf3) as (st4 & Heq4 & Hf4 & _ & _ & Hfg4).
      exists st4. auto.
    + destruct (SetWindowPos_moves h (left (workarea_for_hmon env hm))
                  (top (workarea_for_hmon env hm)) (width (workarea_for_hmon env hm))
                  (height (workarea_for_hmon env hm)) st3 _ Hf3)
        as (st4 & Heq4 & Hf4 & _ & _ & Hfg4).
      exists st4. split; [exact Heq4|]. split; [exact Hf4|].
      rewrite Hfg4. simpl. congruence.
Qed.

(** The steps of [move_and_set] after the window is in the normal state
    are placement steps. *)
Ltac placing_tail :=
  match goal with
  | |- placing _ _ (if String.eqb ?m ?s then _ else _) =>
      destruct (String.eqb m s); placing_tail
  | |- placing _ _ (bind _ _) =>
      apply placing_bind; [placing_tail|intros ?; placing_tail]
  | |- placing _ _ (sleep _ _) => apply placing_sleep; lia
  | |- placing _ _ (let '(_, _) := match ?c with _ => _ end in _) =>
      destruct c; placing_tail
  | |- _ => auto with placing
  end.

(** [move_and_set] on an existing window issues at least one call. *)
Lemma move_and_set_logs (env : Env) (h hm : Z) (mode : string) (st : World) (w : Window) :
  find_window h (wins st) = Some w ->
  exists c calls, log (snd (move_and_set env h hm mode st)) = log st ++ c :: calls.
Proof.
  intros Hw. unfold move_and_set.
  assert (Hgp : GetWindowPlacement_showCmd h st = (Ok (showcmd w), st))
    by (unfold GetWindowPlacement_showCmd; now rewrite Hw).
  bind_step Hgp.
  assert (Hshow : exists st1 c,
     (if showcmd w =? win32con.SW_SHOWMAXIMIZED
      then bind (ShowWindow env h win32con.SW_RESTORE) (fun _ => sleep env 50)
      else ShowWindow env h win32con.SW_SHOWNORMAL) st = (Ok tt, st1) /\
     log st1 = log st ++ [c]).
  { destruct (showcmd w =? win32con.SW_SHOWMAXIMIZED).
    - destruct (ShowWindow_normal env h win32con.SW_RESTORE st w Hw (or_intror eq_refl))
        as (st1 & Heq & _ & Hl & _).
      eexists. eexists. split; [unfold bind; rewrite Heq; reflexivity|]. exact Hl.
    - destruct (ShowWindow_normal env h win32con.SW_SHOWNORMAL st w Hw (or_introl eq_refl))
        as (st1 & Heq & _ & Hl & _).
      eauto. }
  destruct Hshow as (st1 & c & Heq1 & Hl1).
  bind_step Heq1.
  match goal with |- context [snd (?rest st1)] =>
    assert (Hrest : placing env h rest) by placing_tail;
    destruct (Hrest st1) as [(_ & (calls & Hl & _) & _) _]
  end.
  exists c, calls. rewrite Hl, Hl1, <- app_assoc. reflexivity.
Qed.

(** Outside the normal mode, [move_and_set] on an existing window asks
    for the park rectangle of the target work area. *)
Lemma move_and_set_parks (env : Env) (h hm : Z) (mode : string) (st : World) (w : Window) :
  find_window h (wins st) = Some w -> String.eqb mode "normal" = false ->
  let wa := workarea_for_hmon env hm in
  In (CSetWindowPos h (left (park_rect wa)) (top (park_rect wa))
        (width (park_rect wa)) (height (park_rect wa)) SWP_FLAGS)
     (log (snd (move_and_set env h hm mode st))).
Proof.
  intros Hw Hmode wa.
  assert (Hwd : width (park_rect wa) = park_w wa) by (unfold width, park_rect; simpl; lia).
  assert (Hht : height (park_rect wa) = park_h wa) by (unfold height, park_rect; simpl; lia).
  rewrite Hwd, Hht. simpl left. simpl top.
  unfold move_and_set.
  assert (Hgp : GetWindowPlacement_showCmd h st = (Ok (showcmd w), st))
    by (unfold GetWindowPlacement_showCmd; now rewrite Hw).
  bind_step Hgp.
  assert (Hshow : exists st1,
     (if showcmd w =? win32con.SW_SHOWMAXIMIZED
      then bind (ShowWindow env h win32con.SW_RESTORE) (fun _ => sleep env 50)
      else ShowWindow env h win32con.SW_SHOWNORMAL) st = (Ok tt, st1)).
  { destruct (showcmd w =? win32con.SW_SHOWMAXIMIZED).
    - destruct (ShowWindow_normal env h win32con.SW_RESTORE st w Hw (or_intror eq_refl))
        as (st1 & Heq & _).
      eexists. unfold bind. rewrite Heq. reflexivity.
    - destruct (ShowWindow_normal env h win32con.SW_SHOWNORMAL st w Hw (or_introl eq_refl))
        as (st1 & Heq & _).
      eauto. }
  destruct Hshow as (st1 & Heq1).
  bind_step Heq1. rewrite Hmode. fold wa.
  set (c := CSetWindowPos h (park_x wa) (park_y wa) (park_w wa) (park_h wa) SWP_FLAGS).
  assert (Hpark : log (snd (SetWindowPos h (park_x wa) (park_y wa) (park_w wa) (park_h wa)
                              SWP_FLAGS st1)) = log st1 ++ [c]).
  { unfold SetWindowPos. wsimpl. destruct (find_window h (wins st1)); reflexivity. }
  unfold bind at 1.
  destruct (SetWindowPos h (park_x wa) (park_y wa) (park_w wa) (park_h wa) SWP_FLAGS st1)
    as [[[]|e|] st2]; simpl in Hpark.
  - match goal with |- context [snd (?rest st2)] =>
      assert (Hrest : placing env h rest) by placing_tail;
      destruct (Hrest st2) as [(_ & (calls & Hl & _) & _) _]
    end.
    rewrite Hl, Hpark. apply in_or_app. left. apply in_or_app. right. left. reflexivity.
  - simpl. rewrite Hpark. apply in_or_app. right. left. reflexivity.
  - simpl. rewrite Hpark. apply in_or_app. right. left. reflexivity.
Qed.

(** A single display of 800 x 600 whose work area is the whole screen. *)
Definition small_mon : Monitor :=
  mkMonitor 12 (mkRect 0 0 800 600) (Some (mkRect 0 0 800 600)).

Definition small_env : Env :=
  mkEnv [small_mon] None (800, 600) (fun _ => 12)
    (fun p => p) (fun _ => true) (fun _ => Some 4242) (fun _ => true)
    (fun _ _ => Some []) (fun st => st).

Definition small_window : Window :=
  mkWindow 200 true (Some (main_style, 0)) (Some (mkRect 100 100 500 400))
    (Some 4242) (Some "Notepad.exe"%string) 1 (mkRect 100 100 500 400).

Definition small_desk : World := mkWorld 0 [small_window] 200 [].

(** C5: the code departs from the claim, and from the docstring of
    [move_and_set] ("PARK fully inside target monitor at medium size"): on a
    monitor whose work area is 800 x 600 the park rectangle is
    (20, 20)-(820, 620), whose right and bottom edges lie 20 pixels outside
    the work area, and placing a window there in the workarea or the
    maximize mode asks the window manager for exactly that rectangle (at
    20, 20, of size 800 x 600).  The normal-mode path, by contrast, clamps
    the size to the work area less 40. *)
Theorem park_overflows_small_workarea :
  workarea_for_hmon small_env 12 = mkRect 0 0 800 600 /\
  park_rect (mkRect 0 0 800 600) = mkRect 20 20 820 620 /\
  ~ inside (park_rect (mkRect 0 0 800 600)) (mkRect 0 0 800 600) /\
  log (snd (move_and_set small_env 200 12 "workarea" small_desk)) =
    [CShowWindow 200 win32con.SW_SHOWNORMAL;
     CSetWindowPos 200 20 20 800 600 SWP_FLAGS;
     CSetWindowPos 200 0 0 800 600 SWP_FLAGS] /\
  log (snd (move_and_set small_env 200 12 "maximize" small_desk)) =
    [CShowWindow 200 win32con.SW_SHOWNORMAL;
     CSetWindowPos 200 20 20 800 600 SWP_FLAGS;
     CShowWindow 200 win32con.SW_MAXIMIZE] /\
  log (snd (move_and_set small_env 200 12 "normal" small_desk)) =
    [CShowWindow 200 win32con.SW_SHOWNORMAL;
     CSetWindowPos 200 20 20 400 300 SWP_FLAGS].
Proof.
  split; [reflexivity|]. split; [reflexivity|]. split.
  - unfold inside. vm_compute. intros (_ & _ & H & _). apply H. reflexivity.
  - split; [vm_compute; reflexivity|]. split; vm_compute; reflexivity.
Qed.


Lemma quiet_env_quiescent : quiescent quiet_env.
Proof. intros st. reflexivity. Qed.

(** ** Placement engine: idempotence *)

Lemma show_normal_placed (env : Env) (hm : Z) (mode : string) (w : Window) :
  wrect w <> None ->
  wrect (placed_window env hm mode (placed_window env hm mode w)) =
  wrect (placed_window env hm mode w) /\
  wrect (placed_window env hm mode w) <> None.
Proof.
  intros Hr. unfold placed_window.
  destruct (String.eqb mode "normal") eqn:Hn.
  - assert (Hs : wrect (show_normal w) <> None).
    { unfold show_normal. simpl. destruct (_ || _); [discriminate|exact Hr]. }
    destruct (wrect (show_normal w)) as [c|] eqn:Hc; [|congruence].
    simpl. split; [|discriminate]. f_equal. f_equal; unfold width, height; lia.
  - destruct (String.eqb mode "maximize"); simpl; split; try discriminate; reflexivity.
Qed.

Lemma edges_differ_refl (r : Rect) : edges_differ RECT_TOL r r = false.
Proof.
  unfold edges_differ, RECT_TOL. rewrite !Z.sub_diag. reflexivity.
Qed.

(** C8: on a window whose rectangle can be read, with no other process
    acting, two placements in succession with the same arguments both
    succeed and the window's rectangle after the second is the one after
    the first, hence within the 3-pixel tolerance of it. *)
Theorem move_and_set_idempotent (env : Env) (h hm : Z) (mode : string) (st : World) :
  quiescent env -> rect_of h st <> None ->
  exists st1 st2,
    move_and_set env h hm mode st = (Ok tt, st1) /\
    move_and_set env h hm mode st1 = (Ok tt, st2) /\
    rect_of h st2 = rect_of h st1 /\
    rect_changed (rect_of h st2) (rect_of h st1) = false.
Proof.
  intros Hq Hr. unfold rect_of in Hr.
  destruct (find_window h (wins st)) as [w|] eqn:Hw; [|congruence].
  destruct (move_and_set_window env h hm mode st w Hq Hw) as (st1 & Heq1 & Hf1 & _).
  destruct (move_and_set_window env h hm mode st1 _ Hq Hf1) as (st2 & Heq2 & Hf2 & _).
  exists st1, st2. split; [exact Heq1|]. split; [exact Heq2|].
  destruct (show_normal_placed env hm mode w Hr) as [Hsame Hsome].
  unfold rect_of. rewrite Hf1, Hf2, Hsame. split; [reflexivity|].
  destruct (wrect (placed_window env hm mode w)) as [r|]; [|congruence].
  apply edges_differ_refl.
Qed.

Lemma move_and_set_idempotent_witness :
  quiescent quiet_env /\ rect_of 200 desk0 <> None /\
  exists st1 st2,
    move_and_set quiet_env 200 11 "normal" desk0 = (Ok tt, st1) /\
    move_and_set quiet_env 200 11 "normal" st1 = (Ok tt, st2) /\
    rect_of 200 st2 = rect_of 200 st1 /\
    rect_changed (rect_of 200 st2) (rect_of 200 st1) = false.
Proof.
  assert (Hr : rect_of 200 desk0 <> None) by (vm_compute; discriminate).
  split; [exact quiet_env_quiescent|]. split; [exact Hr|].
  exact (move_and_set_idempotent quiet_env 200 11 "normal" desk0 quiet_env_quiescent Hr).
Defined.

(** ** Drift watchdog *)

(** One turn of the watchdog loop: before the deadline it runs a poll and,
    when the poll asks to go on, sleeps and continues with the rectangle the
    poll returned as the new baseline. *)
Lemma watch_loop_step env h hmon_target mode until (fuel : nat) last st :
  watch_loop env (S fuel) h hmon_target mode until last st =
  if now st <? until then
    match watch_poll env h hmon_target mode last st with
    | (Ok (Some last'), st1) =>
        watch_loop env fuel h hmon_target mode until last'
          (snd (sleep env POLL_INTERVAL_MS st1))
    | (Ok None, st1) => (Ok tt, st1)
    | (Raise e, st1) => (Raise e, st1)
    | (OutOfFuel, st1) => (OutOfFuel, st1)
    end
  else (Ok tt, st).
Proof.
  simpl. unfold bind, get, ret, sleep. cbv beta iota.
  destruct (now st <? until); [|reflexivity].
  destruct (watch_poll env h hmon_target mode last st) as [[[last'|]|e|] st1]; reflexivity.
Qed.

(** A window that creeps 2 pixels to the right during every sleep. *)
Definition creep (w : Window) : Window :=
  match wrect w with
  | Some r =>
      mkWindow (hwnd w) (visible w) (styles w)
        (Some (mkRect (left r + 2) (top r) (right r + 2) (bottom r)))
        (owner_pid w) (proc_name w) (showcmd w) (normal_rect w)
  | None => w
  end.

Definition creep_env : Env :=
  mkEnv [mon0; mon1] None (1920, 1080) (nearest_by_centre [mon0; mon1])
    (fun p => p) (fun _ => true) (fun _ => Some 4242) (fun _ => true)
    (fun _ _ => Some [])
    (fun st => mkWorld (now st) (update_window 200 creep (wins st)) (foreground st) (log st)).

(** The desktop right after notepad was placed on the second monitor. *)
Definition placed_desk : World :=
  snd (move_and_set creep_env 200 11 "normal" desk0).

(** C4, as stated, fails: the window creeps 2 pixels per poll; at the third
    poll it is valid, visible, on the target monitor and 4 pixels away from
    the rectangle of the last placement, and it ends 40 pixels away, yet the
    watchdog never re-applies placement. *)
Lemma watchdog_baseline_cex :
  let at_third_poll := tick creep_env (tick creep_env placed_desk) in
  let final := snd (ensure_on_target creep_env 200 11 "normal" 1 placed_desk) in
  fst (IsWindowVisible 200 at_third_poll) = Ok true /\
  fst (MonitorFromWindow creep_env 200 at_third_poll) = Ok 11 /\
  rect_changed (rect_of 200 at_third_poll) (rect_of 200 placed_desk) = true /\
  fst (ensure_on_target creep_env 200 11 "normal" 1 placed_desk) = Ok tt /\
  log final = log placed_desk /\
  rect_of 200 final = Some (mkRect 1980 20 2780 620) /\
  rect_of 200 placed_desk = Some (mkRect 1940 20 2740 620).
Proof. vm_compute. repeat split; reflexivity. Qed.

(** C4 (amended): at a poll where the window is valid and visible,
    placement is re-applied exactly when the monitor containing the window
    differs from the target monitor or the window's rectangle differs beyond
    the 3-pixel tolerance from the baseline, or one of the two rectangles is
    missing; the poll then does what [move_and_set] does and issues at least
    one call, and otherwise changes nothing. Either way the rectangle the
    poll returns is the one the window has at the end of this poll, and the
    loop, before its deadline, sleeps one poll interval and runs the next
    poll with that rectangle as its baseline, whether or not placement was
    re-applied; the first baseline is the rectangle read when the watchdog
    starts. *)
Theorem watch_poll_reapplies (env : Env) (h hmon_target : Z) (mode : string)
    (last : option Rect) (st : World) (w : Window) :
  h <> 0 -> find_window h (wins st) = Some w -> visible w = true ->
  (nearest env (wrect w) <> hmon_target \/ rect_changed (wrect w) last = true ->
     snd (watch_poll env h hmon_target mode last st) =
       snd (move_and_set env h hmon_target mode st) /\
     exists c calls,
       log (snd (watch_poll env h hmon_target mode last st)) = log st ++ c :: calls) /\
  (~ (nearest env (wrect w) <> hmon_target \/ rect_changed (wrect w) last = true) ->
     watch_poll env h hmon_target mode last st = (Ok (Some (wrect w)), st)) /\
  (forall last', fst (watch_poll env h hmon_target mode last st) = Ok (Some last') ->
     last' = rect_of h (snd (watch_poll env h hmon_target mode last st))) /\
  (forall (fuel : nat) until last' st1,
     now st < until ->
     watch_poll env h hmon_target mode last st = (Ok (Some last'), st1) ->
     watch_loop env (S fuel) h hmon_target mode until last st =
     watch_loop env fuel h hmon_target mode until (rect_of h st1)
       (snd (sleep env POLL_INTERVAL_MS st1))) /\
  (forall seconds,
     ensure_on_target env h hmon_target mode seconds st =
     watch_loop env (polls_until (now st + Z.max 0 seconds * 1000) st) h hmon_target mode
       (now st + Z.max 0 seconds * 1000) (rect_of h st) st).
Proof.
  intros Hh Hw Hvis.
  assert (Hstart : forall seconds,
     ensure_on_target env h hmon_target mode seconds st =
     watch_loop env (polls_until (now st + Z.max 0 seconds * 1000) st) h hmon_target mode
       (now st + Z.max 0 seconds * 1000) (rect_of h st) st) by reflexivity.
  assert (Hpoll : watch_poll env h hmon_target mode last st =
    if negb (nearest env (wrect w) =? hmon_target) || rect_changed (wrect w) last
    then match move_and_set env h hmon_target mode st with
         | (Ok _, st') => (Ok (Some (rect_of h st')), st')
         | (Raise e, st') => (Raise e, st')
         | (OutOfFuel, st') => (OutOfFuel, st')
         end
    else (Ok (Some (wrect w)), st)).
  { unfold watch_poll, bind, IsWindow, IsWindowVisible, MonitorFromWindow, rect, rect_of, ret.
    rewrite Hw, Hvis. apply Z.eqb_neq in Hh. rewrite Hh. simpl. rewrite !Hw.
    destruct (negb (nearest env (wrect w) =? hmon_target) || rect_changed (wrect w) last);
      [|reflexivity].
    destruct (move_and_set env h hmon_target mode st) as [[[]|e|] st']; reflexivity. }
  assert (Hiff : negb (nearest env (wrect w) =? hmon_target) || rect_changed (wrect w) last
                 = true <->
                 nearest env (wrect w) <> hmon_target \/ rect_changed (wrect w) last = true).
  { rewrite orb_true_iff, negb_true_iff, Z.eqb_neq. tauto. }
  assert (Hlast : forall last',
     fst (watch_poll env h hmon_target mode last st) = Ok (Some last') ->
     last' = rect_of h (snd (watch_poll env h hmon_target mode last st))).
  { rewrite Hpoll. intros last'.
    destruct (negb (nearest env (wrect w) =? hmon_target) || rect_changed (wrect w) last).
    - destruct (move_and_set env h hmon_target mode st) as [[[]|e|] st']; simpl;
        intros H; inversion H; reflexivity.
    - intros H. simpl in *. inversion H. unfold rect_of. now rewrite Hw. }
  assert (Hnext : forall (fuel : nat) until last' st1,
     now st < until ->
     watch_poll env h hmon_target mode last st = (Ok (Some last'), st1) ->
     watch_loop env (S fuel) h hmon_target mode until last st =
     watch_loop env fuel h hmon_target mode until (rect_of h st1)
       (snd (sleep env POLL_INTERVAL_MS st1))).
  { intros fuel until last' st1 Hnow Heq.
    specialize (Hlast last'). rewrite Heq in Hlast. simpl in Hlast.
    rewrite watch_loop_step, Heq. apply Z.ltb_lt in Hnow. rewrite Hnow.
    rewrite <- (Hlast eq_refl). reflexivity. }
  clear Hlast.
  rewrite Hpoll in *.
  destruct (negb (nearest env (wrect w) =? hmon_target) || rect_changed (wrect w) last).
  - split; [|split; [|split; [|split; [exact Hnext|exact Hstart]]]].
    + intros _.
      destruct (move_and_set_logs env h hmon_target mode st w Hw) as (c & calls & Hl).
      destruct (move_and_set env h hmon_target mode st) as [[[]|e|] st'];
        (split; [reflexivity|exists c, calls; exact Hl]).
    + intros Hn. exfalso. apply Hn. now apply Hiff.
    + intros last'.
      destruct (move_and_set env h hmon_target mode st) as [[[]|e|] st']; simpl;
        intros H; inversion H; reflexivity.
  - split; [|split; [|split; [|split; [exact Hnext|exact Hstart]]]].
    + intros Hd. apply Hiff in Hd. discriminate.
    + reflexivity.
    + intros last' H. simpl in *. inversion H. unfold rect_of. now rewrite Hw.
Qed.

Lemma watch_poll_reapplies_witness :
  200 <> 0 /\ find_window 200 (wins desk0) = Some notepad /\ visible notepad = true /\
  (nearest quiet_env (wrect notepad) <> 11 \/ rect_changed (wrect notepad) None = true ->
     snd (watch_poll quiet_env 200 11 "normal" None desk0) =
       snd (move_and_set quiet_env 200 11 "normal" desk0) /\
     exists c calls,
       log (snd (watch_poll quiet_env 200 11 "normal" None desk0)) = log desk0 ++ c :: calls).
Proof.
  assert (H1 : 200 <> 0) by discriminate.
  assert (H2 : find_window 200 (wins desk0) = Some notepad) by reflexivity.
  assert (H3 : visible notepad = true) by reflexivity.
  split; [exact H1|]. split; [exact H2|]. split; [exact H3|].
  exact (proj1 (watch_poll_reapplies quiet_env 200 11 "normal" None desk0 notepad H1 H2 H3)).
Defined.

Lemma placing_IsWindow env h h' : placing env h (IsWindow h').
Proof. intros st. split; [apply placed_refl|exact I]. Qed.

Lemma placing_IsWindowVisible env h h' : placing env h (IsWindowVisible h').
Proof. intros st. split; [apply placed_refl|exact I]. Qed.

Lemma placing_MonitorFromWindow env h h' : placing env h (MonitorFromWindow env h').
Proof. intros st. split; [apply placed_refl|exact I]. Qed.

Lemma placing_get env h : placing env h get.
Proof. intros st. split; [apply placed_refl|exact I]. Qed.

#[local] Hint Resolve placing_IsWindow placing_IsWindowVisible placing_MonitorFromWindow
  placing_get placing_move_and_set : placing.

(** A poll of the watchdog is a placement step. *)
Lemma placing_watch_poll env h hmon_target mode last :
  placing env h (watch_poll env h hmon_target mode last).
Proof.
  unfold watch_poll.
  apply placing_bind; [auto with placing|]. intros ok.
  apply placing_bind; [auto with placing|]. intros vis.
  destruct (negb (negb (h =? 0) && ok && vis)); [auto with placing|].
  apply placing_bind; [auto with placing|]. intros cur_hmon.
  apply placing_bind; [auto with placing|]. intros cur_rect.
  destruct (negb (cur_hmon =? hmon_target) || rect_changed cur_rect last);
    [|auto with placing].
  apply placing_bind; [auto with placing|]. intros _.
  apply placing_bind; auto with placing.
Qed.

(** With fuel for every poll up to [until], the watchdog loop ends by
    itself: it is a placement step that returns or raises. *)
Lemma placing_watch_loop env h hmon_target mode until (fuel : nat) last st :
  (polls_left until st < fuel)%nat ->
  placed env h st (snd (watch_loop env fuel h hmon_target mode until last st)) /\
  benign (fst (watch_loop env fuel h hmon_target mode until last st)).
Proof.
  revert last st. induction fuel as [|fuel IH]; intros last st Hfuel; [lia|].
  rewrite watch_loop_step.
  destruct (now st <? until) eqn:Hnow; [|split; [apply placed_refl|exact I]].
  apply Z.ltb_lt in Hnow.
  destruct (placing_watch_poll env h hmon_target mode last st) as [Hp Hb].
  destruct (watch_poll env h hmon_target mode last st) as [[[last'|]|e|] st1]; simpl in *.
  - destruct (placing_sleep env h POLL_INTERVAL_MS ltac:(unfold POLL_INTERVAL_MS; lia) st1)
      as [Hp2 _].
    set (st2 := snd (sleep env POLL_INTERVAL_MS st1)) in *.
    assert (Hnow2 : now st2 = now st1 + POLL_INTERVAL_MS) by reflexivity.
    assert (Hfuel2 : (polls_left until st2 < fuel)%nat).
    { destruct Hp as (Hle & _).
      pose proof (polls_left_sleep until st
                    (mkWorld (now st + POLL_INTERVAL_MS) [] 0 []) Hnow eq_refl) as H1.
      pose proof (polls_left_later until
                    (mkWorld (now st + POLL_INTERVAL_MS) [] 0 []) st2) as H2.
      simpl in H2. specialize (H2 ltac:(lia)). lia. }
    destruct (IH last' st2 Hfuel2) as [Hp3 Hb3].
    split; [|exact Hb3].
    eapply placed_trans; [exact Hp|]. eapply placed_trans; [exact Hp2|exact Hp3].
  - split; [exact Hp|exact I].
  - split; [exact Hp|exact Hb].
  - contradiction.
Qed.

Lemma placing_ensure_on_target env h hmon_target mode seconds :
  placing env h (ensure_on_target env h hmon_target mode seconds).
Proof.
  intros st. unfold ensure_on_target, bind, get, rect. cbv beta iota.
  apply placing_watch_loop. unfold polls_until, polls_left. lia.
Qed.

(** Placement and watching end by themselves, and never fail with the
    acquisition error. *)
Lemma place_and_watch_raises (env : Env) (h hm : Z) (mode : string) (obs : Z)
    (st : World) :
  benign (fst (bind (move_and_set env h hm mode)
                 (fun _ => ensure_on_target env h hm mode obs) st)).
Proof.
  apply (placing_bind env h); [apply placing_move_and_set|].
  intros _. apply placing_ensure_on_target.
Qed.

Lemma discover_children_log (env : Env) (n : nat) (parent : Z) (ps : gset Z) (st : World) :
  exists ps' st', discover_children env n parent ps st = (Ok ps', st') /\ log st' = log st.
Proof.
  revert ps st. induction n as [|n IH]; intros ps st; simpl.
  - exists ps, st. split; reflexivity.
  - unfold bind, get, sleep. cbv beta iota.
    match goal with |- context [discover_children env n parent ?ps1 ?st1] =>
      destruct (IH ps1 st1) as (ps' & st' & Heq & Hl)
    end.
    exists ps', st'. split; [exact Heq|]. exact Hl.
Qed.

(** A successful launch spawned the executable, issued no other call, and
    took its snapshot of the visible windows before spawning. *)
Lemma launch_ok (env : Env) (exe : string) (idx : Z) (st0 st1 : World) (l : Launched) :
  launch env exe idx st0 = (Ok l, st1) ->
  log st1 = log st0 ++ [CPopen exe] /\
  before l = list_to_set (List.map hwnd (List.filter visible (wins st0))).
Proof.
  unfold launch. destruct (enum_monitors_sorted env) as [|m ms]; [discriminate|].
  destruct ((idx <? 0) || _); [discriminate|].
  unfold bind at 1, list_top_windows. cbv beta iota.
  unfold bind at 1. cbv beta iota.
  destruct (popen env exe) as [pid|]; [|discriminate].
  destruct (negb (psutil_ok env pid)); [discriminate|].
  unfold bind.
  destruct (discover_children_log env 15 pid {[ pid ]} (add_log (CPopen exe) st0))
    as (ps' & st' & Heq & Hl).
  rewrite Heq. intros H. inversion H; subst. simpl. split; [exact Hl|reflexivity].
Qed.

(** The desktop before notepad shows any window. *)
Definition bare_desk : World := mkWorld 0 [explorer] 100 [].

(** C7: once the executable is launched, the primary attempt runs with the
    45-second timeout and returns none only when that time has elapsed; the
    relaxed attempt, with the 10-second timeout and a scan that uses the
    pre-launch snapshot only, is made exactly when the primary attempt
    returned none; the run fails with the window-not-found error exactly when
    both attempts return none, and then the only call issued by the whole
    run is the spawn: no placement or watchdog call is made. *)
Theorem run_headless_fallback (env : Env) (early : bool) (exe mode : string)
    (idx obs : Z) (st0 st1 : World) (l : Launched) :
  launch env exe idx st0 = (Ok l, st1) ->
  exists r1 st2,
    wait_for_stable_window env early (select l) WAIT_TIMEOUT_SEC st1 = (Ok r1, st2) /\
    (r1 = None -> now st1 + 45000 <= now st2) /\
    exists r2 st3,
      match r1 with
      | None => wait_for_stable_window env early (select_new_only l) 10 st2
      | Some _ => (Ok r1, st2)
      end = (Ok r2, st3) /\
      (forall st, select_new_only l st =
                  pick_best_window_by None None (Some (before l)) (wins st)) /\
      (r1 = None -> r2 = None -> now st2 + 10000 <= now st3) /\
      ((exists st', run_headless env early exe idx mode obs st0
                    = (Raise NoStableMainWindow, st')) <-> r1 = None /\ r2 = None) /\
      (r1 = None -> r2 = None ->
         run_headless env early exe idx mode obs st0 = (Raise NoStableMainWindow, st3) /\
         log st3 = log st0 ++ [CPopen exe]).
Proof.
  intros Hlaunch. destruct (launch_ok env exe idx st0 st1 l Hlaunch) as [Hlog1 _].
  destruct (wait_returns env early (select l) WAIT_TIMEOUT_SEC st1)
    as (r1 & st2 & Heq1 & Hlog2 & _ & Hr1).
  exists r1, st2. split; [exact Heq1|].
  split; [intros ->; unfold WAIT_TIMEOUT_SEC in Hr1; lia|].
  assert (Hrun : forall h st,
             acquire env early l st1 = (Ok h, st) ->
             ~ exists st', run_headless env early exe idx mode obs st0
                           = (Raise NoStableMainWindow, st')).
  { intros h st Hacq [st' Hrun]. unfold run_headless in Hrun.
    unfold bind at 1 in Hrun. rewrite Hlaunch in Hrun.
    unfold bind at 1 in Hrun. rewrite Hacq in Hrun.
    pose proof (place_and_watch_raises env h (hmon_target l) mode obs st) as Hp.
    rewrite Hrun in Hp. simpl in Hp. discriminate. }
  destruct r1 as [h1|].
  - destruct Hr1 as (_ & _ & Hh1).
    exists (Some h1), st2. split; [reflexivity|]. split; [reflexivity|].
    split; [discriminate|]. split; [|discriminate].
    split; [|intros [H _]; discriminate].
    intros Hex. exfalso. apply (Hrun h1 st2); [|exact Hex].
    unfold acquire. unfold bind at 1. rewrite Heq1. unfold truthy.
    apply Z.eqb_neq in Hh1. rewrite Hh1. unfold bind, ret. simpl. now rewrite Hh1.
  - destruct (wait_returns env early (select_new_only l) 10 st2)
      as (r2 & st3 & Heq2 & Hlog3 & _ & Hr2).
    exists r2, st3. split; [exact Heq2|]. split; [reflexivity|].
    assert (Hacq : acquire env early l st1 =
                   match r2 with
                   | Some h => (Ok h, st3)
                   | None => (Raise NoStableMainWindow, st3)
                   end).
    { unfold acquire. unfold bind at 1. rewrite Heq1. simpl.
      unfold bind at 1. rewrite Heq2.
      destruct r2 as [h2|]; [|reflexivity].
      destruct Hr2 as (_ & _ & Hh2). unfold truthy.
      apply Z.eqb_neq in Hh2. rewrite Hh2. reflexivity. }
    assert (Hfail : r2 = None ->
              run_headless env early exe idx mode obs st0 = (Raise NoStableMainWindow, st3)).
    { intros ->. unfold run_headless. unfold bind at 1. rewrite Hlaunch.
      unfold bind at 1. now rewrite Hacq. }
    split; [intros _ ->; lia|]. split.
    + split.
      * intros Hex. split; [reflexivity|]. destruct r2 as [h2|]; [|reflexivity].
        exfalso. exact (Hrun h2 st3 Hacq Hex).
      * intros [_ Hr]. exists st3. now apply Hfail.
    + intros _ Hr. split; [now apply Hfail|]. congruence.
Qed.

Definition bare_launched : Launched :=
  mkLaunched 11 {[ 100 ]} {[ 4242 ]} "notepad.exe".

Definition bare_after_launch : World :=
  mkWorld 750 [explorer] 100 [CPopen "C:\apps\Notepad.exe"].

Lemma run_headless_fallback_witness :
  launch quiet_env "C:\apps\Notepad.exe" 1 bare_desk = (Ok bare_launched, bare_after_launch) /\
  exists r1 st2,
    wait_for_stable_window quiet_env true (select bare_launched) WAIT_TIMEOUT_SEC
      bare_after_launch = (Ok r1, st2) /\
    (r1 = None -> now bare_after_launch + 45000 <= now st2) /\
    exists r2 st3,
      match r1 with
      | None => wait_for_stable_window quiet_env true (select_new_only bare_launched) 10 st2
      | Some _ => (Ok r1, st2)
      end = (Ok r2, st3) /\
      (forall st, select_new_only bare_launched st =
                  pick_best_window_by None None (Some (before bare_launched)) (wins st)) /\
      (r1 = None -> r2 = None -> now st2 + 10000 <= now st3) /\
      ((exists st', run_headless quiet_env true "C:\apps\Notepad.exe" 1 "maximize" 4 bare_desk
                    = (Raise NoStableMainWindow, st')) <-> r1 = None /\ r2 = None) /\
      (r1 = None -> r2 = None ->
         run_headless quiet_env true "C:\apps\Notepad.exe" 1 "maximize" 4 bare_desk
           = (Raise NoStableMainWindow, st3) /\
         log st3 = log bare_desk ++ [CPopen "C:\apps\Notepad.exe"]).
Proof.
  assert (H : launch quiet_env "C:\apps\Notepad.exe" 1 bare_desk
              = (Ok bare_launched, bare_after_launch)) by (vm_compute; reflexivity).
  split; [exact H|].
  exact (run_headless_fallback quiet_env true "C:\apps\Notepad.exe" "maximize" 1 4
           bare_desk bare_after_launch bare_launched H).
Defined.

(** On that desktop both attempts time out and the run fails, 55.75
    seconds after it started, having issued the spawn only. *)
Example run_headless_no_window :
  run_headless quiet_env true "C:\apps\Notepad.exe" 1 "maximize" 4 bare_desk =
  (Raise NoStableMainWindow,
   mkWorld 55750 [explorer] 100 [CPopen "C:\apps\Notepad.exe"]).
Proof. vm_compute. reflexivity. Qed.

(** ** The model never runs out of fuel *)

Lemma launch_returns (env : Env) (exe : string) (idx : Z) (st : World) :
  fst (launch env exe idx st) <> OutOfFuel.
Proof.
  unfold launch. destruct (enum_monitors_sorted env) as [|m ms]; [discriminate|].
  destruct ((idx <? 0) || _); [discriminate|].
  unfold bind at 1, list_top_windows. cbv beta iota.
  unfold bind at 1. cbv beta iota.
  destruct (popen env exe) as [pid|]; [|discriminate].
  destruct (negb (psutil_ok env pid)); [discriminate|].
  unfold bind.
  destruct (discover_children_log env 15 pid {[ pid ]} (add_log (CPopen exe) st))
    as (ps' & st' & Heq & _).
  rewrite Heq. discriminate.
Qed.

Lemma acquire_returns (env : Env) (early : bool) (l : Launched) (st : World) :
  fst (acquire env early l st) <> OutOfFuel.
Proof.
  unfold acquire. unfold bind at 1.
  destruct (wait_returns env early (select l) WAIT_TIMEOUT_SEC st) as (r1 & st1 & Heq1 & _).
  rewrite Heq1. unfold bind at 1.
  destruct (negb (truthy r1)).
  - destruct (wait_returns env early (select_new_only l) 10 st1) as (r2 & st2 & Heq2 & _).
    rewrite Heq2. destruct (negb (truthy r2)); discriminate.
  - unfold ret. destruct (negb (truthy r1)); discriminate.
Qed.

(** [run_headless] returns or raises for every environment and desktop. *)
Lemma run_headless_returns (env : Env) (early : bool) (exe mode : string) (idx obs : Z)
    (st : World) :
  fst (run_headless env early exe idx mode obs st) <> OutOfFuel.
Proof.
  unfold run_headless. unfold bind at 1.
  pose proof (launch_returns env exe idx st) as Hl.
  destruct (launch env exe idx st) as [[l|e|] st1]; simpl in *; try discriminate;
    [|congruence].
  unfold bind at 1.
  pose proof (acquire_returns env early l st1) as Ha.
  destruct (acquire env early l st1) as [[h|e|] st2]; simpl in *; try discriminate;
    [|congruence].
  pose proof (place_and_watch_raises env h (hmon_target l) mode obs st2) as Hp.
  intros Heq. rewrite Heq in Hp. exact Hp.
Qed.

(** The command line always ends with an exit code or hands over to the
    graphical front end. *)
Lemma main_exits (env : Env) (parsed : Parsed) (st : World) :
  fst (main env parsed st) <> NoExit.
Proof.
  unfold main. destruct parsed as [code|args]; [discriminate|].
  destruct (str_truthy (arg_exe args)); [|discriminate].
  destruct (negb (isfile env _)); [discriminate|].
  destruct (arg_monitor args) as [m|]; [|discriminate].
  pose proof (run_headless_returns env EARLY_MOVE_ON_DETECT
                (abspath env (match arg_exe args with Some e => e | None => EmptyString end))
                (arg_mode args) m (arg_observe args) st) as Hr.
  destruct (run_headless _ _ _ _ _ _ _) as [[[]|e|] st']; simpl in *;
    try discriminate. congruence.
Qed.

(** ** The relaxed attempt on an empty snapshot *)

(** A desktop without any window. *)
Definition empty_desk : World := mkWorld 0 [] 0 [].

(** C10: with an empty pre-launch snapshot and neither a process-ID set
    nor an executable name, no window is credited any score and the scan
    returns none whatever windows are visible; so when no window was visible
    before launch, the relaxed acquisition attempt returns none under either
    policy, whatever appears on the desktop. *)
Theorem relaxed_scan_empty_snapshot :
  (forall w, score None None (Some ∅) w = 0) /\
  (forall ws, pick_best_window_by None None (Some ∅) ws = None) /\
  (forall env early exe idx st0 l st1,
      launch env exe idx st0 = (Ok l, st1) ->
      List.filter visible (wins st0) = [] ->
      forall st, exists st',
        wait_for_stable_window env early (select_new_only l) 10 st = (Ok None, st')).
Proof.
  split; [reflexivity|]. split; [exact pick_best_no_signal|].
  intros env early exe idx st0 l st1 Hl Hvis st.
  apply relaxed_wait_none.
  destruct (launch_ok env exe idx st0 st1 l Hl) as [_ Hb].
  rewrite Hb, Hvis. reflexivity.
Qed.

Lemma relaxed_scan_empty_snapshot_witness :
  launch quiet_env "C:\apps\Notepad.exe" 1 empty_desk =
    (Ok (mkLaunched 11 ∅ {[ 4242 ]} "notepad.exe"),
     mkWorld 750 [] 0 [CPopen "C:\apps\Notepad.exe"]) /\
  List.filter visible (wins empty_desk) = [] /\
  exists st',
    wait_for_stable_window quiet_env true
      (select_new_only (mkLaunched 11 ∅ {[ 4242 ]} "notepad.exe")) 10 desk0 = (Ok None, st').
Proof.
  assert (H1 : launch quiet_env "C:\apps\Notepad.exe" 1 empty_desk =
               (Ok (mkLaunched 11 ∅ {[ 4242 ]} "notepad.exe"),
                mkWorld 750 [] 0 [CPopen "C:\apps\Notepad.exe"]))
    by (vm_compute; reflexivity).
  assert (H2 : List.filter visible (wins empty_desk) = []) by reflexivity.
  split; [exact H1|]. split; [exact H2|].
  exact (proj2 (proj2 relaxed_scan_empty_snapshot) quiet_env true
           "C:\apps\Notepad.exe"%string 1 empty_desk _ _ H1 H2 desk0).
Defined.

(** * Further properties of the code *)

(** ** Monitor directory *)

(** Sort key [(x[1][0], x[1][1])] of a monitor. *)
Definition mon_key (m : Monitor) : Z * Z := (left (mrect m), top (mrect m)).

(** Ascending order of the monitor keys along a list. *)
Fixpoint mons_sorted (l : list Monitor) : Prop :=
  match l with
  | [] => True
  | m :: r => (forall m', In m' r -> mon_key_le m m' = true) /\ mons_sorted r
  end.

Lemma mon_key_le_total (a b : Monitor) : mon_key_le a b = false -> mon_key_le b a = true.
Proof.
  unfold mon_key_le. rewrite orb_false_iff, andb_false_iff, orb_true_iff, andb_true_iff.
  rewrite !Z.ltb_ge, !Z.ltb_lt, Z.eqb_neq, Z.eqb_eq, Z.leb_gt, Z.leb_le. lia.
Qed.

Lemma mon_key_le_trans (a b c : Monitor) :
  mon_key_le a b = true -> mon_key_le b c = true -> mon_key_le a c = true.
Proof.
  unfold mon_key_le. rewrite !orb_true_iff, !andb_true_iff.
  rewrite !Z.ltb_lt, !Z.eqb_eq, !Z.leb_le. lia.
Qed.

Lemma mon_key_le_antisym (a b : Monitor) :
  mon_key_le a b = true -> mon_key_le b a = true -> mon_key a = mon_key b.
Proof.
  unfold mon_key_le, mon_key. rewrite !orb_true_iff, !andb_true_iff.
  rewrite !Z.ltb_lt, !Z.eqb_eq, !Z.leb_le. intros H1 H2. f_equal; lia.
Qed.

Lemma insert_mon_perm (m : Monitor) (l : list Monitor) :
  Permutation (insert_mon m l) (m :: l).
Proof.
  induction l as [|y r IH]; simpl; [reflexivity|].
  destruct (mon_key_le m y); [reflexivity|].
  rewrite IH. apply perm_swap.
Qed.

Lemma insert_mon_sorted (m : Monitor) (l : list Monitor) :
  mons_sorted l -> mons_sorted (insert_mon m l).
Proof.
  induction l as [|y r IH]; simpl.
  - intros _. split; [intros m' []|exact I].
  - intros [Hy Hr]. destruct (mon_key_le m y) eqn:E; simpl.
    + split; [|split; assumption].
      intros m' [<-|Hin]; [exact E|].
      eapply mon_key_le_trans; [exact E|]. now apply Hy.
    + split; [|now apply IH].
      intros m' Hin.
      apply (Permutation_in _ (insert_mon_perm m r)) in Hin.
      destruct Hin as [<-|Hin]; [now apply mon_key_le_total|now apply Hy].
Qed.

Lemma enum_monitors_sorted_perm (env : Env) :
  Permutation (enum_monitors_sorted env) (monitors env).
Proof.
  unfold enum_monitors_sorted. induction (monitors env) as [|m l IH]; simpl; [reflexivity|].
  rewrite insert_mon_perm. now constructor.
Qed.

Lemma enum_monitors_sorted_ordered (env : Env) : mons_sorted (enum_monitors_sorted env).
Proof.
  unfold enum_monitors_sorted. induction (monitors env) as [|m l IH]; simpl; [exact I|].
  now apply insert_mon_sorted.
Qed.

(** X1: the monitor list returned by [enum_monitors_sorted] holds exactly
    the enumerated monitors, each as often as enumerated, in ascending
    order of (left, top). *)
Theorem enum_monitors_sorted_spec (env : Env) :
  Permutation (enum_monitors_sorted env) (monitors env) /\
  mons_sorted (enum_monitors_sorted env) /\
  forall i j a b,
    nth_error (enum_monitors_sorted env) i = Some a ->
    nth_error (enum_monitors_sorted env) j = Some b ->
    (i < j)%nat ->
    left (mrect a) < left (mrect b) \/
    (left (mrect a) = left (mrect b) /\ top (mrect a) <= top (mrect b)).
Proof.
  split; [apply enum_monitors_sorted_perm|]. split; [apply enum_monitors_sorted_ordered|].
  pose proof (enum_monitors_sorted_ordered env) as Hs.
  induction (enum_monitors_sorted env) as [|m l IH]; intros i j a b Hi Hj Hlt.
  - destruct i; discriminate.
  - destruct Hs as [Hm Hl]. destruct j as [|j]; [lia|]. simpl in Hj.
    destruct i as [|i]; simpl in Hi.
    + inversion Hi; subst a. apply nth_error_In in Hj. specialize (Hm b Hj).
      unfold mon_key_le in Hm. rewrite orb_true_iff, andb_true_iff in Hm.
      rewrite Z.ltb_lt, Z.eqb_eq, Z.leb_le in Hm. exact Hm.
    + apply (IH Hl i j a b Hi Hj). lia.
Qed.

Lemma mons_sorted_unique (l1 l2 : list Monitor) :
  mons_sorted l1 -> mons_sorted l2 -> Permutation l1 l2 ->
  (forall a b, In a l1 -> In b l1 -> mon_key a = mon_key b -> a = b) ->
  l1 = l2.
Proof.
  revert l2. induction l1 as [|a l1 IH]; intros l2 H1 H2 Hp Hinj.
  - apply Permutation_nil in Hp. now subst.
  - destruct l2 as [|b l2]; [apply Permutation_sym, Permutation_nil in Hp; discriminate|].
    destruct H1 as [Ha H1]. destruct H2 as [Hb H2].
    assert (Hab : a = b).
    { assert (Hin_a : In a (b :: l2)) by (eapply Permutation_in; [exact Hp|now left]).
      assert (Hin_b : In b (a :: l1))
        by (eapply Permutation_in; [apply Permutation_sym; exact Hp|now left]).
      destruct Hin_a as [->|Hin_a]; [reflexivity|].
      destruct Hin_b as [->|Hin_b]; [reflexivity|].
      apply Hinj; [now left|now right|].
      apply mon_key_le_antisym; [now apply Ha|now apply Hb]. }
    subst b. f_equal. apply IH; auto.
    + now apply Permutation_cons_inv in Hp.
    + intros x y Hx Hy. apply Hinj; now right.
Qed.

(** X2: when no two monitors share a top-left corner, the sorted list,
    and so every monitor index, does not depend on the order in which the
    system enumerates the monitors. *)
Theorem enum_monitors_sorted_order_independent (e1 e2 : Env) :
  Permutation (monitors e1) (monitors e2) ->
  (forall a b, In a (monitors e1) -> In b (monitors e1) -> mon_key a = mon_key b -> a = b) ->
  enum_monitors_sorted e1 = enum_monitors_sorted e2.
Proof.
  intros Hp Hinj. apply mons_sorted_unique.
  - apply enum_monitors_sorted_ordered.
  - apply enum_monitors_sorted_ordered.
  - rewrite !enum_monitors_sorted_perm. exact Hp.
  - intros a b Ha Hb. apply Hinj.
    + eapply Permutation_in; [apply enum_monitors_sorted_perm|exact Ha].
    + eapply Permutation_in; [apply enum_monitors_sorted_perm|exact Hb].
Qed.

(** The two monitors of [quiet_env], enumerated right to left. *)
Definition swapped_env : Env :=
  mkEnv [mon1; mon0] None (1920, 1080) (nearest_by_centre [mon0; mon1])
    (fun p => p) (fun _ => true) (fun _ => Some 4242) (fun _ => true)
    (fun _ _ => Some []) (fun st => st).

Lemma enum_monitors_sorted_order_independent_witness :
  Permutation (monitors quiet_env) (monitors swapped_env) /\
  (forall a b, In a (monitors quiet_env) -> In b (monitors quiet_env) ->
               mon_key a = mon_key b -> a = b) /\
  enum_monitors_sorted quiet_env = enum_monitors_sorted swapped_env.
Proof.
  assert (H1 : Permutation (monitors quiet_env) (monitors swapped_env)) by apply perm_swap.
  assert (H2 : forall a b, In a (monitors quiet_env) -> In b (monitors quiet_env) ->
                           mon_key a = mon_key b -> a = b).
  { intros a b [<-|[<-|[]]] [<-|[<-|[]]] H; try reflexivity; vm_compute in H; discriminate. }
  split; [exact H1|]. split; [exact H2|].
  exact (enum_monitors_sorted_order_independent quiet_env swapped_env H1 H2).
Defined.

(** ** Rectangle comparison *)

Lemma edges_differ_sym (tol : Z) (a b : Rect) : edges_differ tol a b = edges_differ tol b a.
Proof.
  unfold edges_differ.
  replace (Z.abs (left a - left b)) with (Z.abs (left b - left a)) by lia.
  replace (Z.abs (top a - top b)) with (Z.abs (top b - top a)) by lia.
  replace (Z.abs (right a - right b)) with (Z.abs (right b - right a)) by lia.
  replace (Z.abs (bottom a - bottom b)) with (Z.abs (bottom b - bottom a)) by lia.
  reflexivity.
Qed.

(** X3: [rect_changed] does not depend on the order of its arguments, and
    it reports no change exactly when both rectangles are present and every
    edge differs by at most 3 pixels. *)
Theorem rect_changed_spec (a b : option Rect) :
  rect_changed a b = rect_changed b a /\
  (rect_changed a b = false <->
   exists ra rb, a = Some ra /\ b = Some rb /\
     Z.abs (left ra - left rb) <= 3 /\ Z.abs (top ra - top rb) <= 3 /\
     Z.abs (right ra - right rb) <= 3 /\ Z.abs (bottom ra - bottom rb) <= 3).
Proof.
  split.
  - destruct a as [ra|], b as [rb|]; simpl; try reflexivity. apply edges_differ_sym.
  - destruct a as [ra|], b as [rb|]; simpl;
      try (split; [discriminate|intros (x & y & H1 & H2 & _); discriminate]).
    unfold edges_differ, RECT_TOL. rewrite !orb_false_iff, !Z.ltb_ge. split.
    + intros H. exists ra, rb. repeat split; tauto.
    + intros (x & y & H1 & H2 & H). inversion H1; inversion H2; subst. tauto.
Qed.

(** ** Candidate scanner: priorities and tie-break *)

Lemma owned_dec (ps : option (gset Z)) (w : Window) : owned ps w \/ ~ owned ps w.
Proof.
  rewrite <- owned_reflect. destruct (set_truthy ps && pid_in (hwnd_pid w) ps); auto.
Qed.

Lemma name_matches_dec (eb : option string) (w : Window) :
  name_matches eb w \/ ~ name_matches eb w.
Proof.
  rewrite <- name_matches_reflect.
  destruct (str_truthy eb && name_is (hwnd_exe_name w) eb); auto.
Qed.

Lemma score_owned_bounds (ps : option (gset Z)) (eb : option string)
    (sh : option (gset Z)) (w : Window) :
  (owned ps w -> 1000 <= score ps eb sh w) /\
  (~ owned ps w -> score ps eb sh w <= 700) /\
  (~ owned ps w -> name_matches eb w -> 500 <= score ps eb sh w) /\
  (~ owned ps w -> ~ name_matches eb w -> score ps eb sh w <= 200).
Proof.
  destruct (score_signals ps eb sh w) as (b1 & b2 & b3 & H1 & H2 & H3 & ->).
  destruct b1, b2, b3; repeat split; intros; try lia;
    try (exfalso; intuition congruence).
Qed.

(** X4: the three signals are strict priorities. If some filtered
    window belongs to the owned-process-ID set, so does the selected one; if
    none does but some filtered window matches the expected name, so does
    the selected one. *)
Theorem pick_best_priorities (ps : option (gset Z)) (eb : option string)
    (sh : option (gset Z)) (ws : list Window) (h : Z) :
  pick_best_window_by ps eb sh ws = Some h ->
  exists w, In w ws /\ hwnd w = h /\ passes_filters w = true /\
    ((exists w', In w' ws /\ passes_filters w' = true /\ owned ps w') -> owned ps w) /\
    ((forall w', In w' ws -> passes_filters w' = true -> ~ owned ps w') ->
     (exists w', In w' ws /\ passes_filters w' = true /\ name_matches eb w') ->
     name_matches eb w).
Proof.
  intros Hpick. destruct (pick_best_some ps eb sh ws h Hpick)
    as (w & Hin & Hh & Hp & Hpos & Hbest).
  exists w. split; [exact Hin|]. split; [exact Hh|]. split; [exact Hp|]. split.
  - intros (w' & Hin' & Hp' & Ho').
    destruct (score_owned_bounds ps eb sh w') as (Hlo & _).
    destruct (score_owned_bounds ps eb sh w) as (_ & Hhi & _).
    specialize (Hlo Ho').
    destruct (Hbest w' Hin' Hp' ltac:(lia)) as [Hlt|[Heq _]];
      destruct (owned_dec ps w) as [Ho|Hno]; auto; specialize (Hhi Hno); lia.
  - intros Hnone (w' & Hin' & Hp' & Hn').
    destruct (score_owned_bounds ps eb sh w') as (_ & _ & Hlo & _).
    destruct (score_owned_bounds ps eb sh w) as (_ & _ & _ & Hhi).
    specialize (Hlo (Hnone w' Hin' Hp') Hn').
    destruct (Hbest w' Hin' Hp' ltac:(lia)) as [Hlt|[Heq _]];
      destruct (name_matches_dec eb w) as [Hn|Hnn]; auto;
      specialize (Hhi (Hnone w Hin Hp) Hnn); lia.
Qed.

Lemma pick_best_priorities_witness :
  pick_best_window_by (Some {[ 4242 ]}) (Some "notepad.exe"%string) (Some {[ 100 ]})
    [explorer; notepad] = Some 200 /\
  exists w, In w [explorer; notepad] /\ hwnd w = 200 /\ passes_filters w = true /\
    ((exists w', In w' [explorer; notepad] /\ passes_filters w' = true /\
                 owned (Some {[ 4242 ]}) w') -> owned (Some {[ 4242 ]}) w) /\
    ((forall w', In w' [explorer; notepad] -> passes_filters w' = true ->
                 ~ owned (Some {[ 4242 ]}) w') ->
     (exists w', In w' [explorer; notepad] /\ passes_filters w' = true /\
                 name_matches (Some "notepad.exe"%string) w') ->
     name_matches (Some "notepad.exe"%string) w).
Proof.
  assert (H : pick_best_window_by (Some {[ 4242 ]}) (Some "notepad.exe"%string)
                (Some {[ 100 ]}) [explorer; notepad] = Some 200) by reflexivity.
  split; [exact H|].
  exact (pick_best_priorities _ _ _ _ _ H).
Defined.

(** The head of the sorted candidates is the first candidate, in
    enumeration order, that none orders above. *)
Lemma sort_desc_first_best (l : list Candidate) (c : Candidate) (r : list Candidate) :
  sort_desc l = c :: r ->
  exists pre post, l = pre ++ c :: post /\
    (forall c', In c' pre -> key_lt c' c = true) /\
    (forall c', In c' post -> key_lt c c' = false).
Proof.
  revert c r. induction l as [|x l' IH]; intros c r; simpl; [discriminate|].
  destruct (sort_desc l') as [|y r'] eqn:Hs.
  - apply sort_desc_nil in Hs. subst l'. simpl. intros H; inversion H; subst.
    exists [], []. repeat split; intros c' [].
  - destruct (IH y r' eq_refl) as (pre & post & Hl & Hpre & Hpost). simpl.
    destruct (key_lt x y) eqn:Hxy; intros H; inversion H; subst.
    + exists (x :: pre), post. split; [reflexivity|]. split; [|exact Hpost].
      intros c' [<-|Hc']; [exact Hxy|now apply Hpre].
    + exists [], (pre ++ y :: post). split; [reflexivity|]. split; [intros c' []|].
      destruct (sort_desc_head _ _ _ Hs) as [_ Hbest].
      intros c' Hc'. eapply key_ge_trans; [exact Hxy|]. now apply Hbest.
Qed.

Lemma candidates_app (ps : option (gset Z)) (eb : option string) (sh : option (gset Z))
    (a b : list Window) :
  candidates ps eb sh (a ++ b) = candidates ps eb sh a ++ candidates ps eb sh b.
Proof.
  induction a as [|w a IH]; simpl; [reflexivity|].
  destruct (passes_filters w); [|exact IH].
  destruct (0 <? score ps eb sh w); [|exact IH]. simpl. now rewrite IH.
Qed.

Lemma candidates_split (ps : option (gset Z)) (eb : option string) (sh : option (gset Z))
    (ws : list Window) (pre post : list Candidate) (c : Candidate) :
  candidates ps eb sh ws = pre ++ c :: post ->
  exists wpre w wpost, ws = wpre ++ w :: wpost /\
    candidates ps eb sh wpre = pre /\ candidates ps eb sh wpost = post /\
    passes_filters w = true /\ 0 < score ps eb sh w /\
    c = (score ps eb sh w, area w, hwnd w).
Proof.
  revert pre. induction ws as [|w ws IH]; intros pre; simpl.
  - destruct pre; discriminate.
  - destruct (passes_filters w) eqn:Hp.
    + destruct (0 <? score ps eb sh w) eqn:Hs.
      * destruct pre as [|p pre]; simpl; intros H; inversion H; subst.
        -- exists [], w, ws. apply Z.ltb_lt in Hs. repeat split; auto.
        -- destruct (IH pre H2) as (wpre & w' & wpost & -> & Hpre & Hpost & Hrest).
           exists (w :: wpre), w', wpost. split; [reflexivity|]. split; [|tauto].
           simpl. rewrite Hp, Hs, Hpre. reflexivity.
      * intros H. destruct (IH pre H) as (wpre & w' & wpost & -> & Hpre & Hpost & Hrest).
        exists (w :: wpre), w', wpost. split; [reflexivity|]. split; [|tauto].
        simpl. now rewrite Hp, Hs.
    + intros H. destruct (IH pre H) as (wpre & w' & wpost & -> & Hpre & Hpost & Hrest).
      exists (w :: wpre), w', wpost. split; [reflexivity|]. split; [|tauto].
      simpl. now rewrite Hp.
Qed.

(** X5: among filtered windows of positive score that tie on score and
    area, the scan returns the one enumerated first: every eligible window
    enumerated before the selected one has a strictly lower score, or the
    same score and a strictly smaller area. *)
Theorem pick_best_first_among_ties (ps : option (gset Z)) (eb : option string)
    (sh : option (gset Z)) (ws : list Window) (h : Z) :
  pick_best_window_by ps eb sh ws = Some h ->
  exists wpre w wpost, ws = wpre ++ w :: wpost /\ hwnd w = h /\
    passes_filters w = true /\ 0 < score ps eb sh w /\
    (forall w', In w' wpre -> passes_filters w' = true -> 0 < score ps eb sh w' ->
       score ps eb sh w' < score ps eb sh w \/
       (score ps eb sh w' = score ps eb sh w /\ area w' < area w)) /\
    (forall w', In w' wpost -> passes_filters w' = true -> 0 < score ps eb sh w' ->
       score ps eb sh w' < score ps eb sh w \/
       (score ps eb sh w' = score ps eb sh w /\ area w' <= area w)).
Proof.
  unfold pick_best_window_by.
  destruct (sort_desc (candidates ps eb sh ws)) as [|c r] eqn:Hs; [discriminate|].
  intros Heq. inversion Heq; subst h. clear Heq.
  destruct (sort_desc_first_best _ _ _ Hs) as (pre & post & Hl & Hpre & Hpost).
  destruct (candidates_split ps eb sh ws pre post c Hl)
    as (wpre & w & wpost & -> & Hcpre & Hcpost & Hp & Hpos & ->).
  exists wpre, w, wpost. repeat split; auto.
  - intros w' Hin Hp' Hpos'.
    assert (Hc : In (score ps eb sh w', area w', hwnd w') pre).
    { rewrite <- Hcpre. apply candidates_In. exists w'. auto. }
    specialize (Hpre _ Hc). unfold key_lt, cscore, carea in Hpre. simpl in Hpre.
    rewrite orb_true_iff, andb_true_iff, !Z.ltb_lt, Z.eqb_eq in Hpre. lia.
  - intros w' Hin Hp' Hpos'.
    assert (Hc : In (score ps eb sh w', area w', hwnd w') post).
    { rewrite <- Hcpost. apply candidates_In. exists w'. auto. }
    specialize (Hpost _ Hc). unfold key_lt, cscore, carea in Hpost. simpl in Hpost.
    rewrite orb_false_iff, andb_false_iff, !Z.ltb_ge, Z.eqb_neq in Hpost. lia.
Qed.

Lemma pick_best_first_among_ties_witness :
  pick_best_window_by None None (Some {[ 1 ]}) [explorer; notepad] = Some 100 /\
  exists wpre w wpost, [explorer; notepad] = wpre ++ w :: wpost /\ hwnd w = 100 /\
    passes_filters w = true /\ 0 < score None None (Some {[ 1 ]}) w /\
    (forall w', In w' wpre -> passes_filters w' = true ->
       0 < score None None (Some {[ 1 ]}) w' ->
       score None None (Some {[ 1 ]}) w' < score None None (Some {[ 1 ]}) w \/
       (score None None (Some {[ 1 ]}) w' = score None None (Some {[ 1 ]}) w /\
        area w' < area w)) /\
    (forall w', In w' wpost -> passes_filters w' = true ->
       0 < score None None (Some {[ 1 ]}) w' ->
       score None None (Some {[ 1 ]}) w' < score None None (Some {[ 1 ]}) w \/
       (score None None (Some {[ 1 ]}) w' = score None None (Some {[ 1 ]}) w /\
        area w' <= area w)).
Proof.
  assert (H : pick_best_window_by None None (Some {[ 1 ]}) [explorer; notepad] = Some 100)
    by reflexivity.
  split; [exact H|].
  exact (pick_best_first_among_ties _ _ _ _ _ H).
Defined.

(** X6: windows that fail a filter (hidden, not of main style, rectangle
    unreadable or under 200 x 150) and windows without any signal have no
    influence on the scan: removing them, wherever they stand in the
    enumeration, leaves the result unchanged. *)
Theorem pick_best_ignores_ineligible (ps : option (gset Z)) (eb : option string)
    (sh : option (gset Z)) (ws : list Window) :
  pick_best_window_by ps eb sh ws =
  pick_best_window_by ps eb sh
    (List.filter (fun w => passes_filters w && (0 <? score ps eb sh w)) ws).
Proof.
  assert (H : candidates ps eb sh
                (List.filter (fun w => passes_filters w && (0 <? score ps eb sh w)) ws) =
              candidates ps eb sh ws).
  { induction ws as [|w ws IH]; simpl; [reflexivity|].
    destruct (passes_filters w) eqn:Hp; simpl.
    - destruct (0 <? score ps eb sh w) eqn:Hs; simpl; [|exact IH].
      rewrite Hp, Hs. now rewrite IH.
    - exact IH. }
  unfold pick_best_window_by. now rewrite H.
Qed.

(** X7: scoring is monotonic in the signals: a window showing every
    signal another window shows never scores lower, and a window of the
    owned process tree outscores every window outside it. *)
Theorem score_monotonic (ps : option (gset Z)) (eb : option string)
    (sh : option (gset Z)) (w w' : Window) :
  ((owned ps w -> owned ps w') -> (name_matches eb w -> name_matches eb w') ->
   (novel sh w -> novel sh w') -> score ps eb sh w <= score ps eb sh w') /\
  (owned ps w' -> ~ owned ps w -> score ps eb sh w < score ps eb sh w').
Proof.
  destruct (score_signals ps eb sh w) as (b1 & b2 & b3 & H1 & H2 & H3 & ->).
  destruct (score_signals ps eb sh w') as (c1 & c2 & c3 & G1 & G2 & G3 & ->).
  split.
  - intros Ho Hn Hv.
    assert (b1 = true -> c1 = true) by tauto.
    assert (b2 = true -> c2 = true) by tauto.
    assert (b3 = true -> c3 = true) by tauto.
    destruct b1, b2, b3, c1, c2, c3; try lia; exfalso; intuition congruence.
  - intros Ho Hno.
    assert (c1 = true) by tauto. assert (b1 <> true) by tauto.
    destruct b1, b2, b3, c1, c2, c3; try lia; congruence.
Qed.

(** ** Executable names *)

(** An ASCII upper-case letter, A to Z. *)
Definition is_upper (c : ascii) : bool :=
  let n := nat_of_ascii c in ((65 <=? n) && (n <=? 90))%nat.

Fixpoint has_upper (s : string) : bool :=
  match s with
  | EmptyString => false
  | String c s' => is_upper c || has_upper s'
  end.

Lemma lower_ascii_not_upper (c : ascii) : is_upper (lower_ascii c) = false.
Proof.
  destruct c as [b0 b1 b2 b3 b4 b5 b6 b7].
  destruct b0, b1, b2, b3, b4, b5, b6, b7; reflexivity.
Qed.

Lemma lower_no_upper (s : string) : has_upper (lower s) = false.
Proof.
  induction s as [|c s IH]; simpl; [reflexivity|].
  now rewrite lower_ascii_not_upper, IH.
Qed.

Lemma hwnd_exe_name_no_upper (w : Window) : has_upper (hwnd_exe_name w) = false.
Proof.
  unfold hwnd_exe_name. destruct (hwnd_pid w) as [p|]; [|reflexivity].
  destruct (p =? 0); [reflexivity|].
  destruct (proc_name w); [apply lower_no_upper|reflexivity].
Qed.

(** X8: the executable name [hwnd_exe_name] reports never contains an
    ASCII upper-case letter (A to Z); hence an expected name that contains
    one is never matched by the scanner: the name signal is not credited and
    every window scores what it scores with no expected name at all. *)
Theorem exe_name_never_upper (w : Window) :
  has_upper (hwnd_exe_name w) = false /\
  forall e, has_upper e = true ->
    ~ name_matches (Some e) w /\
    forall ps sh, score ps (Some e) sh w = score ps None sh w.
Proof.
  pose proof (hwnd_exe_name_no_upper w) as H.
  split; [exact H|]. intros e He.
  assert (Hne : hwnd_exe_name w <> e) by (intros Heq; rewrite Heq in H; congruence).
  split.
  - intros (e' & Heq & _ & Hname). congruence.
  - intros ps sh. unfold score, name_is.
    apply String.eqb_neq in Hne. rewrite Hne, andb_false_r. reflexivity.
Qed.

(** ** The pre-launch snapshot *)

Lemma list_top_windows_In (ws : list Window) (h : Z) :
  h ∈ (list_to_set (List.map hwnd (List.filter visible ws)) : gset Z) <->
  exists w, In w ws /\ visible w = true /\ hwnd w = h.
Proof.
  rewrite elem_of_list_to_set, list_elem_of_In, in_map_iff. split.
  - intros (w & Hh & Hin). apply filter_In in Hin. exists w. tauto.
  - intros (w & Hin & Hv & Hh). exists w. split; [exact Hh|]. apply filter_In. auto.
Qed.

(** X9: the relaxed scan of a run never returns a window that was
    visible when the executable was launched. *)
Theorem select_new_only_excludes_snapshot (env : Env) (exe : string) (idx : Z)
    (st0 st1 : World) (l : Launched) (st : World) (h : Z) :
  launch env exe idx st0 = (Ok l, st1) ->
  select_new_only l st = Some h ->
  forall w, In w (wins st0) -> visible w = true -> hwnd w <> h.
Proof.
  intros Hl Hsel w Hin Hv Hh.
  destruct (launch_ok env exe idx st0 st1 l Hl) as [_ Hb].
  unfold select_new_only in Hsel.
  destruct (pick_best_some _ _ _ _ _ Hsel) as (w' & _ & Hh' & _ & Hpos & _).
  destruct (score_signals None None (Some (before l)) w')
    as (b1 & b2 & b3 & H1 & H2 & H3 & Hs).
  assert (Hb1 : b1 = false).
  { destruct b1; [|reflexivity]. destruct (proj1 H1 eq_refl) as (s & p & Hn & _).
    discriminate. }
  assert (Hb2 : b2 = false).
  { destruct b2; [|reflexivity]. destruct (proj1 H2 eq_refl) as (e & Hn & _).
    discriminate. }
  subst b1 b2. destruct b3; [|lia].
  destruct (proj1 H3 eq_refl) as (s & Hs' & _ & Hnot). inversion Hs'; subst s.
  apply Hnot. rewrite Hb. apply list_top_windows_In. exists w. repeat split; auto.
  congruence.
Qed.

(** A desktop on which a new qualifying window has appeared beside
    explorer. *)
Definition new_window : Window :=
  mkWindow 300 true (Some (WS_OVERLAPPEDWINDOW, 0)) (Some (mkRect 50 50 850 650))
    (Some 5555) (Some "other.exe"%string) 1 (mkRect 50 50 850 650).

Lemma select_new_only_excludes_snapshot_witness :
  launch quiet_env "C:\apps\Notepad.exe" 1 bare_desk = (Ok bare_launched, bare_after_launch) /\
  select_new_only bare_launched (mkWorld 800 [explorer; new_window] 100 []) = Some 300 /\
  forall w, In w (wins bare_desk) -> visible w = true -> hwnd w <> 300.
Proof.
  assert (H1 : launch quiet_env "C:\apps\Notepad.exe" 1 bare_desk
               = (Ok bare_launched, bare_after_launch)) by (vm_compute; reflexivity).
  assert (H2 : select_new_only bare_launched (mkWorld 800 [explorer; new_window] 100 [])
               = Some 300) by (vm_compute; reflexivity).
  split; [exact H1|]. split; [exact H2|].
  exact (select_new_only_excludes_snapshot quiet_env "C:\apps\Notepad.exe" 1
           bare_desk bare_after_launch bare_launched _ 300 H1 H2).
Defined.

(** ** Acquisition: first detection, time bounds, no side effect *)

(** The world after [k] poll intervals. *)
Fixpoint after_polls (env : Env) (k : nat) (st : World) : World :=
  match k with
  | O => st
  | S k' => after_polls env k' (tick env st)
  end.

Lemma after_polls_now (env : Env) (k : nat) (st : World) :
  now (after_polls env k st) = now st + POLL_INTERVAL_MS * Z.of_nat k.
Proof.
  revert st. induction k as [|k IH]; intros st; simpl; [lia|].
  rewrite IH. unfold tick, sleep. simpl. lia.
Qed.

Lemma after_polls_log (env : Env) (k : nat) (st : World) :
  log (after_polls env k st) = log st.
Proof.
  revert st. induction k as [|k IH]; intros st; simpl; [reflexivity|].
  now rewrite IH.
Qed.

Lemma early_loop_first (env : Env) (sel : World -> option Z) (deadline : Z)
    (fuel : nat) (st : World) :
  (polls_left deadline st < fuel)%nat ->
  exists r k,
    early_loop env fuel sel deadline st = (Ok r, after_polls env k st) /\
    (forall j, (j < k)%nat ->
       now (after_polls env j st) < deadline /\ truthy (sel (after_polls env j st)) = false) /\
    match r with
    | Some h => sel (after_polls env k st) = Some h /\ h <> 0 /\
                now (after_polls env k st) < deadline
    | None => deadline <= now (after_polls env k st)
    end.
Proof.
  revert st. induction fuel as [|fuel IH]; intros st Hfuel; [lia|].
  simpl. unfold bind, get. cbv beta iota.
  destruct (now st <? deadline) eqn:Hnow.
  - apply Z.ltb_lt in Hnow.
    destruct (truthy (sel st)) eqn:Ht.
    + exists (sel st), 0%nat. split; [reflexivity|]. split; [intros j Hj; lia|].
      unfold truthy in Ht. simpl. destruct (sel st) as [h|]; [|discriminate].
      apply negb_true_iff, Z.eqb_neq in Ht. repeat split; auto.
    + assert (Hst1 : (polls_left deadline (tick env st) < fuel)%nat).
      { pose proof (polls_left_sleep deadline st (tick env st) Hnow eq_refl). lia. }
      destruct (IH (tick env st) Hst1) as (r & k & Heq & Hbefore & Hr).
      exists r, (S k). split; [exact Heq|]. split; [|exact Hr].
      intros [|j] Hj; simpl; [auto|]. apply Hbefore. lia.
  - apply Z.ltb_ge in Hnow. exists None, 0%nat. split; [reflexivity|].
    split; [intros j Hj; lia|]. exact Hnow.
Qed.

(** X10: under the early-detect policy [wait_for_stable_window] returns
    the handle selected at the first poll, before the deadline, at which the
    scanner selects a window; it returns none only when no poll before the
    deadline selected one, and then the deadline has passed. *)
Theorem wait_early_first_detection (env : Env) (select_fn : World -> option Z)
    (timeout : Z) (st : World) :
  exists r k,
    wait_for_stable_window env true select_fn timeout st = (Ok r, after_polls env k st) /\
    (forall j, (j < k)%nat ->
       now (after_polls env j st) < now st + timeout * 1000 /\
       truthy (select_fn (after_polls env j st)) = false) /\
    match r with
    | Some h => select_fn (after_polls env k st) = Some h /\ h <> 0 /\
                now (after_polls env k st) < now st + timeout * 1000
    | None => now st + timeout * 1000 <= now (after_polls env k st)
    end.
Proof.
  unfold wait_for_stable_window, bind, get. cbv beta iota.
  apply early_loop_first. unfold polls_until, polls_left. lia.
Qed.

Lemma stable_loop_polls (env : Env) (sel : World -> option Z) (deadline : Z)
    (fuel : nat) (a : AcqState) (st : World) :
  (polls_left deadline st < fuel)%nat ->
  exists r k,
    stable_loop env fuel sel deadline a st = (Ok r, after_polls env k st) /\
    (forall j, (j < k)%nat -> now (after_polls env j st) < deadline) /\
    (r = None -> deadline <= now (after_polls env k st)) /\
    (r <> None -> now (after_polls env k st) < deadline).
Proof.
  revert a st. induction fuel as [|fuel IH]; intros a st Hfuel; [lia|].
  simpl. unfold bind, get. cbv beta iota.
  destruct (now st <? deadline) eqn:Hnow.
  - apply Z.ltb_lt in Hnow.
    assert (Hst1 : (polls_left deadline (tick env st) < fuel)%nat).
    { pose proof (polls_left_sleep deadline st (tick env st) Hnow eq_refl). lia. }
    assert (Hnext : forall a',
      exists r k,
        stable_loop env fuel sel deadline a' (tick env st) = (Ok r, after_polls env k st) /\
        (forall j, (j < k)%nat -> now (after_polls env j st) < deadline) /\
        (r = None -> deadline <= now (after_polls env k st)) /\
        (r <> None -> now (after_polls env k st) < deadline)).
    { intros a'. destruct (IH a' (tick env st) Hst1) as (r & k & Heq & Hb & Hr).
      exists r, (S k). split; [exact Heq|]. split; [|exact Hr].
      intros [|j] Hj; simpl; [exact Hnow|]. apply Hb. lia. }
    destruct (truthy (sel st)); cbn [negb]; [|apply Hnext].
    unfold rect at 1. cbv beta iota.
    match goal with |- context [is_stable ?x] => destruct (is_stable x) eqn:Hstab end;
      [|apply Hnext].
    eexists. exists 0%nat. split; [reflexivity|]. split; [intros j Hj; lia|].
    split; [|intros _; exact Hnow].
    intros Hnone. exfalso.
    match type of Hstab with is_stable (stable_update a ?c ?cur) = true =>
      pose proof (stable_update_tracked a c cur Hstab) as Htr end.
    congruence.
  - apply Z.ltb_ge in Hnow. exists None, 0%nat. split; [reflexivity|].
    split; [intros j Hj; lia|]. split; [intros _; exact Hnow|congruence].
Qed.

(** X11: under either policy [wait_for_stable_window] only waits: it
    never raises, the world it leaves is the starting world after a whole
    number of sleeps of one poll interval, the call log is untouched, every
    poll it made was before the deadline, and it returns none only once the
    deadline has passed. *)
Theorem wait_only_waits (env : Env) (early : bool) (select_fn : World -> option Z)
    (timeout : Z) (st : World) :
  exists r k,
    wait_for_stable_window env early select_fn timeout st = (Ok r, after_polls env k st) /\
    log (after_polls env k st) = log st /\
    (forall j, (j < k)%nat -> now (after_polls env j st) < now st + timeout * 1000) /\
    (r = None -> now st + timeout * 1000 <= now (after_polls env k st)).
Proof.
  unfold wait_for_stable_window, bind, get. cbv beta iota. destruct early.
  - destruct (early_loop_first env select_fn (now st + timeout * 1000)
                (polls_until (now st + timeout * 1000) st) st)
      as (r & k & Heq & Hb & Hr); [unfold polls_until, polls_left; lia|].
    exists r, k. split; [exact Heq|]. split; [apply after_polls_log|].
    split; [intros j Hj; now apply Hb|]. intros ->. exact Hr.
  - destruct (stable_loop_polls env select_fn (now st + timeout * 1000)
                (polls_until (now st + timeout * 1000) st) acq_init st)
      as (r & k & Heq & Hb & Hr & _); [unfold polls_until, polls_left; lia|].
    exists r, k. split; [exact Heq|]. split; [apply after_polls_log|].
    split; [exact Hb|exact Hr].
Qed.

(** ** Stability policy: how long a window must have been seen *)

Lemma accumulated_below (n : nat) : (n < 9)%nat -> PrimFloat.leb stable_needed (accumulated n) = false.
Proof.
  intros H. do 9 (destruct n as [|n]; [reflexivity|]). lia.
Qed.

(** The counter is a number [n] of poll intervals, all of them spent since
    the time [t0]; before any rectangle is recorded it cannot grow. *)
Definition counted (t0 : Z) (a : AcqState) (st : World) : Prop :=
  last_rect a = None \/
  exists n, stable_time a = accumulated n /\
            t0 + POLL_INTERVAL_MS * (Z.of_nat n + 1) <= now st.

Lemma counted_later (t0 : Z) (a : AcqState) (st st' : World) :
  now st <= now st' -> counted t0 a st -> counted t0 a st'.
Proof.
  intros Hle [Hn|(n & Hs & Ht)]; [now left|]. right. exists n. split; [exact Hs|lia].
Qed.

Lemma counted_update (env : Env) (t0 : Z) (a : AcqState) (c : Z) (cur : option Rect)
    (st : World) :
  t0 <= now st -> counted t0 a st ->
  counted t0 (stable_update a c cur) (tick env st) /\
  (is_stable (stable_update a c cur) = true -> t0 + 450 <= now st).
Proof.
  intros Ht0 Hc. unfold stable_update.
  destruct (_ || _ || _) eqn:Hreset.
  - split; [|intros H; vm_compute in H; discriminate].
    destruct cur as [r|]; [|now left]. right. exists 0%nat. split; [reflexivity|].
    unfold tick, sleep. simpl. unfold POLL_INTERVAL_MS. lia.
  - destruct Hc as [Hn|(n & Hs & Ht)].
    { rewrite Hn in Hreset. discriminate. }
    split.
    + right. exists (S n). simpl. rewrite Hs. split; [reflexivity|].
      unfold tick, sleep. simpl. unfold POLL_INTERVAL_MS in *. lia.
    + unfold is_stable. simpl. rewrite Hs. intros Hst.
      change (PrimFloat.leb stable_needed (accumulated (S n)) = true) in Hst.
      destruct (Nat.lt_ge_cases (S n) 9) as [Hlt|Hge].
      * rewrite accumulated_below in Hst by exact Hlt. discriminate.
      * unfold POLL_INTERVAL_MS in Ht. lia.
Qed.

Lemma stable_loop_min_time (env : Env) (sel : World -> option Z) (deadline t0 : Z)
    (fuel : nat) (a : AcqState) (st : World) (h : Z) (st' : World) :
  t0 <= now st -> counted t0 a st ->
  stable_loop env fuel sel deadline a st = (Ok (Some h), st') ->
  t0 + 450 <= now st'.
Proof.
  revert a st. induction fuel as [|fuel IH]; intros a st Ht0 Hc; simpl; [discriminate|].
  unfold bind, get. cbv beta iota.
  destruct (now st <? deadline); [|discriminate].
  assert (Ht1 : t0 <= now (tick env st)) by (unfold tick, sleep, POLL_INTERVAL_MS; simpl; lia).
  destruct (truthy (sel st)); cbn [negb].
  - unfold rect at 1. cbv beta iota.
    match goal with |- context [is_stable (stable_update a ?c ?cur)] =>
      destruct (counted_update env t0 a c cur st Ht0 Hc) as [Hc' Hst];
      destruct (is_stable (stable_update a c cur)) eqn:Hstab
    end.
    + unfold ret. intros H. inversion H; subst. now apply Hst.
    + apply IH; assumption.
  - apply IH; [exact Ht1|]. eapply counted_later; [|exact Hc].
    unfold tick, sleep, POLL_INTERVAL_MS. simpl. lia.
Qed.

(** X12: under the stability policy a handle is never returned before
    450 ms have passed since the call: the first poll that selects a window
    only records it, and the binary64 counter needs nine further polls of
    50 ms to reach the 0.4 s threshold. *)
Theorem wait_stable_min_duration (env : Env) (select_fn : World -> option Z)
    (timeout : Z) (st : World) (h : Z) (st' : World) :
  wait_for_stable_window env false select_fn timeout st = (Ok (Some h), st') ->
  now st + 450 <= now st'.
Proof.
  unfold wait_for_stable_window, bind, get. cbv beta iota.
  apply stable_loop_min_time; [lia|]. left. reflexivity.
Qed.

Lemma wait_stable_min_duration_witness :
  wait_for_stable_window quiet_env false
    (select (mkLaunched 11 {[ 100 ]} {[ 4242 ]} "notepad.exe")) 45 desk0 =
    (Ok (Some 200), mkWorld 450 [explorer; notepad] 100 []) /\
  now desk0 + 450 <= now (mkWorld 450 [explorer; notepad] 100 []).
Proof.
  assert (H : wait_for_stable_window quiet_env false
                (select (mkLaunched 11 {[ 100 ]} {[ 4242 ]} "notepad.exe")) 45 desk0 =
              (Ok (Some 200), mkWorld 450 [explorer; notepad] 100 []))
    by (vm_compute; reflexivity).
  split; [exact H|].
  exact (wait_stable_min_duration quiet_env _ 45 desk0 200 _ H).
Defined.

(** ** Placement engine: the result in each mode *)

(** The calls of one placement of window [w], and the time it sleeps. *)
Definition placement_calls (env : Env) (hm : Z) (mode : string) (w : Window) : list Call :=
  let h := hwnd w in
  let wa := workarea_for_hmon env hm in
  let w1 := show_normal w in
  CShowWindow h (if showcmd w =? win32con.SW_SHOWMAXIMIZED
                 then win32con.SW_RESTORE else win32con.SW_SHOWNORMAL) ::
  if String.eqb mode "normal" then
    match wrect w1 with
    | None => [CSetWindowPos h (left wa + 20) (top wa + 20) 1000 700 SWP_FLAGS]
    | Some c =>
        [CSetWindowPos h (left wa + 20) (top wa + 20)
           (Z.max 300 (Z.min (right c - left c) (width wa - 40)))
           (Z.max 200 (Z.min (bottom c - top c) (height wa - 40))) SWP_FLAGS]
    end
  else
    CSetWindowPos h (park_x wa) (park_y wa) (park_w wa) (park_h wa) SWP_FLAGS ::
    if String.eqb mode "maximize" then [CShowWindow h win32con.SW_MAXIMIZE]
    else [CSetWindowPos h (left wa) (top wa) (width wa) (height wa) SWP_FLAGS].

Definition placement_delay (mode : string) (w : Window) : Z :=
  (if showcmd w =? win32con.SW_SHOWMAXIMIZED then 50 else 0) +
  (if String.eqb mode "normal" then 0 else 20).

Lemma find_window_hwnd (h : Z) (ws : list Window) (w : Window) :
  find_window h ws = Some w -> hwnd w = h.
Proof.
  unfold find_window. intros H. apply find_some in H. destruct H as [_ H].
  now apply Z.eqb_eq in H.
Qed.

(** In a quiescent environment, one placement of an existing window, in
    full: outcome, window, calls and time. *)
Lemma move_and_set_run (env : Env) (h hm : Z) (mode : string) (st : World) (w : Window) :
  quiescent env -> find_window h (wins st) = Some w ->
  exists st', move_and_set env h hm mode st = (Ok tt, st') /\
    find_window h (wins st') = Some (placed_window env hm mode w) /\
    log st' = log st ++ placement_calls env hm mode w /\
    now st' = now st + placement_delay mode w.
Proof.
  intros Hq Hw. pose proof (find_window_hwnd h _ w Hw) as Hh.
  unfold move_and_set, placement_calls, placement_delay. rewrite Hh.
  assert (Hgp : GetWindowPlacement_showCmd h st = (Ok (showcmd w), st))
    by (unfold GetWindowPlacement_showCmd; now rewrite Hw).
  bind_step Hgp.
  assert (Hshow : exists st1,
     (if showcmd w =? win32con.SW_SHOWMAXIMIZED
      then bind (ShowWindow env h win32con.SW_RESTORE) (fun _ => sleep env 50)
      else ShowWindow env h win32con.SW_SHOWNORMAL) st = (Ok tt, st1) /\
     find_window h (wins st1) = Some (show_normal w) /\
     log st1 = log st ++ [CShowWindow h (if showcmd w =? win32con.SW_SHOWMAXIMIZED
                                         then win32con.SW_RESTORE
                                         else win32con.SW_SHOWNORMAL)] /\
     now st1 = now st + (if showcmd w =? win32con.SW_SHOWMAXIMIZED then 50 else 0)).
  { destruct (showcmd w =? win32con.SW_SHOWMAXIMIZED).
    - destruct (ShowWindow_normal env h win32con.SW_RESTORE st w Hw (or_intror eq_refl))
        as (st1 & Heq & Hf & Hl & Hn & _).
      eexists. split; [unfold bind; rewrite Heq; apply sleep_quiescent, Hq|].
      simpl. rewrite Hn. auto.
    - destruct (ShowWindow_normal env h win32con.SW_SHOWNORMAL st w Hw (or_introl eq_refl))
        as (st1 & Heq & Hf & Hl & Hn & _).
      exists st1. rewrite Hn. repeat split; auto. lia. }
  destruct Hshow as (st1 & Heq1 & Hf1 & Hl1 & Hn1).
  bind_step Heq1. unfold placed_window.
  destruct (String.eqb mode "normal").
  - unfold rect at 1, bind at 1. cbv beta iota. unfold rect_of. rewrite Hf1.
    destruct (wrect (show_normal w)) as [r|];
      match goal with |- context [SetWindowPos h ?x ?y ?cx ?cy SWP_FLAGS st1] =>
        destruct (SetWindowPos_moves h x y cx cy st1 _ Hf1)
          as (st2 & Heq2 & Hf2 & Hl2 & Hn2 & _)
      end;
      (exists st2; split; [exact Heq2|]; split; [exact Hf2|]; split;
       [rewrite Hl2, Hl1, <- app_assoc; reflexivity|lia]).
  - match goal with |- context [SetWindowPos h ?x ?y ?cx ?cy SWP_FLAGS] =>
      destruct (SetWindowPos_moves h x y cx cy st1 _ Hf1)
        as (st2 & Heq2 & Hf2 & Hl2 & Hn2 & _)
    end.
    bind_step Heq2. bind_step (sleep_quiescent env 20 st2 Hq).
    set (st3 := mkWorld (now st2 + 20) (wins st2) (foreground st2) (log st2)).
    assert (Hf3 : find_window h (wins st3) = Some
              (move_to (park_x (workarea_for_hmon env hm)) (park_y (workarea_for_hmon env hm))
                 (park_w (workarea_for_hmon env hm)) (park_h (workarea_for_hmon env hm))
                 (show_normal w))) by exact Hf2.
    destruct (String.eqb mode "maximize").
    + destruct (ShowWindow_maximize env h st3 _ Hf3) as (st4 & Heq4 & Hf4 & Hl4 & Hn4 & _).
      exists st4. split; [exact Heq4|]. split; [exact Hf4|]. split.
      * rewrite Hl4. simpl. rewrite Hl2, Hl1, <- !app_assoc. reflexivity.
      * rewrite Hn4. simpl. lia.
    + destruct (SetWindowPos_moves h (left (workarea_for_hmon env hm))
                  (top (workarea_for_hmon env hm)) (width (workarea_for_hmon env hm))
                  (height (workarea_for_hmon env hm)) st3 _ Hf3)
        as (st4 & Heq4 & Hf4 & Hl4 & Hn4 & _).
      exists st4. split; [exact Heq4|]. split; [exact Hf4|]. split.
      * rewrite Hl4. simpl. rewrite Hl2, Hl1, <- !app_assoc. reflexivity.
      * rewrite Hn4. simpl. lia.
Qed.

(** The first call of a placement of an existing window is its show
    command, restore for a maximized window and show-normal otherwise; all
    its calls are placement calls on that window. *)
Lemma move_and_set_first_call (env : Env) (h hm : Z) (mode : string) (st : World)
    (w : Window) :
  find_window h (wins st) = Some w ->
  exists calls,
    log (snd (move_and_set env h hm mode st)) =
      log st ++ CShowWindow h (if showcmd w =? win32con.SW_SHOWMAXIMIZED
                               then win32con.SW_RESTORE
                               else win32con.SW_SHOWNORMAL) :: calls /\
    Forall (placement_call h) calls.
Proof.
  intros Hw. unfold move_and_set.
  assert (Hgp : GetWindowPlacement_showCmd h st = (Ok (showcmd w), st))
    by (unfold GetWindowPlacement_showCmd; now rewrite Hw).
  bind_step Hgp.
  assert (Hshow : exists st1,
     (if showcmd w =? win32con.SW_SHOWMAXIMIZED
      then bind (ShowWindow env h win32con.SW_RESTORE) (fun _ => sleep env 50)
      else ShowWindow env h win32con.SW_SHOWNORMAL) st = (Ok tt, st1) /\
     log st1 = log st ++ [CShowWindow h (if showcmd w =? win32con.SW_SHOWMAXIMIZED
                                         then win32con.SW_RESTORE
                                         else win32con.SW_SHOWNORMAL)]).
  { destruct (showcmd w =? win32con.SW_SHOWMAXIMIZED).
    - destruct (ShowWindow_normal env h win32con.SW_RESTORE st w Hw (or_intror eq_refl))
        as (st1 & Heq & _ & Hl & _).
      eexists. split; [unfold bind; rewrite Heq; reflexivity|]. exact Hl.
    - destruct (ShowWindow_normal env h win32con.SW_SHOWNORMAL st w Hw (or_introl eq_refl))
        as (st1 & Heq & _ & Hl & _).
      eauto. }
  destruct Hshow as (st1 & Heq1 & Hl1).
  bind_step Heq1.
  match goal with |- context [snd (?rest st1)] =>
    assert (Hrest : placing env h rest) by placing_tail;
    destruct (Hrest st1) as [(_ & (calls & Hl & Hall) & _) _]
  end.
  exists calls. split; [|exact Hall]. rewrite Hl, Hl1, <- app_assoc. reflexivity.
Qed.

(** ** Placement engine: the Z order *)














Lemma rect_span (r : Rect) :
  mkRect (left r) (top r) (left r + width r) (top r + height r) = r.
Proof. destruct r as [l t rr b]. unfold width, height. simpl. f_equal; lia. Qed.

(** X13: in the work-area mode (any mode other than normal and
    maximize), with no other process acting, placing an existing window
    succeeds with exactly three calls (show or restore, park, fill) and
    leaves the window visible, in the normal show state, on exactly the
    work-area rectangle of the target monitor. *)
Theorem move_and_set_fills_workarea (env : Env) (h hm : Z) (mode : string) (st : World)
    (w : Window) :
  quiescent env -> find_window h (wins st) = Some w ->
  String.eqb mode "normal" = false -> String.eqb mode "maximize" = false ->
  exists st' w' cmd,
    move_and_set env h hm mode st = (Ok tt, st') /\
    find_window h (wins st') = Some w' /\
    wrect w' = Some (workarea_for_hmon env hm) /\
    showcmd w' = win32con.SW_SHOWNORMAL /\ visible w' = true /\
    log st' = log st ++
      [CShowWindow h cmd;
       CSetWindowPos h (left (park_rect (workarea_for_hmon env hm)))
         (top (park_rect (workarea_for_hmon env hm)))
         (width (park_rect (workarea_for_hmon env hm)))
         (height (park_rect (workarea_for_hmon env hm))) SWP_FLAGS;
       CSetWindowPos h (left (workarea_for_hmon env hm)) (top (workarea_for_hmon env hm))
         (width (workarea_for_hmon env hm)) (height (workarea_for_hmon env hm)) SWP_FLAGS].
Proof.
  intros Hq Hw Hn Hm.
  destruct (move_and_set_run env h hm mode st w Hq Hw) as (st' & Heq & Hf & Hl & _).
  pose proof (find_window_hwnd h _ w Hw) as Hh.
  unfold placed_window in Hf. unfold placement_calls in Hl. rewrite Hn, Hm, Hh in *.
  eexists st', _, _. split; [exact Heq|]. split; [exact Hf|].
  split; [simpl; f_equal; apply rect_span|]. split; [reflexivity|]. split; [reflexivity|].
  rewrite Hl. repeat f_equal; unfold width, height, park_rect; simpl; lia.
Qed.

Lemma move_and_set_fills_workarea_witness :
  quiescent quiet_env /\ find_window 200 (wins desk0) = Some notepad /\
  String.eqb "workarea" "normal" = false /\ String.eqb "workarea" "maximize" = false /\
  exists st' w' cmd,
    move_and_set quiet_env 200 11 "workarea" desk0 = (Ok tt, st') /\
    find_window 200 (wins st') = Some w' /\
    wrect w' = Some (workarea_for_hmon quiet_env 11) /\
    showcmd w' = win32con.SW_SHOWNORMAL /\ visible w' = true /\
    log st' = log desk0 ++
      [CShowWindow 200 cmd;
       CSetWindowPos 200 (left (park_rect (workarea_for_hmon quiet_env 11)))
         (top (park_rect (workarea_for_hmon quiet_env 11)))
         (width (park_rect (workarea_for_hmon quiet_env 11)))
         (height (park_rect (workarea_for_hmon quiet_env 11))) SWP_FLAGS;
       CSetWindowPos 200 (left (workarea_for_hmon quiet_env 11))
         (top (workarea_for_hmon quiet_env 11))
         (width (workarea_for_hmon quiet_env 11))
         (height (workarea_for_hmon quiet_env 11)) SWP_FLAGS].
Proof.
  split; [exact quiet_env_quiescent|]. split; [reflexivity|].
  split; [reflexivity|]. split; [reflexivity|].
  exact (move_and_set_fills_workarea quiet_env 200 11 "workarea" desk0 notepad
           quiet_env_quiescent eq_refl eq_refl eq_refl).
Defined.

(** X14: in the normal mode, with no other process acting, a window in
    the normal show state is moved to 20 pixels inside the top-left corner
    of the target work area; its width is clamped to at most the work-area
    width less 40 and then to at least 300, its height to at most the height
    less 40 and then to at least 200. So a size that already fits is kept,
    and on a work area of at least 340 x 240 the window ends inside it. *)
Theorem move_and_set_normal (env : Env) (h hm : Z) (st : World) (w : Window) (r : Rect) :
  quiescent env -> find_window h (wins st) = Some w ->
  showcmd w = win32con.SW_SHOWNORMAL -> wrect w = Some r ->
  exists st' r',
    move_and_set env h hm "normal" st = (Ok tt, st') /\
    rect_of h st' = Some r' /\
    left r' = left (workarea_for_hmon env hm) + 20 /\
    top r' = top (workarea_for_hmon env hm) + 20 /\
    width r' = Z.max 300 (Z.min (width r) (width (workarea_for_hmon env hm) - 40)) /\
    height r' = Z.max 200 (Z.min (height r) (height (workarea_for_hmon env hm) - 40)) /\
    (300 <= width r <= width (workarea_for_hmon env hm) - 40 -> width r' = width r) /\
    (200 <= height r <= height (workarea_for_hmon env hm) - 40 -> height r' = height r) /\
    (340 <= width (workarea_for_hmon env hm) -> 240 <= height (workarea_for_hmon env hm) ->
     inside r' (workarea_for_hmon env hm)).
Proof.
  intros Hq Hw Hs Hr.
  destruct (move_and_set_run env h hm "normal" st w Hq Hw) as (st' & Heq & Hf & _).
  unfold placed_window in Hf. simpl String.eqb in Hf. cbv iota in Hf.
  assert (Hr1 : wrect (show_normal w) = Some r).
  { unfold show_normal. simpl. rewrite Hs. exact Hr. }
  rewrite Hr1 in Hf.
  eexists st', _. split; [exact Heq|]. unfold rect_of. rewrite Hf.
  split; [reflexivity|].
  unfold inside, width, height. simpl. repeat split; lia.
Qed.

Lemma move_and_set_normal_witness :
  quiescent quiet_env /\ find_window 200 (wins desk0) = Some notepad /\
  showcmd notepad = win32con.SW_SHOWNORMAL /\
  wrect notepad = Some (mkRect 100 100 900 700) /\
  exists st' r',
    move_and_set quiet_env 200 11 "normal" desk0 = (Ok tt, st') /\
    rect_of 200 st' = Some r' /\
    left r' = left (workarea_for_hmon quiet_env 11) + 20 /\
    top r' = top (workarea_for_hmon quiet_env 11) + 20.
Proof.
  split; [exact quiet_env_quiescent|]. split; [reflexivity|].
  split; [reflexivity|]. split; [reflexivity|].
  destruct (move_and_set_normal quiet_env 200 11 desk0 notepad (mkRect 100 100 900 700)
              quiet_env_quiescent eq_refl eq_refl eq_refl)
    as (st' & r' & H1 & H2 & H3 & H4 & _).
  exists st', r'. auto.
Defined.

(** X15: in the maximize mode, with no other process acting, an existing
    window ends visible and maximized, its restore rectangle is the park
    rectangle of the target work area, and its rectangle is the work area of
    the monitor the system finds nearest to the park rectangle: the target
    work area itself when that monitor is the target. *)
Theorem move_and_set_maximizes (env : Env) (h hm : Z) (st : World) (w : Window) :
  quiescent env -> find_window h (wins st) = Some w ->
  exists st' w',
    move_and_set env h hm "maximize" st = (Ok tt, st') /\
    find_window h (wins st') = Some w' /\
    showcmd w' = win32con.SW_SHOWMAXIMIZED /\ visible w' = true /\
    normal_rect w' = park_rect (workarea_for_hmon env hm) /\
    wrect w' = Some (workarea_for_hmon env
                       (nearest env (Some (park_rect (workarea_for_hmon env hm))))) /\
    (nearest env (Some (park_rect (workarea_for_hmon env hm))) = hm ->
     wrect w' = Some (workarea_for_hmon env hm)).
Proof.
  intros Hq Hw.
  destruct (move_and_set_run env h hm "maximize" st w Hq Hw) as (st' & Heq & Hf & _).
  unfold placed_window in Hf. simpl String.eqb in Hf. cbv iota in Hf.
  eexists st', _. split; [exact Heq|]. split; [exact Hf|].
  split; [reflexivity|]. split; [reflexivity|].
  split; [reflexivity|]. split; [reflexivity|].
  intros Hn. simpl. unfold maximized_rect.
  change (mkRect (park_x (workarea_for_hmon env hm)) (park_y (workarea_for_hmon env hm))
            (park_x (workarea_for_hmon env hm) + park_w (workarea_for_hmon env hm))
            (park_y (workarea_for_hmon env hm) + park_h (workarea_for_hmon env hm)))
    with (park_rect (workarea_for_hmon env hm)).
  now rewrite Hn.
Qed.

Lemma move_and_set_maximizes_witness :
  quiescent quiet_env /\ find_window 200 (wins desk0) = Some notepad /\
  exists st' w',
    move_and_set quiet_env 200 11 "maximize" desk0 = (Ok tt, st') /\
    find_window 200 (wins st') = Some w' /\
    showcmd w' = win32con.SW_SHOWMAXIMIZED /\ visible w' = true.
Proof.
  split; [exact quiet_env_quiescent|]. split; [reflexivity|].
  destruct (move_and_set_maximizes quiet_env 200 11 desk0 notepad
              quiet_env_quiescent eq_refl)
    as (st' & w' & H1 & H2 & H3 & H4 & _).
  exists st', w'. auto.
Defined.

(** ** Drift watchdog: when it does nothing *)

Lemma polls_until_pos (until : Z) (st : World) : exists n, polls_until until st = S n.
Proof. unfold polls_until. eauto. Qed.

(** X16: the watchdog returns at once, without a call and without
    waiting, when the observation time is zero or negative, when the handle
    is null or no longer a window, or when the window is hidden; placing a
    window that no longer exists raises [win32gui.error] before any call is
    issued. *)
Theorem ensure_on_target_noop (env : Env) (h hmon_target : Z) (mode : string)
    (seconds : Z) (st : World) :
  (seconds <= 0 \/ h = 0 \/ find_window h (wins st) = None \/
   (exists w, find_window h (wins st) = Some w /\ visible w = false) ->
   ensure_on_target env h hmon_target mode seconds st = (Ok tt, st)) /\
  (find_window h (wins st) = None ->
   move_and_set env h hmon_target mode st = (Raise win32gui_error, st)).
Proof.
  split.
  - intros Hcase. unfold ensure_on_target, bind, get, rect. cbv beta iota.
    destruct (polls_until_pos (now st + Z.max 0 seconds * 1000) st) as (n & ->).
    rewrite watch_loop_step.
    destruct (now st <? now st + Z.max 0 seconds * 1000) eqn:Hnow; [|reflexivity].
    apply Z.ltb_lt in Hnow.
    assert (Hpoll : watch_poll env h hmon_target mode (rect_of h st) st = (Ok None, st)).
    { unfold watch_poll, bind, IsWindow, IsWindowVisible, ret. cbv beta iota.
      destruct Hcase as [Hs|[Hh|[Hf|(w & Hf & Hv)]]].
      - lia.
      - subst h. reflexivity.
      - rewrite Hf. now rewrite andb_false_r.
      - rewrite Hf, Hv. now rewrite andb_false_r. }
    now rewrite Hpoll.
  - intros Hf. unfold move_and_set, bind, GetWindowPlacement_showCmd. now rewrite Hf.
Qed.

(** The watchdog loop on a window that stays where it is. *)
Lemma watch_loop_idle (env : Env) (h hmon_target : Z) (mode : string) (until : Z)
    (fuel : nat) (st : World) (w : Window) (r : Rect) :
  quiescent env -> h <> 0 -> find_window h (wins st) = Some w -> visible w = true ->
  wrect w = Some r -> nearest env (Some r) = hmon_target ->
  (polls_left until st < fuel)%nat ->
  exists t, watch_loop env fuel h hmon_target mode until (Some r) st =
              (Ok tt, mkWorld t (wins st) (foreground st) (log st)) /\
            now st <= t /\ until <= t.
Proof.
  intros Hq Hh Hf Hv Hr Hn. revert st Hf.
  induction fuel as [|fuel IH]; intros st Hf Hfuel; [lia|].
  rewrite watch_loop_step.
  destruct (now st <? until) eqn:Hnow.
  - apply Z.ltb_lt in Hnow.
    assert (Hpoll : watch_poll env h hmon_target mode (Some r) st = (Ok (Some (Some r)), st)).
    { unfold watch_poll, bind, IsWindow, IsWindowVisible, MonitorFromWindow, rect, rect_of, ret.
      apply Z.eqb_neq in Hh. rewrite Hf, Hv, Hh. simpl.
      rewrite Hf, Hr, Hn, Z.eqb_refl. simpl.
      rewrite edges_differ_refl. reflexivity. }
    rewrite Hpoll. rewrite sleep_quiescent by exact Hq. simpl snd.
    set (st1 := mkWorld (now st + POLL_INTERVAL_MS) (wins st) (foreground st) (log st)).
    destruct (IH st1 Hf) as (t & Heq & Hle & Hb).
    { pose proof (polls_left_sleep until st st1 Hnow eq_refl). lia. }
    exists t. split; [exact Heq|]. simpl in *. unfold POLL_INTERVAL_MS in *. lia.
  - apply Z.ltb_ge in Hnow. exists (now st). split; [destruct st; reflexivity|]. lia.
Qed.

(** X17: with no other process acting, a visible window that sits on
    the target monitor with a readable rectangle is left alone by the
    watchdog for the whole observation time: the watchdog returns normally,
    not before the observation time has passed, having issued no call and
    left every window, their order and the active window as they were. *)
Theorem ensure_on_target_idle (env : Env) (h hmon_target : Z) (mode : string)
    (seconds : Z) (st : World) (w : Window) (r : Rect) :
  quiescent env -> h <> 0 -> find_window h (wins st) = Some w -> visible w = true ->
  wrect w = Some r -> nearest env (Some r) = hmon_target -> 0 < seconds ->
  exists t, ensure_on_target env h hmon_target mode seconds st =
              (Ok tt, mkWorld t (wins st) (foreground st) (log st)) /\
            now st + seconds * 1000 <= t.
Proof.
  intros Hq Hh Hf Hv Hr Hn Hs.
  unfold ensure_on_target, bind, get, rect, rect_of. cbv beta iota. rewrite Hf, Hr.
  replace (Z.max 0 seconds) with seconds by lia.
  destruct (watch_loop_idle env h hmon_target mode (now st + seconds * 1000)
              (polls_until (now st + seconds * 1000) st) st w r Hq Hh Hf Hv Hr Hn)
    as (t & Heq & _ & Hb); [unfold polls_until, polls_left; lia|].
  exists t. split; [exact Heq|exact Hb].
Qed.

Lemma ensure_on_target_idle_witness :
  quiescent quiet_env /\ 100 <> 0 /\ find_window 100 (wins desk0) = Some explorer /\
  visible explorer = true /\ wrect explorer = Some (mkRect 0 0 1000 700) /\
  nearest quiet_env (Some (mkRect 0 0 1000 700)) = 10 /\ 0 < 4 /\
  exists t, ensure_on_target quiet_env 100 10 "normal" 4 desk0 =
              (Ok tt, mkWorld t (wins desk0) (foreground desk0) (log desk0)) /\
            now desk0 + 4 * 1000 <= t.
Proof.
  assert (H0 : 100 <> 0) by discriminate.
  assert (H1 : 0 < 4) by lia.
  split; [exact quiet_env_quiescent|]. split; [exact H0|]. split; [reflexivity|].
  split; [reflexivity|]. split; [reflexivity|]. split; [reflexivity|]. split; [exact H1|].
  exact (ensure_on_target_idle quiet_env 100 10 "normal" 4 desk0 explorer
           (mkRect 0 0 1000 700) quiet_env_quiescent H0 eq_refl eq_refl eq_refl eq_refl H1).
Defined.

(** ** Drift watchdog: it ends, and what it may touch *)

(** X18: whatever other processes do to the windows meanwhile, the
    watchdog ends by itself, with a result or with [win32gui.error] and
    nothing else; the clock has not gone back, and the calls it issued are
    show commands and moves on the watched window only, every move carrying
    the no-Z-order and no-activate flags (it never spawns a process and
    never addresses another window). *)
Theorem ensure_on_target_ends (env : Env) (h hmon_target : Z) (mode : string)
    (seconds : Z) (st : World) :
  benign (fst (ensure_on_target env h hmon_target mode seconds st)) /\
  now st <= now (snd (ensure_on_target env h hmon_target mode seconds st)) /\
  exists calls,
    log (snd (ensure_on_target env h hmon_target mode seconds st)) = log st ++ calls /\
    Forall (placement_call h) calls.
Proof.
  destruct (placing_ensure_on_target env h hmon_target mode seconds st)
    as [(Hle & Hcalls & _) Hb].
  split; [exact Hb|]. split; [exact Hle|exact Hcalls].
Qed.

(** ** Process launcher *)

Lemma discover_children_spec (env : Env) (n : nat) (parent : Z) (ps : gset Z) (st : World) :
  exists ps',
    discover_children env n parent ps st = (Ok ps', after_polls env n st) /\
    forall c, c ∈ ps' <->
      c ∈ ps \/ exists i cs, (i < n)%nat /\
        children env parent (now st + 50 * Z.of_nat i) = Some cs /\ In c cs.
Proof.
  revert ps st. induction n as [|n IH]; intros ps st; simpl.
  - exists ps. split; [reflexivity|]. intros c. split; [auto|].
    intros [H|(i & cs & Hi & _)]; [exact H|lia].
  - unfold bind, get. cbv beta iota.
    set (ps1 := match children env parent (now st) with
                | Some cs => ps ∪ list_to_set cs
                | None => ps
                end).
    assert (Hps1 : forall c, c ∈ ps1 <->
              c ∈ ps \/ exists cs, children env parent (now st) = Some cs /\ In c cs).
    { intros c. subst ps1. destruct (children env parent (now st)) as [cs|].
      - rewrite elem_of_union, elem_of_list_to_set, list_elem_of_In. split.
        + intros [H|H]; [now left|right; eauto].
        + intros [H|(cs' & Heq & H)]; [now left|right; congruence].
      - split; [auto|]. intros [H|(cs' & Heq & _)]; [exact H|discriminate]. }
    destruct (IH ps1 (tick env st)) as (ps' & Heq & Hin).
    exists ps'. split; [exact Heq|].
    intros c. rewrite Hin, Hps1.
    assert (Hnow : now (tick env st) = now st + 50) by reflexivity. split.
    + intros [[H|(cs & Hc & H)]|(i & cs & Hi & Hc & H)].
      * now left.
      * right. exists 0%nat, cs. split; [lia|]. split; [|exact H].
        rewrite <- Hc. f_equal. lia.
      * right. exists (S i), cs. split; [lia|]. split; [|exact H].
        rewrite <- Hc, Hnow. f_equal. lia.
    + intros [H|(i & cs & Hi & Hc & H)]; [now left; left|].
      destruct i as [|i].
      * left. right. exists cs. split; [|exact H]. rewrite <- Hc. f_equal. lia.
      * right. exists i, cs. split; [lia|]. split; [|exact H].
        rewrite <- Hc, Hnow. f_equal. lia.
Qed.

Lemma launch_facts (env : Env) (exe : string) (idx : Z) (st0 st1 : World) (l : Launched) :
  launch env exe idx st0 = (Ok l, st1) ->
  exists pid m,
    0 <= idx /\ nth_error (enum_monitors_sorted env) (Z.to_nat idx) = Some m /\
    hmon_target l = hmon m /\
    popen env exe = Some pid /\ psutil_ok env pid = true /\
    st1 = after_polls env 15 (add_log (CPopen exe) st0) /\
    now st1 = now st0 + 750 /\ log st1 = log st0 ++ [CPopen exe] /\
    exe_base l = lower (basename exe) /\
    forall c, c ∈ pid_set l <->
      c = pid \/ exists i cs, (i < 15)%nat /\
        children env pid (now st0 + 50 * Z.of_nat i) = Some cs /\ In c cs.
Proof.
  unfold launch. destruct (enum_monitors_sorted env) as [|m0 ms] eqn:Hm; [discriminate|].
  destruct ((idx <? 0) || _) eqn:Hrange; [discriminate|].
  apply orb_false_iff in Hrange. destruct Hrange as [H0 Hlen].
  apply Z.ltb_ge in H0. apply Z.leb_gt in Hlen.
  unfold bind at 1, list_top_windows. cbv beta iota.
  unfold bind at 1. cbv beta iota.
  destruct (popen env exe) as [pid|]; [|discriminate].
  destruct (psutil_ok env pid) eqn:Hok; [|discriminate]. cbn [negb].
  unfold bind.
  destruct (discover_children_spec env 15 pid {[ pid ]} (add_log (CPopen exe) st0))
    as (ps' & Heq & Hin).
  rewrite Heq.
  pose proof (after_polls_now env 15 (add_log (CPopen exe) st0)) as Hnow.
  pose proof (after_polls_log env 15 (add_log (CPopen exe) st0)) as Hlog.
  remember (after_polls env 15 (add_log (CPopen exe) st0)) as stF eqn:HstF.
  intros H. inversion H; subst l st1. clear H. cbn [hmon_target pid_set exe_base].
  destruct (nth_error (m0 :: ms) (Z.to_nat idx)) as [m|] eqn:Hnth.
  - exists pid, m. split; [exact H0|]. split; [reflexivity|]. split; [reflexivity|].
    split; [reflexivity|]. split; [exact Hok|]. split; [reflexivity|].
    split; [rewrite Hnow; unfold add_log, POLL_INTERVAL_MS; simpl; lia|].
    split; [rewrite Hlog; reflexivity|]. split; [reflexivity|].
    intros c. rewrite Hin, elem_of_singleton. reflexivity.
  - apply nth_error_None in Hnth. simpl length in *. lia.
Qed.

(** X19: a successful launch chose the monitor at the given index of
    the sorted list, spawned the executable, found the process inspectable
    and sampled its descendants 15 times, a sleep of 50 ms after each
    sample: it ends at least 750 ms later having issued the spawn only, and
    the owned-process-ID set holds exactly the process and every descendant
    reported at one of the samples. *)
Theorem launch_spec (env : Env) (exe : string) (idx : Z) (st0 st1 : World) (l : Launched) :
  launch env exe idx st0 = (Ok l, st1) ->
  exists pid m,
    0 <= idx /\ nth_error (enum_monitors_sorted env) (Z.to_nat idx) = Some m /\
    hmon_target l = hmon m /\
    popen env exe = Some pid /\ psutil_ok env pid = true /\
    st1 = after_polls env 15 (add_log (CPopen exe) st0) /\
    now st0 + 750 <= now st1 /\ log st1 = log st0 ++ [CPopen exe] /\
    forall c, c ∈ pid_set l <->
      c = pid \/ exists i cs, (i < 15)%nat /\
        children env pid (now (after_polls env i (add_log (CPopen exe) st0))) = Some cs /\
        In c cs.
Proof.
  intros Hl.
  destruct (launch_facts env exe idx st0 st1 l Hl)
    as (pid & m & H0 & Hm & Hh & Hp & Hok & Hst & Hnow & Hlog & _ & Hin).
  exists pid, m. repeat (split; [assumption|]). split; [lia|]. split; [exact Hlog|].
  intros c. rewrite Hin.
  assert (Ht : forall i : nat,
            now (after_polls env i (add_log (CPopen exe) st0)) = now st0 + 50 * Z.of_nat i).
  { intros i. rewrite after_polls_now. unfold add_log, POLL_INTERVAL_MS. simpl. lia. }
  split; (intros [H|(i & cs & Hi & Hc & Hcs)]; [now left|right; exists i, cs]).
  - rewrite Ht. auto.
  - rewrite Ht in Hc. auto.
Qed.

Lemma launch_spec_witness :
  launch quiet_env "C:\apps\Notepad.exe" 1 bare_desk = (Ok bare_launched, bare_after_launch) /\
  exists pid m,
    0 <= 1 /\ nth_error (enum_monitors_sorted quiet_env) (Z.to_nat 1) = Some m /\
    hmon_target bare_launched = hmon m /\
    popen quiet_env "C:\apps\Notepad.exe" = Some pid /\ psutil_ok quiet_env pid = true /\
    bare_after_launch = after_polls quiet_env 15 (add_log (CPopen "C:\apps\Notepad.exe") bare_desk) /\
    now bare_desk + 750 <= now bare_after_launch /\
    log bare_after_launch = log bare_desk ++ [CPopen "C:\apps\Notepad.exe"] /\
    forall c, c ∈ pid_set bare_launched <->
      c = pid \/ exists i cs, (i < 15)%nat /\
        children quiet_env pid
          (now (after_polls quiet_env i (add_log (CPopen "C:\apps\Notepad.exe") bare_desk)))
          = Some cs /\
        In c cs.
Proof.
  assert (H : launch quiet_env "C:\apps\Notepad.exe" 1 bare_desk
              = (Ok bare_launched, bare_after_launch)) by (vm_compute; reflexivity).
  split; [exact H|].
  exact (launch_spec quiet_env "C:\apps\Notepad.exe" 1 bare_desk bare_after_launch
           bare_launched H).
Defined.

(** ** A successful run *)

Lemma acquire_ok (env : Env) (early : bool) (l : Launched) (st : World) (h : Z) (st' : World) :
  acquire env early l st = (Ok h, st') ->
  h <> 0 /\ log st' = log st /\
  (select l st' = Some h \/ select_new_only l st' = Some h).
Proof.
  unfold acquire. unfold bind at 1.
  destruct (wait_returns env early (select l) WAIT_TIMEOUT_SEC st)
    as (r1 & st1 & Heq1 & Hl1 & _ & Hr1).
  rewrite Heq1. destruct r1 as [h1|].
  - destruct Hr1 as (_ & Hs1 & Hh1). unfold truthy. pose proof Hh1 as Hh1'.
    apply Z.eqb_neq in Hh1'. rewrite Hh1'. unfold bind, ret. simpl. rewrite Hh1'. simpl.
    intros H. inversion H; subst. auto.
  - simpl. unfold bind at 1.
    destruct (wait_returns env early (select_new_only l) 10 st1)
      as (r2 & st2 & Heq2 & Hl2 & _ & Hr2).
    rewrite Heq2. destruct r2 as [h2|]; [|discriminate].
    destruct Hr2 as (_ & Hs2 & Hh2). unfold truthy. pose proof Hh2 as Hh2'.
    apply Z.eqb_neq in Hh2'. rewrite Hh2'. simpl.
    intros H. inversion H; subst. split; [exact Hh2|]. split; [congruence|]. now right.
Qed.

(** X20: a headless run that returns normally had a monitor index in
    range, spawned the executable and then placed a window the scanner had
    selected: the call log gained the spawn, then a show command on a
    non-null handle, then placement calls on that window only. *)
Theorem run_headless_success (env : Env) (early : bool) (exe mode : string) (idx obs : Z)
    (st st' : World) :
  run_headless env early exe idx mode obs st = (Ok tt, st') ->
  exists h cmd calls,
    0 <= idx < Z.of_nat (length (monitors env)) /\ h <> 0 /\
    log st' = log st ++ CPopen exe :: CShowWindow h cmd :: calls /\
    Forall (placement_call h) calls.
Proof.
  intros Hrun.
  unfold run_headless in Hrun. unfold bind at 1 in Hrun.
  destruct (launch env exe idx st) as [[l|x|] st1] eqn:Hl; try discriminate.
  unfold bind at 1 in Hrun.
  destruct (acquire env early l st1) as [[h|x|] stA] eqn:Ha; try discriminate.
  destruct (acquire_ok _ _ _ _ _ _ Ha) as (Hh & HlogA & _).
  destruct (launch_ok _ _ _ _ _ _ Hl) as [Hlog1 _].
  unfold bind at 1 in Hrun.
  destruct (move_and_set env h (hmon_target l) mode stA) as [[[]|x|] stP] eqn:Hp;
    try discriminate.
  destruct (find_window h (wins stA)) as [w|] eqn:Hf.
  2:{ unfold move_and_set, bind, GetWindowPlacement_showCmd in Hp. rewrite Hf in Hp.
      discriminate. }
  destruct (move_and_set_first_call env h (hmon_target l) mode stA w Hf)
    as (calls & HlogP & Hall).
  rewrite Hp in HlogP. simpl in HlogP.
  destruct (placing_ensure_on_target env h (hmon_target l) mode obs stP)
    as [(_ & (calls2 & HlogE & Hall2) & _) _].
  rewrite Hrun in HlogE. simpl in HlogE.
  assert (Hrange : 0 <= idx < Z.of_nat (length (monitors env))).
  { destruct (Z.lt_ge_cases idx 0) as [Hneg|Hpos].
    - destruct (launch_out_of_range env exe idx st (or_introl Hneg)) as (x & Hx & _).
      congruence.
    - destruct (Z.lt_ge_cases idx (Z.of_nat (length (monitors env)))) as [Hlt|Hge]; [lia|].
      destruct (launch_out_of_range env exe idx st (or_intror Hge)) as (x & Hx & _).
      congruence. }
  eexists h, _, (calls ++ calls2).
  split; [exact Hrange|]. split; [exact Hh|]. split.
  - rewrite HlogE, HlogP, HlogA, Hlog1, <- !app_assoc. reflexivity.
  - apply Forall_app. auto.
Qed.

Lemma run_headless_success_witness :
  exists st',
    run_headless quiet_env true "C:\apps\Notepad.exe" 1 "workarea" 0
      (mkWorld 0 [notepad] 200 []) = (Ok tt, st') /\
    exists h cmd calls,
      0 <= 1 < Z.of_nat (length (monitors quiet_env)) /\ h <> 0 /\
      log st' = log (mkWorld 0 [notepad] 200 []) ++
                CPopen "C:\apps\Notepad.exe" :: CShowWindow h cmd :: calls /\
      Forall (placement_call h) calls.
Proof.
  destruct (run_headless quiet_env true "C:\apps\Notepad.exe" 1 "workarea" 0
              (mkWorld 0 [notepad] 200 [])) as [x st'] eqn:H.
  assert (Hx : x = Ok tt) by (vm_compute in H; congruence).
  subst x. exists st'. split; [reflexivity|].
  exact (run_headless_success quiet_env true _ _ 1 0 _ st' H).
Defined.

(** ** The expected executable name of a run *)

Fixpoint no_sep (s : string) : bool :=
  match s with
  | EmptyString => true
  | String c s' => negb (is_sep c) && no_sep s'
  end.

Lemma append_assoc_char (a : string) (c : ascii) (b : string) :
  ((a ++ String c EmptyString) ++ b)%string = (a ++ String c b)%string.
Proof.
  induction a as [|x a IH]; [reflexivity|].
  change (String x ((a ++ String c EmptyString) ++ b) = String x (a ++ String c b))%string.
  f_equal. exact IH.
Qed.

Lemma basename_from_app (a b acc : string) :
  basename_from (a ++ b) acc = basename_from b (basename_from a acc).
Proof.
  revert acc. induction a as [|c a IH]; intros acc; simpl; [reflexivity|].
  destruct (is_sep c); apply IH.
Qed.

Lemma basename_from_no_sep (name acc : string) :
  no_sep name = true -> basename_from name acc = (acc ++ name)%string.
Proof.
  revert acc. induction name as [|c name IH]; intros acc; simpl.
  - intros _. induction acc as [|x acc IHa]; [reflexivity|].
    change (String x acc = String x (acc ++ EmptyString))%string. f_equal. exact IHa.
  - rewrite andb_true_iff, negb_true_iff. intros [Hc Hn]. rewrite Hc.
    rewrite IH by exact Hn. apply append_assoc_char.
Qed.

(** [basename] of a drive letter, a directory, a separator and a name
    without separators is the name. *)
Lemma basename_join (d : ascii) (dir : string) (sep : ascii) (name : string) :
  is_sep sep = true -> no_sep name = true ->
  basename (String d (String ":" (dir ++ String sep name))) = name.
Proof.
  intros Hs Hn. unfold basename, strip_drive. rewrite basename_from_app. simpl. rewrite Hs.
  now rewrite basename_from_no_sep.
Qed.

(** X21: in a run launched from a path made of a drive letter, a
    directory, a separator and a file name, a window whose owning process is
    named like the file, up to the case of the letters A to Z, is credited
    the name signal by the primary scan: it scores at least 500, and if it
    passes the filters the primary scan selects a window. *)
Theorem select_name_signal (env : Env) (d : ascii) (dir name : string) (sep : ascii) (idx : Z)
    (st0 st1 : World) (l : Launched) (w : Window) (p : Z) (n : string) :
  launch env (String d (String ":" (dir ++ String sep name))) idx st0 = (Ok l, st1) ->
  is_sep sep = true -> no_sep name = true -> name <> EmptyString ->
  owner_pid w = Some p -> p <> 0 -> proc_name w = Some n ->
  lower n = lower name ->
  500 <= score (Some (pid_set l)) (Some (exe_base l)) (Some (before l)) w /\
  forall st, In w (wins st) -> passes_filters w = true -> select l st <> None.
Proof.
  intros Hl Hs Hn Hne Hp Hp0 Hpn Hlow.
  destruct (launch_facts _ _ _ _ _ _ Hl) as (pid & m & _ & _ & _ & _ & _ & _ & _ & _ & Hb & _).
  rewrite basename_join in Hb by assumption.
  assert (Hm : name_matches (Some (exe_base l)) w).
  { rewrite Hb. apply (name_matches_lowered w p n name Hp Hp0 Hpn); [|exact Hlow].
    destruct name; [congruence|discriminate]. }
  assert (Hscore : 500 <= score (Some (pid_set l)) (Some (exe_base l)) (Some (before l)) w).
  { destruct (score_signals (Some (pid_set l)) (Some (exe_base l)) (Some (before l)) w)
      as (b1 & b2 & b3 & _ & H2 & _ & Hsc).
    rewrite Hsc. apply H2 in Hm. subst b2. destruct b1, b3; lia. }
  split; [exact Hscore|].
  intros st Hin Hpass Hnone. unfold select in Hnone.
  pose proof (proj1 (pick_best_none _ _ _ _) Hnone w Hin Hpass). lia.
Qed.

Lemma select_name_signal_witness :
  launch quiet_env (String "C" (String ":" ("\apps" ++ String "\" "Notepad.exe"))) 1 bare_desk =
    (Ok bare_launched, bare_after_launch) /\
  is_sep "\" = true /\ no_sep "Notepad.exe" = true /\ "Notepad.exe"%string <> EmptyString /\
  owner_pid notepad = Some 4242 /\ 4242 <> 0 /\ proc_name notepad = Some "Notepad.exe"%string /\
  lower "Notepad.exe" = lower "Notepad.exe" /\
  500 <= score (Some (pid_set bare_launched)) (Some (exe_base bare_launched))
           (Some (before bare_launched)) notepad /\
  forall st, In notepad (wins st) -> passes_filters notepad = true ->
             select bare_launched st <> None.
Proof.
  assert (H1 : launch quiet_env
                 (String "C" (String ":" ("\apps" ++ String "\" "Notepad.exe"))) 1 bare_desk =
               (Ok bare_launched, bare_after_launch)) by (vm_compute; reflexivity).
  assert (H2 : "Notepad.exe"%string <> EmptyString) by discriminate.
  assert (H3 : 4242 <> 0) by discriminate.
  split; [exact H1|]. split; [reflexivity|]. split; [reflexivity|]. split; [exact H2|].
  split; [reflexivity|]. split; [exact H3|]. split; [reflexivity|]. split; [reflexivity|].
  exact (select_name_signal quiet_env "C" "\apps" "Notepad.exe" "\" 1 bare_desk
           bare_after_launch bare_launched notepad 4242 "Notepad.exe"
           H1 eq_refl eq_refl H2 eq_refl H3 eq_refl eq_refl).
Defined.

(** ** Monitor lookup *)

(** [hmon_from_rect(mr)]: the monitor nearest the centre of [mr], with the
    system's [MonitorFromPoint(pt, MONITOR_DEFAULTTONEAREST)] as a
    parameter. *)
Definition hmon_from_rect (MonitorFromPoint : Z -> Z -> Z) (mr : Rect) : Z :=
  let cx := (left mr + right mr) / 2 in
  let cy := (top mr + bottom mr) / 2 in
  MonitorFromPoint cx cy.

(** X22: for a monitor rectangle that is not empty, the point
    [hmon_from_rect] asks about lies inside the rectangle; so, if the system
    maps every point of a monitor's rectangle to that monitor,
    [hmon_from_rect] of the monitor's rectangle is the monitor. *)
Theorem hmon_from_rect_own (MonitorFromPoint : Z -> Z -> Z) (m : Monitor) :
  left (mrect m) < right (mrect m) -> top (mrect m) < bottom (mrect m) ->
  (forall x y, left (mrect m) <= x < right (mrect m) ->
               top (mrect m) <= y < bottom (mrect m) -> MonitorFromPoint x y = hmon m) ->
  hmon_from_rect MonitorFromPoint (mrect m) = hmon m.
Proof.
  intros Hw Hh Hsys. unfold hmon_from_rect. apply Hsys.
  - split; [apply Z.div_le_lower_bound|apply Z.div_lt_upper_bound]; lia.
  - split; [apply Z.div_le_lower_bound|apply Z.div_lt_upper_bound]; lia.
Qed.

Lemma hmon_from_rect_own_witness :
  left (mrect mon1) < right (mrect mon1) /\ top (mrect mon1) < bottom (mrect mon1) /\
  (forall x y, left (mrect mon1) <= x < right (mrect mon1) ->
               top (mrect mon1) <= y < bottom (mrect mon1) ->
               (fun x y => if x <? 1920 then 10 else 11) x y = hmon mon1) /\
  hmon_from_rect (fun x y => if x <? 1920 then 10 else 11) (mrect mon1) = hmon mon1.
Proof.
  assert (H1 : left (mrect mon1) < right (mrect mon1)) by (vm_compute; reflexivity).
  assert (H2 : top (mrect mon1) < bottom (mrect mon1)) by (vm_compute; reflexivity).
  assert (H3 : forall x y, left (mrect mon1) <= x < right (mrect mon1) ->
               top (mrect mon1) <= y < bottom (mrect mon1) ->
               (fun x y => if x <? 1920 then 10 else 11) x y = hmon mon1).
  { intros x y Hx _. simpl in *. destruct (x <? 1920) eqn:E; [|reflexivity].
    apply Z.ltb_lt in E. lia. }
  split; [exact H1|]. split; [exact H2|]. split; [exact H3|].
  exact (hmon_from_rect_own _ mon1 H1 H2 H3).
Defined.

(** X23: the work area of an enumerated monitor with a handle of its
    own is the work area the system reports for it; when that query fails,
    or the handle is not a monitor's, it is the system-wide work area, and
    when that fails too the rectangle from the origin to the primary screen
    size. *)
Theorem workarea_for_hmon_lookup (env : Env) :
  (forall m, In m (monitors env) ->
     (forall m', In m' (monitors env) -> hmon m' = hmon m -> m' = m) ->
     forall rw, mwork m = Some rw -> workarea_for_hmon env (hmon m) = rw) /\
  (forall hm,
     (forall m, In m (monitors env) -> hmon m = hm -> mwork m = None) ->
     workarea_for_hmon env hm =
       match spi_workarea env with
       | Some r => r
       | None => mkRect 0 0 (fst (screen_metrics env)) (snd (screen_metrics env))
       end).
Proof.
  split.
  - intros m Hin Huniq rw Hw. unfold workarea_for_hmon.
    destruct (List.find (fun m0 => hmon m0 =? hmon m) (monitors env)) as [m'|] eqn:Hf.
    + apply find_some in Hf. destruct Hf as [Hin' Heq]. apply Z.eqb_eq in Heq.
      rewrite (Huniq m' Hin' Heq). destruct m as [hm0 r0 w0]. simpl in *. now subst.
    + exfalso. apply (find_none _ _ Hf m) in Hin. now rewrite Z.eqb_refl in Hin.
  - intros hm Hnone. unfold workarea_for_hmon.
    assert (Hfall : match spi_workarea env with
                    | Some r => r
                    | None => let '(sw, sh) := screen_metrics env in mkRect 0 0 sw sh
                    end = match spi_workarea env with
                          | Some r => r
                          | None => mkRect 0 0 (fst (screen_metrics env))
                                      (snd (screen_metrics env))
                          end).
    { destruct (spi_workarea env); [reflexivity|]. now destruct (screen_metrics env). }
    destruct (List.find (fun m0 => hmon m0 =? hm) (monitors env)) as [m'|] eqn:Hf;
      [|exact Hfall].
    apply find_some in Hf. destruct Hf as [Hin' Heq]. apply Z.eqb_eq in Heq.
    specialize (Hnone m' Hin' Heq). destruct m' as [hm0 r0 w0]. simpl in *. subst w0.
    exact Hfall.
Qed.

(** ** What the scanner never returns *)

(** X24: the scanner never returns a hidden window, a tool window, a
    window whose styles or rectangle cannot be read, a window without any
    frame style bit, or a window smaller than 200 x 150: the handle it
    returns belongs to an enumerated window free of all these. *)
Theorem pick_best_result_filtered (ps : option (gset Z)) (eb : option string)
    (sh : option (gset Z)) (ws : list Window) (h : Z) :
  pick_best_window_by ps eb sh ws = Some h ->
  exists w style ex r,
    In w ws /\ hwnd w = h /\ visible w = true /\
    styles w = Some (style, ex) /\
    Z.land ex win32con.WS_EX_TOOLWINDOW = 0 /\ Z.land style WS_OVERLAPPEDWINDOW <> 0 /\
    wrect w = Some r /\ 200 <= width r /\ 150 <= height r.
Proof.
  intros Hpick.
  destruct (pick_best_some ps eb sh ws h Hpick) as (w & Hin & Hh & Hp & _).
  unfold passes_filters, is_main_style in Hp.
  destruct (visible w) eqn:Hv; [|discriminate].
  destruct (styles w) as [[style ex]|] eqn:Hs; [|discriminate].
  destruct (wrect w) as [r|] eqn:Hr; [|now rewrite andb_false_r in Hp].
  simpl in Hp. rewrite !andb_true_iff, !negb_true_iff in Hp.
  destruct Hp as [[Hstyle Htool] Hsize].
  apply negb_false_iff, Z.eqb_eq in Htool. apply Z.eqb_neq in Hstyle.
  apply orb_false_iff in Hsize. destruct Hsize as [Hw Hht].
  apply Z.ltb_ge in Hw. apply Z.ltb_ge in Hht.
  exists w, style, ex, r. repeat split; auto.
Qed.

Lemma pick_best_result_filtered_witness :
  pick_best_window_by (Some {[ 4242 ]}) None None [explorer; notepad] = Some 200 /\
  exists w style ex r,
    In w [explorer; notepad] /\ hwnd w = 200 /\ visible w = true /\
    styles w = Some (style, ex) /\
    Z.land ex win32con.WS_EX_TOOLWINDOW = 0 /\ Z.land style WS_OVERLAPPEDWINDOW <> 0 /\
    wrect w = Some r /\ 200 <= width r /\ 150 <= height r.
Proof.
  assert (H : pick_best_window_by (Some {[ 4242 ]}) None None [explorer; notepad] = Some 200)
    by reflexivity.
  split; [exact H|].
  exact (pick_best_result_filtered _ _ _ _ _ H).
Defined.

(** ** Drift watchdog: what a correction leaves *)

(** X25: with no other process acting, a poll of the watchdog that finds
    the visible window off the target monitor, or moved beyond tolerance,
    places it again: the window is left exactly as a fresh placement leaves
    it, the calls of one placement are issued, and the new baseline is the
    rectangle the window then has. *)
Theorem watch_poll_corrects (env : Env) (h hmon_target : Z) (mode : string)
    (last : option Rect) (st : World) (w : Window) :
  quiescent env -> h <> 0 -> find_window h (wins st) = Some w -> visible w = true ->
  nearest env (wrect w) <> hmon_target \/ rect_changed (wrect w) last = true ->
  exists st',
    watch_poll env h hmon_target mode last st =
      (Ok (Some (wrect (placed_window env hmon_target mode w))), st') /\
    find_window h (wins st') = Some (placed_window env hmon_target mode w) /\
    log st' = log st ++ placement_calls env hmon_target mode w /\
    now st' = now st + placement_delay mode w.
Proof.
  intros Hq Hh Hw Hvis Hdrift.
  destruct (move_and_set_run env h hmon_target mode st w Hq Hw)
    as (st' & Heq & Hf & Hl & Hn).
  exists st'. split; [|auto].
  unfold watch_poll, bind, IsWindow, IsWindowVisible, MonitorFromWindow, rect, rect_of, ret.
  apply Z.eqb_neq in Hh. rewrite Hw, Hvis, Hh. simpl. rewrite !Hw.
  assert (Hc : negb (nearest env (wrect w) =? hmon_target) || rect_changed (wrect w) last
               = true).
  { rewrite orb_true_iff, negb_true_iff, Z.eqb_neq. exact Hdrift. }
  rewrite Hc, Heq, Hf. reflexivity.
Qed.

Lemma watch_poll_corrects_witness :
  quiescent quiet_env /\ 200 <> 0 /\ find_window 200 (wins desk0) = Some notepad /\
  visible notepad = true /\
  (nearest quiet_env (wrect notepad) <> 11 \/ rect_changed (wrect notepad) None = true) /\
  exists st',
    watch_poll quiet_env 200 11 "workarea" None desk0 =
      (Ok (Some (wrect (placed_window quiet_env 11 "workarea" notepad))), st') /\
    find_window 200 (wins st') = Some (placed_window quiet_env 11 "workarea" notepad) /\
    log st' = log desk0 ++ placement_calls quiet_env 11 "workarea" notepad /\
    now st' = now desk0 + placement_delay "workarea" notepad.
Proof.
  assert (H0 : 200 <> 0) by discriminate.
  assert (H1 : nearest quiet_env (wrect notepad) <> 11 \/
               rect_changed (wrect notepad) None = true) by (right; reflexivity).
  split; [exact quiet_env_quiescent|]. split; [exact H0|]. split; [reflexivity|].
  split; [reflexivity|]. split; [exact H1|].
  exact (watch_poll_corrects quiet_env 200 11 "workarea" None desk0 notepad
           quiet_env_quiescent H0 eq_refl eq_refl H1).
Defined.
